(** * AutoExec.py: a shallow embedding of the supervision engine

    The development follows [autoexec.py] top to bottom: configuration
    constants, the shared log handler, the command executor, the parser of
    the definitions file, the status API handler, the per-service manager
    ([manage_service]) and the main reconciliation loop ([main]).

    External collaborators (git, the file system, the operating system's
    process table) are not executed: every call that leaves the program
    reads its outcome from an explicit environment record, and every call
    that acts on the outside world is recorded in a trace of events. *)

From Stdlib Require Import ZArith List String Ascii Bool Lia.
From stdpp Require Import base option list gmap sets strings pretty.
Import ListNotations.

Local Open Scope string_scope.
Local Open Scope list_scope.

Set Warnings "-register-all".

(** ** Configuration *)

Module Config.

Definition SERVICES_FILE : string := "services.txt".
Definition REPOS_DIR : string := "repos".
Definition MAIN_LOOP_SLEEP : nat := 5.
Definition GIT_CHECK_INTERVAL : nat := 30.
Definition API_ENABLED : bool := true.
Definition API_HOST : string := "localhost".
Definition API_PORT : Z := 8000.
Definition MAX_LOG_ENTRIES : nat := 20.

End Config.
Import Config.

(** ** Strings the way Python sees them *)

Module Py.

(** [str.isspace] on the ASCII range: space, [\t \n \v \f \r] and the
    four separators 0x1c-0x1f. *)
Definition is_space (c : ascii) : bool :=
  let n := nat_of_ascii c in
  ((n =? 32) || ((9 <=? n) && (n <=? 13)) || ((28 <=? n) && (n <=? 31)))%nat.

Fixpoint lstrip (s : string) : string :=
  match s with
  | EmptyString => EmptyString
  | String c rest => if is_space c then lstrip rest else s
  end.

Definition rstrip (s : string) : string :=
  String.rev (lstrip (String.rev s)).

(** [s.strip()] *)
Definition strip (s : string) : string := rstrip (lstrip s).

(** [s.split()]: maximal runs of non-blank characters. [cur] is the word
    being read, reversed. *)
Fixpoint split_go (cur : string) (s : string) : list string :=
  match s with
  | EmptyString =>
      match cur with EmptyString => [] | _ => [String.rev cur] end
  | String c rest =>
      if is_space c
      then match cur with
           | EmptyString => split_go EmptyString rest
           | _ => String.rev cur :: split_go EmptyString rest
           end
      else split_go (String c cur) rest
  end.

Definition split (s : string) : list string := split_go EmptyString s.

(** [s.startswith(p)] *)
Definition startswith (p s : string) : bool := String.prefix p s.

(** [sep.join(parts)] *)
Fixpoint join (sep : string) (parts : list string) : string :=
  match parts with
  | [] => EmptyString
  | [p] => p
  | p :: rest => p +:+ sep +:+ join sep rest
  end.

(** [os.path.basename]: what follows the last slash. *)
Fixpoint basename_go (cur : string) (s : string) : string :=
  match s with
  | EmptyString => String.rev cur
  | String c rest =>
      if Ascii.eqb c "/" then basename_go EmptyString rest
      else basename_go (String c cur) rest
  end.

Definition basename (p : string) : string := basename_go EmptyString p.

(** [os.path.join(a, b)] for two components. *)
Definition path_join (a b : string) : string :=
  if startswith "/" b then b
  else if String.eqb a EmptyString || startswith "/" (String.rev a) then a +:+ b
  else a +:+ "/" +:+ b.

(** The exceptions the program can meet. *)
Inductive exn : Type :=
| OSError (what : string)
| KeyError (key : string)
| TypeError (what : string).

End Py.

(** ** Events: every action on the outside world *)

Definition pid : Type := nat.

Inductive level : Type := DEBUG | INFO | WARNING | ERROR | CRITICAL.

Definition levelname (lv : level) : string :=
  match lv with
  | DEBUG => "DEBUG" | INFO => "INFO" | WARNING => "WARNING"
  | ERROR => "ERROR" | CRITICAL => "CRITICAL"
  end.

(** A service definition: the dictionary [{"url", "branch", "path"}] built
    by [parse_services_file]. *)
Record service_config : Type := ServiceConfig {
  cfg_url : string;
  cfg_branch : string;
  cfg_path : string
}.

(** Lifecycle values written under ["status"]. *)
Inductive lifecycle : Type :=
| initializing | cloning | failed | crashed | updating | running.

Definition lifecycle_str (s : lifecycle) : string :=
  match s with
  | initializing => "initializing" | cloning => "cloning"
  | failed => "failed" | crashed => "crashed"
  | updating => "updating" | running => "running"
  end.

Inductive event : Type :=
(* the command executor *)
| EvRun (command : list string) (cwd : string)
| EvRootLog (lv : level) (msg : string)
(* file system *)
| EvIsDir (path : string)
| EvExists (path : string)
| EvMakedirs (path : string)
| EvRead (path : string)
(* the worker, a [subprocess.Popen] object *)
| EvPopen (script : string) (cwd : string)
| EvChildTerminate (child : pid)
| EvChildWait (child : pid)
(* writes to the status record and to the store *)
| EvStatus (s : lifecycle)
| EvScriptPid (p : option pid)
| EvScriptToRun (script : string)
| EvRegister (path : string)
| EvDelEntry (path : string)
(* [multiprocessing.Process] objects handled by the main loop *)
| EvStart (key : string) (p : pid) (cfg : service_config)
| EvTerminate (p : pid)
| EvJoin (p : pid) (timeout : nat)
| EvKill (p : pid)
| EvSleep (seconds : nat).

(** ** A state, trace and control-flow monad

    [Continue] and [Return] are the Python statements of the same name,
    [Raise] an exception in flight. *)

Inductive flow (A : Type) : Type :=
| Next (a : A)
| Continue
| Return
| Raise (e : Py.exn).
Arguments Next {A} a.
Arguments Continue {A}.
Arguments Return {A}.
Arguments Raise {A} e.

Definition M (S A : Type) : Type := S → flow A * S * list event.

Definition M_ret {S A} (a : A) : M S A := λ s, (Next a, s, []).

Definition M_bind {S A B} (f : A → M S B) (m : M S A) : M S B :=
  λ s, match m s with
       | (Next a, s1, t1) =>
           let '(r, s2, t2) := f a s1 in (r, s2, t1 ++ t2)
       | (Continue, s1, t1) => (Continue, s1, t1)
       | (Return, s1, t1) => (Return, s1, t1)
       | (Raise e, s1, t1) => (Raise e, s1, t1)
       end.

#[global] Instance M_mret {S} : MRet (M S) := @M_ret S.
#[global] Instance M_mbind {S} : MBind (M S) := @M_bind S.

Definition get {S} : M S S := λ s, (Next s, s, []).
Definition modify {S} (f : S → S) : M S unit := λ s, (Next tt, f s, []).
Definition tell {S} (e : event) : M S unit := λ s, (Next tt, s, [e]).
Definition continue_ {S A} : M S A := λ s, (Continue, s, []).
Definition return_ {S A} : M S A := λ s, (Return, s, []).
Definition raise {S A} (e : Py.exn) : M S A := λ s, (Raise e, s, []).

(** [time.sleep(n)] *)
Definition sleep {S} (n : nat) : M S unit := tell (EvSleep n).

(** [for x in xs: body x]; a [continue] in the body moves on to the next
    element, an exception or a [return] leaves the loop. *)
Fixpoint for_each {S A} (xs : list A) (body : A → M S unit) : M S unit :=
  match xs with
  | [] => mret tt
  | x :: rest =>
      λ s, match body x s with
           | (Next _, s1, t1) | (Continue, s1, t1) =>
               let '(r, s2, t2) := for_each rest body s1 in (r, s2, t1 ++ t2)
           | (Return, s1, t1) => (Return, s1, t1)
           | (Raise e, s1, t1) => (Raise e, s1, t1)
           end
  end.

(** ** SharedLogHandler

    [emit] appends the formatted record to the shared list and then pops
    index 0 while the list is longer than the capacity. *)

(** [while len(shared_list) > cap: shared_list.pop(0)] *)
Fixpoint trim (cap : nat) (shared_list : list string) : list string :=
  match shared_list with
  | [] => []
  | _ :: rest =>
      if (cap <? length shared_list)%nat then trim cap rest else shared_list
  end.

Definition emit_cap (cap : nat) (shared_list : list string)
    (log_entry : string) : list string :=
  trim cap (shared_list ++ [log_entry]).

Definition emit : list string → string → list string :=
  emit_cap MAX_LOG_ENTRIES.

(** ** run_command *)

(** What [subprocess.run(..., check=True)] did. *)
Inductive subprocess_result : Type :=
| Completed (stdout : string)
| CalledProcessError (stderr : string)
| FileNotFoundError.

(** The [logging.debug] line is below the root logger's level and leaves no
    trace. *)
Definition run_command {S} (command : list string) (cwd : string)
    (res : subprocess_result) : M S (option string) :=
  _ ← tell (EvRun command cwd);
  match res with
  | Completed stdout => mret (Some (Py.strip stdout))
  | CalledProcessError stderr =>
      _ ← tell (EvRootLog ERROR
                  ("Command failed: " +:+ Py.join " " command +:+
                   String "010" "Error: " +:+ Py.strip stderr));
      mret None
  | FileNotFoundError =>
      _ ← tell (EvRootLog ERROR
                  ("Command not found: " +:+ hd EmptyString command +:+
                   ". Is it installed and in your PATH?"));
      mret None
  end.

(** ** parse_services_file *)

(** Library functions the parser calls and this development does not
    re-implement: [urlparse(url).path], [os.path.splitext(p)[0]] and
    [os.path.abspath]. *)
Record pathlib : Type := PathLib {
  urlparse_path : string → string;
  splitext_root : string → string;
  abspath : string → string
}.

Definition get_repo_name_from_url (lib : pathlib) (url : string) : string :=
  let path := urlparse_path lib url in
  let repo_name := splitext_root lib (Py.basename path) in
  if String.eqb repo_name EmptyString then "unknown_repo" else repo_name.

(** The body of [for line in f]. A stripped, non-empty line has a first
    word, so [parts[0]] is always there. *)
Definition parse_line (lib : pathlib) (services : gmap string service_config)
    (line : string) : gmap string service_config :=
  let line := Py.strip line in
  if String.eqb line EmptyString || Py.startswith "#" line then services
  else
    match Py.split line with
    | [] => services
    | url :: rest =>
        let branch := match rest with b :: _ => b | [] => "main" end in
        let dir_name :=
          match rest with
          | _ :: d :: _ => d
          | _ => get_repo_name_from_url lib url
          end in
        let repo_path := abspath lib (Py.path_join REPOS_DIR dir_name) in
        <[repo_path := ServiceConfig url branch repo_path]> services
    end.

(** [file] is the content of [SERVICES_FILE], line by line, or [None] when
    [os.path.exists] says the file is not there. *)
Definition parse_services_file {S} (lib : pathlib) (file : option (list string))
    : M S (gmap string service_config) :=
  match file with
  | None =>
      _ ← tell (EvRootLog WARNING
                  ("'" +:+ SERVICES_FILE +:+ "' not found. No services to manage."));
      mret ∅
  | Some lines => mret (foldl (parse_line lib) ∅ lines)
  end.

(** ** The status record of one service *)

(** The [manager.dict] built at the top of [manage_service]; ["logs"] is the
    service's shared list. *)
Record ServiceStatus : Type := {
  status : lifecycle;
  url : string;
  branch : string;
  repo_path : string;
  script_to_run : option string;
  service_manager_pid : pid;
  script_pid : option pid;
  logs : list string
}.

(** [shared_status]: ["manager_pid"] and the ["services"] dictionary, each
    value of which is the status record of the Supervisor that put it
    there. *)
Record shared_status : Type := {
  manager_pid : pid;
  services : gmap string ServiceStatus
}.

(** ** The status API *)

(** Python values that reach [json.dumps]. A [PyListProxy] is the proxy of a
    [manager.list()]: a reference to the list owned by a manager process. *)
Inductive pyval : Type :=
| PyNone
| PyInt (n : Z)
| PyStr (s : string)
| PyList (items : list pyval)
| PyDict (items : list (string * pyval))
| PyListProxy (referent : list string).

Inductive pyclass : Type :=
| cls_NoneType | cls_int | cls_str | cls_list | cls_dict
| cls_ListProxy | cls_type.

#[global] Instance pyclass_eq_dec : EqDecision pyclass.
Proof. solve_decision. Defined.

(** [type(v)] *)
Definition type_of (v : pyval) : pyclass :=
  match v with
  | PyNone => cls_NoneType
  | PyInt _ => cls_int
  | PyStr _ => cls_str
  | PyList _ => cls_list
  | PyDict _ => cls_dict
  | PyListProxy _ => cls_ListProxy
  end.

(** [c.__class__] for a class [c]: each of these classes is an instance of
    [type]. *)
Definition class_of_class (c : pyclass) : pyclass := cls_type.

(** [isinstance(v, c)]; none of the classes above derives from another. *)
Definition isinstance (v : pyval) (c : pyclass) : bool :=
  bool_decide (type_of v = c).

(** [list(v)] *)
Definition py_list (v : pyval) : pyval :=
  match v with
  | PyListProxy referent => PyList (PyStr <$> referent)
  | _ => v
  end.

Inductive json : Type :=
| JNull
| JInt (n : Z)
| JStr (s : string)
| JArr (items : list json)
| JObj (members : list (string * json)).

(** [json.dumps]: the document it writes, or [None] where the encoder
    raises [TypeError] (an object that is none of dict, list, str, int,
    None). *)
Fixpoint json_dumps (v : pyval) : option json :=
  match v with
  | PyNone => Some JNull
  | PyInt n => Some (JInt n)
  | PyStr s => Some (JStr s)
  | PyList items =>
      JArr <$>
        (fix go (l : list pyval) : option (list json) :=
           match l with
           | [] => Some []
           | x :: l' =>
               match json_dumps x, go l' with
               | Some j, Some js => Some (j :: js)
               | _, _ => None
               end
           end) items
  | PyDict items =>
      JObj <$>
        (fix go (l : list (string * pyval)) : option (list (string * json)) :=
           match l with
           | [] => Some []
           | (k, x) :: l' =>
               match json_dumps x, go l' with
               | Some j, Some js => Some ((k, j) :: js)
               | _, _ => None
               end
           end) items
  | PyListProxy _ => None
  end.

Definition py_opt {A} (f : A → pyval) (o : option A) : pyval :=
  match o with Some a => f a | None => PyNone end.

(** [service.items()] for a status record. *)
Definition service_items (s : ServiceStatus) : list (string * pyval) :=
  [ ("status", PyStr (lifecycle_str (status s)));
    ("url", PyStr (url s));
    ("branch", PyStr (branch s));
    ("repo_path", PyStr (repo_path s));
    ("script_to_run", py_opt PyStr (script_to_run s));
    ("service_manager_pid", PyInt (Z.of_nat (service_manager_pid s)));
    ("script_pid", py_opt (λ p, PyInt (Z.of_nat p)) (script_pid s));
    ("logs", PyListProxy (logs s)) ].

(** [{k: list(v) if isinstance(v, list.__class__) else v for k, v in ...}] *)
Definition copy_service (items : list (string * pyval))
    : list (string * pyval) :=
  (λ kv, (kv.1, if isinstance kv.2 (class_of_class cls_list)
                then py_list kv.2 else kv.2)) <$> items.

Definition Z_to_string (n : Z) : string := pretty n.

Definition build_status_copy (shared : shared_status) : pyval :=
  PyDict
    [ ("manager_pid", PyInt (Z.of_nat (manager_pid shared)));
      ("api_url", PyStr ("http://" +:+ API_HOST +:+ ":" +:+
                         Z_to_string API_PORT +:+ "/status"));
      ("services",
        PyDict ((λ kv, (kv.1, PyDict (copy_service (service_items kv.2))))
                  <$> map_to_list (services shared))) ].

Inductive http_body : Type :=
| WroteJson (doc : json)
| WroteBytes (bytes : string)
| Raised (e : Py.exn).

Record response : Type := {
  resp_code : Z;
  resp_headers : list (string * string);
  resp_body : http_body
}.

(** [StatusAPIRequestHandler.do_GET]; the status line and the headers are
    sent before the body is built. *)
Definition do_GET (shared : shared_status) (path : string) : response :=
  if String.eqb path "/status" then
    {| resp_code := 200;
       resp_headers := [("Content-type", "application/json")];
       resp_body :=
         match json_dumps (build_status_copy shared) with
         | Some doc => WroteJson doc
         | None => Raised (Py.TypeError "Object of type ListProxy is not JSON serializable")
         end |}
  else
    {| resp_code := 404;
       resp_headers := [];
       resp_body := WroteBytes "Not Found" |}.

(** ** manage_service: the Supervisor of one service *)

(** What the Supervisor process holds: its status record (shared with the
    store by reference) and the local variable [child_process]. *)
Record sup_state : Type := {
  service_status : ServiceStatus;
  child_process : option pid
}.

Definition Sup : Type → Type := M sup_state.

(** The dictionary literal handed to [manager.dict]. *)
Definition initial_status (cfg : service_config) (self_pid : pid)
    : ServiceStatus :=
  {| status := initializing;
     url := cfg_url cfg;
     branch := cfg_branch cfg;
     repo_path := cfg_path cfg;
     script_to_run := None;
     service_manager_pid := self_pid;
     script_pid := None;
     logs := [] |}.

Definition with_status (v : lifecycle) (r : ServiceStatus) : ServiceStatus :=
  {| status := v; url := url r; branch := branch r; repo_path := repo_path r;
     script_to_run := script_to_run r;
     service_manager_pid := service_manager_pid r;
     script_pid := script_pid r; logs := logs r |}.

Definition with_script_to_run (v : option string) (r : ServiceStatus)
    : ServiceStatus :=
  {| status := status r; url := url r; branch := branch r;
     repo_path := repo_path r; script_to_run := v;
     service_manager_pid := service_manager_pid r;
     script_pid := script_pid r; logs := logs r |}.

Definition with_script_pid (v : option pid) (r : ServiceStatus)
    : ServiceStatus :=
  {| status := status r; url := url r; branch := branch r;
     repo_path := repo_path r; script_to_run := script_to_run r;
     service_manager_pid := service_manager_pid r;
     script_pid := v; logs := logs r |}.

Definition with_logs (v : list string) (r : ServiceStatus) : ServiceStatus :=
  {| status := status r; url := url r; branch := branch r;
     repo_path := repo_path r; script_to_run := script_to_run r;
     service_manager_pid := service_manager_pid r;
     script_pid := script_pid r; logs := v |}.

Definition on_status (f : ServiceStatus → ServiceStatus) (s : sup_state)
    : sup_state :=
  {| service_status := f (service_status s);
     child_process := child_process s |}.

(** [service_status["status"] = v] *)
Definition set_status (v : lifecycle) : Sup unit :=
  _ ← modify (on_status (with_status v)); tell (EvStatus v).

(** [service_status["script_pid"] = v] *)
Definition set_script_pid (v : option pid) : Sup unit :=
  _ ← modify (on_status (with_script_pid v)); tell (EvScriptPid v).

(** [service_status["script_to_run"] = v] *)
Definition set_script_to_run (v : string) : Sup unit :=
  _ ← modify (on_status (with_script_to_run (Some v))); tell (EvScriptToRun v).

(** [child_process = v] *)
Definition set_child (v : option pid) : Sup unit :=
  modify (λ s, {| service_status := service_status s; child_process := v |}).

(** The handler's formatter, without the time stamp. *)
Definition format_record (lv : level) (msg : string) : string :=
  "[" +:+ levelname lv +:+ "] " +:+ msg.

(** [service_logger.<level>(msg)]: the logger's level is INFO, so a debug
    record is dropped; anything else goes through [emit]. *)
Definition service_log (lv : level) (msg : string) : Sup unit :=
  match lv with
  | DEBUG => mret tt
  | _ => modify (on_status (λ r, with_logs (emit (logs r) (format_record lv msg)) r))
  end.

(** What the outside world answers during the set-up of a Supervisor. *)
Record init_env : Type := {
  git_dir_exists : bool;
  clone_result : subprocess_result
}.

(** What the outside world answers during one pass of the polling loop.
    Each field is consulted at most once per pass. *)
Record cycle_env : Type := {
  fetch_result : subprocess_result;
  local_result : subprocess_result;
  remote_result : subprocess_result;
  poll : option Z;
  pull_result : subprocess_result;
  autoexec_exists : bool;
  autoexec_read : string + Py.exn;
  script_exists : bool;
  popen : pid + Py.exn
}.

Definition exn_str (e : Py.exn) : string :=
  match e with
  | Py.OSError what => what
  | Py.KeyError key => "'" +:+ key +:+ "'"
  | Py.TypeError what => what
  end.

(** Everything before [while True]. *)
Definition manage_service_init (cfg : service_config) (env : init_env)
    : Sup unit :=
  let repo_path := cfg_path cfg in
  _ ← tell (EvRegister repo_path);
  _ ← set_status cloning;
  _ ← tell (EvIsDir (Py.path_join repo_path ".git"));
  if negb (git_dir_exists env) then
    _ ← service_log INFO ("Cloning " +:+ cfg_url cfg +:+ "...");
    _ ← tell (EvMakedirs repo_path);
    r ← run_command ["git"; "clone"; "--branch"; cfg_branch cfg; cfg_url cfg; "."]
          repo_path (clone_result env);
    match r with
    | None =>
        _ ← service_log ERROR
              "Failed to clone repository. Shutting down service manager.";
        _ ← set_status failed;
        return_
    | Some _ => mret tt
    end
  else mret tt.

(** [local_hash != remote_hash and remote_hash is not None] *)
Definition has_updates (local_hash remote_hash : option string) : bool :=
  bool_decide (local_hash ≠ remote_hash) && bool_decide (remote_hash ≠ None).

(** Step 3, second half: the body of [if not child_process:]. *)
Definition launch (cfg : service_config) (env : cycle_env) : Sup unit :=
  let repo_path := cfg_path cfg in
  let autoexec_path := Py.path_join repo_path "autoexec.txt" in
  _ ← tell (EvExists autoexec_path);
  if negb (autoexec_exists env) then
    _ ← service_log ERROR "'autoexec.txt' not found. Cannot start script.";
    _ ← sleep GIT_CHECK_INTERVAL;
    continue_
  else
    _ ← tell (EvRead autoexec_path);
    content ← match autoexec_read env with
              | inl c => mret c
              | inr e => raise e
              end;
    let script := Py.strip content in
    _ ← set_script_to_run script;
    let script_path := Py.path_join repo_path script in
    missing ← (if String.eqb script EmptyString then mret true
               else _ ← tell (EvExists script_path);
                    mret (negb (script_exists env)));
    if (missing : bool) then
      _ ← service_log ERROR ("Script '" +:+ script +:+ "' not found or invalid.");
      _ ← sleep GIT_CHECK_INTERVAL;
      continue_
    else
      _ ← service_log INFO ("Starting script: python " +:+ script);
      _ ← tell (EvPopen script repo_path);
      child ← match popen env with
              | inl p => mret p
              | inr e => raise e
              end;
      _ ← set_child (Some child);
      _ ← set_status running;
      set_script_pid (Some child).

(** The [try] block of the polling loop. *)
Definition loop_body (cfg : service_config) (env : cycle_env) : Sup unit :=
  let repo_path := cfg_path cfg in
  (* 2. Check for updates *)
  _ ← service_log DEBUG "Fetching updates from remote...";
  _ ← run_command ["git"; "fetch"] repo_path (fetch_result env);
  local_hash ← run_command ["git"; "rev-parse"; "HEAD"] repo_path
                 (local_result env);
  remote_hash ← run_command ["git"; "rev-parse"; "origin/" +:+ cfg_branch cfg]
                  repo_path (remote_result env);
  (* 3. Handle process execution *)
  s ← get;
  _ ← match child_process s, poll env with
      | Some _, Some _ =>
          _ ← service_log WARNING "Script has terminated unexpectedly. Restarting...";
          _ ← set_status crashed;
          _ ← set_script_pid None;
          set_child None
      | _, _ => mret tt
      end;
  _ ← (if has_updates local_hash remote_hash then
         _ ← set_status updating;
         _ ← service_log INFO "New updates found. Restarting script.";
         s ← get;
         _ ← match child_process s with
             | Some child =>
                 _ ← service_log INFO "Terminating running script...";
                 _ ← tell (EvChildTerminate child);
                 _ ← tell (EvChildWait child);
                 _ ← set_script_pid None;
                 set_child None
             | None => mret tt
             end;
         _ ← service_log INFO "Pulling latest changes...";
         r ← run_command ["git"; "pull"; "origin"; cfg_branch cfg] repo_path
               (pull_result env);
         match r with
         | None =>
             _ ← service_log ERROR "Failed to pull updates. Retrying later.";
             _ ← sleep GIT_CHECK_INTERVAL;
             continue_
         | Some _ => mret tt
         end
       else mret tt);
  s ← get;
  _ ← match child_process s with
      | None => launch cfg env
      | Some _ => mret tt
      end;
  sleep GIT_CHECK_INTERVAL.

(** The [except Exception] clause. *)
Definition on_exception (e : Py.exn) : Sup unit :=
  _ ← service_log ERROR ("Unexpected error in service manager: " +:+ exn_str e);
  s ← get;
  _ ← match child_process s with
      | Some child => tell (EvChildTerminate child)
      | None => mret tt
      end;
  _ ← set_status failed;
  sleep GIT_CHECK_INTERVAL.

(** One pass of [while True]: the [try] block and its handler. *)
Definition loop_iteration (cfg : service_config) (env : cycle_env) : Sup unit :=
  λ s, match loop_body cfg env s with
       | (Raise e, s1, t1) =>
           let '(r, s2, t2) := on_exception e s1 in (r, s2, t1 ++ t2)
       | other => other
       end.

(** [manage_service], run for as many passes of the loop as [envs] has
    answers. The result is [Return] when the function has returned (the
    Supervisor process exits) and [Next tt] when it is still in its loop. *)
Definition manage_service (cfg : service_config) (self_pid : pid)
    (ienv : init_env) (envs : list cycle_env)
    : flow unit * sup_state * list event :=
  (_ ← manage_service_init cfg ienv; for_each envs (loop_iteration cfg))
    {| service_status := initial_status cfg self_pid; child_process := None |}.

(** ** main: the reconciliation loop *)

(** What a [multiprocessing.Process] was created to run. A [Worker] is the
    script a Supervisor launched with [subprocess.Popen]; it sits in the
    same operating-system process table. *)
Inductive target : Type :=
| ManageService (cfg : service_config)
| RunApiServer
| Worker (script : string).

Record Process : Type := {
  proc_name : string;
  proc_target : target;
  proc_alive : bool
}.

(** The state the main loop works on: the shared status dictionary, its own
    table [managed_processes] (a [Process] object is identified with its
    pid) and the process table of the operating system. *)
Record main_state : Type := {
  shared : shared_status;
  managed_processes : gmap string pid;
  procs : gmap pid Process
}.

Definition Main : Type → Type := M main_state.

(** What the outside world answers during one reconciliation cycle: the
    definitions file, and for each process whether it is gone when
    [join(timeout=5)] comes back. *)
Record main_env : Type := {
  services_file : option (list string);
  join_exits : pid → bool
}.

Definition on_services (f : gmap string ServiceStatus → gmap string ServiceStatus)
    (s : main_state) : main_state :=
  {| shared := {| manager_pid := manager_pid (shared s);
                  services := f (services (shared s)) |};
     managed_processes := managed_processes s;
     procs := procs s |}.

Definition on_managed (f : gmap string pid → gmap string pid)
    (s : main_state) : main_state :=
  {| shared := shared s;
     managed_processes := f (managed_processes s);
     procs := procs s |}.

Definition on_procs (f : gmap pid Process → gmap pid Process)
    (s : main_state) : main_state :=
  {| shared := shared s;
     managed_processes := managed_processes s;
     procs := f (procs s) |}.

(** [process.is_alive()] *)
Definition is_alive (s : main_state) (process : pid) : bool :=
  match procs s !! process with
  | Some P => proc_alive P
  | None => false
  end.

Definition mark_dead (P : Process) : Process :=
  {| proc_name := proc_name P; proc_target := proc_target P;
     proc_alive := false |}.

(** [process.terminate()]: SIGTERM goes to that one process. *)
Definition terminate (process : pid) : Main unit :=
  tell (EvTerminate process).

(** [process.join(timeout=n)] *)
Definition join (env : main_env) (process : pid) (n : nat) : Main unit :=
  _ ← tell (EvJoin process n);
  if join_exits env process
  then modify (on_procs (alter mark_dead process))
  else mret tt.

(** [Process(target=manage_service, args=(cfg, ...), name=name)] followed by
    [start()]: a process the table did not know yet. *)
Definition start (key name : string) (cfg : service_config) : Main pid :=
  s ← get;
  let p := fresh (dom (procs s)) in
  _ ← modify (on_procs (insert p {| proc_name := name;
                                    proc_target := ManageService cfg;
                                    proc_alive := true |}));
  _ ← tell (EvStart key p cfg);
  mret p.

(** [desired_services[path]] *)
Definition getitem (desired_services : gmap string service_config)
    (path : string) : Main service_config :=
  match desired_services !! path with
  | Some cfg => mret cfg
  | None => raise (Py.KeyError path)
  end.

(** Body of [for path in current_paths - desired_paths] *)
Definition stop_removed (env : main_env) (path : string) : Main unit :=
  _ ← tell (EvRootLog INFO
              ("Service for " +:+ path +:+ " removed from config. Stopping..."));
  s ← get;
  _ ← match managed_processes s !! path with
      | Some process =>
          _ ← modify (on_managed (delete path));
          s ← get;
          if is_alive s process then
            _ ← terminate process;
            join env process 5
          else mret tt
      | None => mret tt
      end;
  s ← get;
  _ ← (if decide (path ∈ dom (services (shared s))) then
         _ ← modify (on_services (delete path));
         tell (EvDelEntry path)
       else mret tt);
  tell (EvRootLog INFO ("Process for " +:+ path +:+ " stopped.")).

(** Body of [for path in desired_paths - current_paths] *)
Definition start_new (desired_services : gmap string service_config)
    (path : string) : Main unit :=
  _ ← tell (EvRootLog INFO
              ("New service for " +:+ path +:+ " found. Starting..."));
  service_config ← getitem desired_services path;
  let process_name := Py.basename path in
  process ← start path process_name service_config;
  modify (on_managed (insert path process)).

(** Body of [for path, process in list(managed_processes.items())] *)
Definition health_check (desired_services : gmap string service_config)
    (item : string * pid) : Main unit :=
  let '(path, process) := item in
  if String.eqb path "_api_server" then continue_
  else
    s ← get;
    if negb (is_alive s process) then
      _ ← tell (EvRootLog WARNING
                  ("Process for " +:+ path +:+
                   " has died unexpectedly. It will be restarted."));
      service_config ← getitem desired_services path;
      let name := from_option proc_name EmptyString (procs s !! process) in
      new_process ← start path name service_config;
      modify (on_managed (insert path new_process))
    else mret tt.

(** The three loops and the sleep, for a given pair of desired definitions
    and current paths. *)
Definition reconcile (env : main_env)
    (desired_services : gmap string service_config)
    (current_paths : gset string) : Main unit :=
  let desired_paths := dom desired_services in
  (* Stop services removed from config *)
  _ ← for_each (elements (current_paths ∖ desired_paths)) (stop_removed env);
  (* Start new services *)
  _ ← for_each (elements (desired_paths ∖ current_paths))
        (start_new desired_services);
  (* Health check on processes *)
  s ← get;
  _ ← for_each (map_to_list (managed_processes s))
        (health_check desired_services);
  sleep MAIN_LOOP_SLEEP.

(** [set(shared_status["services"].keys())] *)
Definition current_paths (s : main_state) : gset string :=
  dom (services (shared s)).

(** One pass of [while True] in [main]. *)
Definition main_cycle (lib : pathlib) (env : main_env) : Main unit :=
  desired_services ← parse_services_file lib (services_file env);
  s ← get;
  reconcile env desired_services (current_paths s).

(** The state [main] enters its loop with: an empty ["services"]
    dictionary and the API server as the only tracked process. *)
Definition initial_main_state (main_pid api_pid : pid) : main_state :=
  {| shared := {| manager_pid := main_pid; services := ∅ |};
     managed_processes := {[ "_api_server" := api_pid ]};
     procs := {[ api_pid := {| proc_name := "APIServer";
                               proc_target := RunApiServer;
                               proc_alive := true |} ]} |}.

(** ** The whole system, supervisors included

    Between two reconciliation cycles the Supervisor processes run on their
    own: a Supervisor puts its record into the store (the assignment
    [shared_status_dict[repo_path] = service_status]), and any process may
    exit. *)
Inductive sys_step (lib : pathlib) : main_state → main_state → Prop :=
| step_cycle env s s' t :
    main_cycle lib env s = (Next tt, s', t) →
    sys_step lib s s'
| step_register p P cfg s :
    procs s !! p = Some P →
    proc_target P = ManageService cfg →
    proc_alive P = true →
    sys_step lib s
      (on_services (insert (cfg_path cfg) (initial_status cfg p)) s)
| step_exit p P s :
    procs s !! p = Some P →
    sys_step lib s (on_procs (alter mark_dead p) s).

Definition reachable (lib : pathlib) (s : main_state) : Prop :=
  ∃ main_pid api_pid,
    rtc (sys_step lib) (initial_main_state main_pid api_pid) s.

(** A live Supervisor process that was started for [key]. *)
Definition holds (s : main_state) (p : pid) (key : string) : Prop :=
  ∃ P cfg, procs s !! p = Some P ∧ proc_target P = ManageService cfg
           ∧ cfg_path cfg = key ∧ proc_alive P = true.

(** ** The reading of the specification, for comparison *)

(** The actual set as the specification words it: the keys of the
    Reconciler's own table of spawned Supervisors. *)
Definition spec_current_paths (s : main_state) : gset string :=
  dom (managed_processes s) ∖ {[ "_api_server" ]}.

Definition spec_main_cycle (lib : pathlib) (env : main_env) : Main unit :=
  desired_services ← parse_services_file lib (services_file env);
  s ← get;
  reconcile env desired_services (spec_current_paths s).

(** ** Vocabulary of the statements below *)

(** What [run_command] returns for a given outcome of the subprocess. *)
Definition output_of (res : subprocess_result) : option string :=
  match res with
  | Completed stdout => Some (Py.strip stdout)
  | CalledProcessError _ | FileNotFoundError => None
  end.

(** The value of [has_updates] in a pass of the loop that meets [env]. *)
Definition update_available (env : cycle_env) : bool :=
  has_updates (output_of (local_result env)) (output_of (remote_result env)).

Definition fetch_cmd : list string := ["git"; "fetch"].
Definition head_cmd : list string := ["git"; "rev-parse"; "HEAD"].
Definition remote_cmd (cfg : service_config) : list string :=
  ["git"; "rev-parse"; "origin/" +:+ cfg_branch cfg].
Definition pull_cmd (cfg : service_config) : list string :=
  ["git"; "pull"; "origin"; cfg_branch cfg].
Definition autoexec_path (cfg : service_config) : string :=
  Py.path_join (cfg_path cfg) "autoexec.txt".

(** The launch logic was entered: its first action is the look-up of
    [autoexec.txt]. *)
Definition launch_attempted (cfg : service_config) (t : list event) : Prop :=
  EvExists (autoexec_path cfg) ∈ t.

(** The dictionary [parse_services_file] returns. *)
Definition desired_of (lib : pathlib) (file : option (list string))
    : gmap string service_config :=
  match file with
  | None => ∅
  | Some lines => foldl (parse_line lib) ∅ lines
  end.

(** *** The claims in the words of the specification, where the program
    departs from them *)


(** Once [failed] has been written, the Supervisor writes no other status
    and its function returns. *)
Definition spec_failed_is_terminal (cfg : service_config) (self_pid : pid)
    (ienv : init_env) (envs : list cycle_env) : Prop :=
  let '(r, _, t) := manage_service cfg self_pid ienv envs in
  ∀ i, t !! i = Some (EvStatus failed) →
    r = Return ∧ ∀ j v, i < j → t !! j ≠ Some (EvStatus v).

(** A worker found dead is reported as crashed, its pid is cleared and a
    relaunch is attempted in the same pass. *)
Definition spec_crash_recovery (cfg : service_config) (env : cycle_env)
    (s : sup_state) : Prop :=
  is_Some (child_process s) → is_Some (poll env) →
  let t := (loop_iteration cfg env s).2 in
  EvStatus crashed ∈ t ∧ EvScriptPid None ∈ t ∧ launch_attempted cfg t.

(** The invariant of the store: each key is held by exactly one live
    Supervisor, and no key by two. *)
Definition spec_store_invariant (s : main_state) : Prop :=
  (∀ key, key ∈ dom (services (shared s)) → ∃ p, holds s p key)
  ∧ (∀ key p1 p2, holds s p1 key → holds s p2 key → p1 = p2).

(** Removal of [key], whose Supervisor is [sup] and whose worker is
    [worker]: terminate, bounded wait, kill if that was not enough, entry
    and table slot gone, worker not running. *)
Definition spec_removal (env : main_env) (key : string) (sup worker : pid)
    (s' : main_state) (t : list event) : Prop :=
  ([EvTerminate sup; EvJoin sup 5] `sublist_of` t)
  ∧ (join_exits env sup = false → EvKill sup ∈ t)
  ∧ (key ∉ dom (services (shared s')))
  ∧ managed_processes s' !! key = None
  ∧ is_alive s' worker = false.

(** Without a definitions file every tracked service is removed: the
    Supervisor the table tracks for it is terminated and its entry leaves
    the store. *)
Definition spec_missing_file_removal (lib : pathlib) (env : main_env)
    (s : main_state) : Prop :=
  services_file env = None →
  let '(_, s', t) := main_cycle lib env s in
  ∀ key sup,
    key ≠ "_api_server" →
    managed_processes s !! key = Some sup → is_alive s sup = true →
    EvTerminate sup ∈ t ∧ managed_processes s' !! key = None.

(** *** Traces *)

(** The log records [run_command] leaves on the root logger. *)
Definition error_log (command : list string) (res : subprocess_result)
    : list event :=
  match res with
  | Completed _ => []
  | CalledProcessError stderr =>
      [EvRootLog ERROR
         ("Command failed: " +:+ Py.join " " command +:+
          String "010" "Error: " +:+ Py.strip stderr)]
  | FileNotFoundError =>
      [EvRootLog ERROR
         ("Command not found: " +:+ hd EmptyString command +:+
          ". Is it installed and in your PATH?")]
  end.

(** Every event of kind [Q] in [t] comes after some event of kind [P]. *)
Definition preceded_by (P Q : event → Prop) (t : list event) : Prop :=
  ∀ i e, t !! i = Some e → Q e →
    ∃ j e', j < i ∧ t !! j = Some e' ∧ P e'.

(** The same, as a walk along the trace: nothing of kind [Q] is met until
    something of kind [P] has been. *)
Inductive guarded (P Q : event → Prop) : list event → Prop :=
| guarded_nil : guarded P Q []
| guarded_hit e t : P e → ¬ Q e → guarded P Q (e :: t)
| guarded_skip e t : ¬ Q e → guarded P Q t → guarded P Q (e :: t).

Definition is_pull (cfg : service_config) (e : event) : Prop :=
  e = EvRun (pull_cmd cfg) (cfg_path cfg).

Definition is_popen (e : event) : Prop :=
  ∃ script cwd, e = EvPopen script cwd.

(** *** Sample inputs *)

Module Sample.

Definition cfg : service_config :=
  ServiceConfig "https://example.test/app.git" "release"
    "/srv/repos/deployapp".

(** A Supervisor that launched worker 7 in an earlier pass. *)
Definition with_worker : sup_state :=
  {| service_status :=
       with_script_pid (Some 7)
         (with_status running (initial_status cfg 101));
     child_process := Some 7 |}.

(** No worker yet. *)
Definition fresh_sup : sup_state :=
  {| service_status := with_status cloning (initial_status cfg 101);
     child_process := None |}.

(** An uneventful pass: nothing new upstream, everything in place. *)
Definition quiet : cycle_env :=
  {| fetch_result := Completed EmptyString;
     local_result := Completed "abc";
     remote_result := Completed "abc";
     poll := None;
     pull_result := Completed EmptyString;
     autoexec_exists := true;
     autoexec_read := inl "app.py";
     script_exists := true;
     popen := inl 8 |}.


(** The interpreter cannot be started: [Popen] raises. *)
Definition popen_raises : cycle_env :=
  {| fetch_result := Completed EmptyString;
     local_result := Completed "abc";
     remote_result := Completed "abc";
     poll := None;
     pull_result := Completed EmptyString;
     autoexec_exists := true;
     autoexec_read := inl "app.py";
     script_exists := true;
     popen := inr (Py.OSError "Permission denied") |}.

(** The worker has exited, upstream has moved and the pull fails. *)
Definition crash_update_pull_fails : cycle_env :=
  {| fetch_result := Completed EmptyString;
     local_result := Completed "abc";
     remote_result := Completed "def";
     poll := Some 1%Z;
     pull_result := CalledProcessError "merge conflict";
     autoexec_exists := true;
     autoexec_read := inl "app.py";
     script_exists := true;
     popen := inl 8 |}.

(** The worker runs, upstream has moved and the pull works. *)
Definition update_ok : cycle_env :=
  {| fetch_result := Completed EmptyString;
     local_result := Completed "abc";
     remote_result := Completed "def";
     poll := None;
     pull_result := Completed "Updating abc..def";
     autoexec_exists := true;
     autoexec_read := inl "app.py";
     script_exists := true;
     popen := inl 8 |}.

(** The worker has exited; nothing else happens. *)
Definition crash_only : cycle_env :=
  {| fetch_result := Completed EmptyString;
     local_result := Completed "abc";
     remote_result := Completed "abc";
     poll := Some 1%Z;
     pull_result := Completed EmptyString;
     autoexec_exists := true;
     autoexec_read := inl "app.py";
     script_exists := true;
     popen := inl 8 |}.

Definition checkout_present : init_env :=
  {| git_dir_exists := true; clone_result := Completed EmptyString |}.

Definition clone_fails : init_env :=
  {| git_dir_exists := false;
     clone_result := CalledProcessError "repository not found" |}.

End Sample.

(** *** What each loop of a cycle has done so far *)

(** A record of the root logger. *)
Definition log_event (e : event) : Prop := ∃ lv msg, e = EvRootLog lv msg.

(** What the removal loop has done after the keys [done]. *)
Record removal_inv (env : main_env) (s : main_state) (done : list string)
    (s1 : main_state) (t1 : list event) : Prop := {
  rm_services : ∀ k,
    services (shared s1) !! k
    = if decide (k ∈ done) then None else services (shared s) !! k;
  rm_managed : ∀ k,
    managed_processes s1 !! k
    = if decide (k ∈ done) then None else managed_processes s !! k;
  rm_dom_procs : dom (procs s1) = dom (procs s);
  rm_alive_mono : ∀ q, is_alive s1 q = true → is_alive s q = true;
  rm_alive_or_signalled : ∀ q,
    is_alive s q = true →
    is_alive s1 q = true ∨ [EvTerminate q; EvJoin q 5] `sublist_of` t1;
  rm_terminated_tracked : ∀ q,
    EvTerminate q ∈ t1 → ∃ k, k ∈ done ∧ managed_processes s !! k = Some q;
  rm_signalled : ∀ k q,
    k ∈ done → managed_processes s !! k = Some q → is_alive s q = true →
    [EvTerminate q; EvJoin q 5] `sublist_of` t1;
  rm_untracked : ∀ q,
    (∀ k, k ∈ done → managed_processes s !! k ≠ Some q) →
    procs s1 !! q = procs s !! q;
  rm_events : ∀ e, e ∈ t1 →
    log_event e ∨ (∃ q, e = EvTerminate q)
    ∨ (∃ q, e = EvJoin q 5) ∨ (∃ k, e = EvDelEntry k)
}.

(** What the start loop has done after the keys [done]. *)
Record addition_inv (desired : gmap string service_config) (s : main_state)
    (done : list string) (s2 : main_state) (t2 : list event) : Prop := {
  ad_shared : shared s2 = shared s;
  ad_dom : dom (procs s) ⊆ dom (procs s2);
  ad_procs_old : ∀ q, q ∈ dom (procs s) → procs s2 !! q = procs s !! q;
  ad_managed_other : ∀ k,
    k ∉ done → managed_processes s2 !! k = managed_processes s !! k;
  ad_started : ∀ k cfg,
    k ∈ done → desired !! k = Some cfg →
    ∃ q, EvStart k q cfg ∈ t2 ∧ (q ∉ dom (procs s))
         ∧ managed_processes s2 !! k = Some q ∧ is_alive s2 q = true;
  ad_events : ∀ e, e ∈ t2 →
    log_event e
    ∨ ∃ k q cfg, e = EvStart k q cfg ∧ k ∈ done ∧ desired !! k = Some cfg
                 ∧ q ∉ dom (procs s)
}.

(** What the health check has done after the items [done]. *)
Record health_inv (desired : gmap string service_config) (s : main_state)
    (done : list (string * pid)) (s3 : main_state) (t3 : list event)
    : Prop := {
  hc_shared : shared s3 = shared s;
  hc_dom : dom (procs s) ⊆ dom (procs s3);
  hc_procs_old : ∀ q, q ∈ dom (procs s) → procs s3 !! q = procs s !! q;
  hc_managed_other : ∀ k,
    (∀ q, (k, q) ∉ done) →
    managed_processes s3 !! k = managed_processes s !! k;
  hc_events : ∀ e, e ∈ t3 →
    log_event e
    ∨ ∃ k q' cfg q, e = EvStart k q' cfg ∧ (k, q) ∈ done
                    ∧ is_alive s q = false ∧ desired !! k = Some cfg
                    ∧ q' ∉ dom (procs s)
}.

(** *** Well-formed tables *)

(** Every [Process] object of the table is a process of the process table,
    and no object sits under two keys. *)
Definition table_wf (s : main_state) : Prop :=
  (∀ k q, managed_processes s !! k = Some q → q ∈ dom (procs s))
  ∧ (∀ k1 k2 q,
       managed_processes s !! k1 = Some q →
       managed_processes s !! k2 = Some q → k1 = k2).

(** *** Sample inputs for the main loop *)

Module SampleMain.

Definition lib : pathlib :=
  {| urlparse_path := λ u, u;
     splitext_root := λ p, p;
     abspath := λ p, "/srv/" +:+ p |}.

Definition key : string := cfg_path Sample.cfg.

(** The manager has pid 1, the API server pid 2. *)
Definition boot : main_state := initial_main_state 1 2.

(** The definitions file of the specification's scenario. *)
Definition one_service : main_env :=
  {| services_file :=
       Some ["https://example.test/app.git release deployapp"];
     join_exits := λ _, true |}.

(** The line has been deleted; the Supervisor will not be gone when the
    bounded wait is over. *)
Definition emptied_stubborn : main_env :=
  {| services_file := Some ["# no services"];
     join_exits := λ _, false |}.

(** The file itself has been deleted. *)
Definition file_missing : main_env :=
  {| services_file := None; join_exits := λ _, true |}.

Definition supervisor : Process :=
  {| proc_name := "deployapp";
     proc_target := ManageService Sample.cfg;
     proc_alive := true |}.

(** Supervisor 3 has registered and runs worker 4. *)
Definition serving : main_state :=
  {| shared :=
       {| manager_pid := 1;
          services :=
            {[ key := with_script_pid (Some 4)
                        (with_status running (initial_status Sample.cfg 3)) ]} |};
     managed_processes := {[ "_api_server" := 2; key := 3 ]};
     procs :=
       {[ 2 := {| proc_name := "APIServer"; proc_target := RunApiServer;
                  proc_alive := true |};
          3 := supervisor;
          4 := {| proc_name := "python"; proc_target := Worker "app.py";
                  proc_alive := true |} ]} |}.

(** The store knows the key, the table does not. *)
Definition untracked : main_state :=
  {| shared :=
       {| manager_pid := 1;
          services := {[ key := initial_status Sample.cfg 3 ]} |};
     managed_processes := {[ "_api_server" := 2 ]};
     procs :=
       {[ 2 := {| proc_name := "APIServer"; proc_target := RunApiServer;
                  proc_alive := true |};
          3 := supervisor ]} |}.

End SampleMain.

(** ** Vocabulary of the further properties *)

(** A line [parse_services_file] skips: blank, or a comment. *)
Definition is_ignored (line : string) : bool :=
  String.eqb (Py.strip line) EmptyString
  || Py.startswith "#" (Py.strip line).

(** The status values written in a trace, in order. *)
Definition statuses (t : list event) : list lifecycle :=
  omap (λ e, match e with EvStatus v => Some v | _ => None end) t.

(** Some character of [s] is not white space. *)
Fixpoint has_nonspace (s : string) : bool :=
  match s with
  | EmptyString => false
  | String c rest => negb (Py.is_space c) || has_nonspace rest
  end.

(** What stays true of a Supervisor's state from its first step on: the
    identity fields are those of its definition, the published worker pid is
    the worker it holds, [running] is shown only while a worker is held, and
    the log buffer is within its capacity. *)
Definition sup_inv (cfg : service_config) (self_pid : pid) (s : sup_state)
    : Prop :=
  url (service_status s) = cfg_url cfg
  ∧ branch (service_status s) = cfg_branch cfg
  ∧ repo_path (service_status s) = cfg_path cfg
  ∧ service_manager_pid (service_status s) = self_pid
  ∧ script_pid (service_status s) = child_process s
  ∧ (status (service_status s) = running → is_Some (child_process s))
  ∧ (length (logs (service_status s)) ≤ MAX_LOG_ENTRIES)%nat.


(** What the health check has replaced after the items [done]. *)
Record restart_inv (desired : gmap string service_config) (s : main_state)
    (done : list (string * pid)) (s3 : main_state) (t3 : list event)
    : Prop := {
  rs_dom : dom (procs s) ⊆ dom (procs s3);
  rs_procs_old : ∀ q, q ∈ dom (procs s) → procs s3 !! q = procs s !! q;
  rs_api :
    managed_processes s3 !! "_api_server"
    = managed_processes s !! "_api_server";
  rs_pending : ∀ k, k ∉ done.*1 →
    managed_processes s3 !! k = managed_processes s !! k;
  rs_restarted : ∀ k q P cfg,
    (k, q) ∈ done → k ≠ "_api_server" →
    procs s !! q = Some P → proc_alive P = false →
    desired !! k = Some cfg →
    ∃ q', EvStart k q' cfg ∈ t3 ∧ (q' ∉ dom (procs s))
          ∧ managed_processes s3 !! k = Some q'
          ∧ procs s3 !! q'
            = Some {| proc_name := proc_name P;
                      proc_target := ManageService cfg;
                      proc_alive := true |}
}.

(** ** main: the [finally] clause *)

(** Body of [for name, process in managed_processes.items()] *)
Definition stop_process (env : main_env) (item : string * pid) : Main unit :=
  let '(name, process) := item in
  s ← get;
  if is_alive s process then
    _ ← tell (EvRootLog INFO ("Stopping process for " +:+ name +:+ "..."));
    _ ← terminate process;
    join env process 5
  else mret tt.

Definition shutdown (env : main_env) : Main unit :=
  s ← get;
  _ ← for_each (map_to_list (managed_processes s)) (stop_process env);
  tell (EvRootLog INFO "--- AutoExec.py Manager Shut Down ---").

(** What the [finally] clause has done after the items [done]. *)
Record shutdown_inv (s : main_state) (done : list (string * pid))
    (s1 : main_state) (t1 : list event) : Prop := {
  sd_shared : shared s1 = shared s;
  sd_managed : managed_processes s1 = managed_processes s;
  sd_alive_mono : ∀ q, is_alive s1 q = true → is_alive s q = true;
  sd_alive_or_signalled : ∀ q,
    is_alive s q = true →
    is_alive s1 q = true ∨ [EvTerminate q; EvJoin q 5] `sublist_of` t1;
  sd_signalled : ∀ k q,
    (k, q) ∈ done → is_alive s q = true →
    [EvTerminate q; EvJoin q 5] `sublist_of` t1;
  sd_terminated : ∀ q,
    EvTerminate q ∈ t1 → is_alive s q = true ∧ ∃ k, (k, q) ∈ done;
  sd_untracked : ∀ q,
    (∀ k, (k, q) ∉ done) → procs s1 !! q = procs s !! q;
  sd_events : ∀ e, e ∈ t1 →
    log_event e ∨ (∃ q, e = EvTerminate q) ∨ (∃ q, e = EvJoin q 5)
}.


(** *** Sample inputs for the restart and shutdown paths *)

Module SampleRestart.

(** Supervisor 3 of [SampleMain.serving] has exited. *)
Definition crashed : main_state :=
  on_procs (alter mark_dead 3) SampleMain.serving.

(** Supervisor 3 exited before it had registered, and its definition has
    been deleted since. *)
Definition orphaned : main_state :=
  on_procs (alter mark_dead 3)
    (on_services (delete SampleMain.key)
       (on_managed (insert SampleMain.key 3) SampleMain.untracked)).

(** The API server of [SampleMain.serving] has exited. *)
Definition api_down : main_state :=
  on_procs (alter mark_dead 2) SampleMain.serving.

End SampleRestart.

(** * Properties *)

(** ** The log buffer *)

Section LogBuffer.

Variable cap : nat.

Lemma trim_drop (l : list string) : trim cap l = drop (length l - cap) l.
Proof.
  induction l as [|x l IH]; [done|].
  cbn [trim]. destruct (Nat.ltb_spec cap (length (x :: l))) as [Hlt|Hge].
  - rewrite IH. cbn [length] in *.
    replace (S (length l) - cap) with (S (length l - cap)) by lia.
    reflexivity.
  - replace (length (x :: l) - cap) with 0 by lia. reflexivity.
Qed.

Lemma trim_length (l : list string) :
  length (trim cap l) = length l `min` cap.
Proof. rewrite trim_drop, length_drop. lia. Qed.

Lemma trim_suffix (l : list string) : trim cap l `suffix_of` l.
Proof. rewrite trim_drop. apply suffix_drop. Qed.

Lemma trim_app_trim (l r : list string) :
  trim cap (trim cap l ++ r) = trim cap (l ++ r).
Proof.
  rewrite !trim_drop, !length_app, length_drop, !drop_app, length_drop.
  rewrite drop_drop. f_equal; f_equal; lia.
Qed.

(** Appending a batch of lines one by one is one append followed by one
    trim. *)
Lemma foldl_emit_trim (lines buf : list string) :
  foldl (emit_cap cap) (trim cap buf) lines = trim cap (buf ++ lines).
Proof.
  revert buf. induction lines as [|e lines IH]; intros buf.
  - by rewrite app_nil_r.
  - cbn [foldl]. unfold emit_cap at 2. rewrite trim_app_trim, IH.
    by rewrite <- (assoc_L (++)).
Qed.

Lemma foldl_emit_cons (lines buf : list string) (e : string) :
  foldl (emit_cap cap) buf (e :: lines) = trim cap (buf ++ e :: lines).
Proof.
  cbn [foldl]. unfold emit_cap at 2. rewrite foldl_emit_trim.
  by rewrite <- (assoc_L (++)).
Qed.

Lemma foldl_emit_overflow (lines buf : list string) :
  cap < length lines →
  foldl (emit_cap cap) buf lines = drop (length lines - cap) lines.
Proof.
  intros Hlen. destruct lines as [|e lines]; [cbn in Hlen; lia|].
  rewrite foldl_emit_cons, trim_drop, length_app, drop_app.
  rewrite (drop_ge buf) by lia. cbn [app]. f_equal. lia.
Qed.

End LogBuffer.

(** C8. Whatever the buffer held, once more than [MAX_LOG_ENTRIES] lines
    have been appended it holds exactly [MAX_LOG_ENTRIES] entries: the last
    ones appended, oldest first. Every single [emit] keeps a suffix of the
    list it appended to, so eviction is from the front only. *)
Theorem log_buffer_keeps_most_recent (buf lines : list string) :
  MAX_LOG_ENTRIES < length lines →
  let kept := foldl emit buf lines in
  length kept = MAX_LOG_ENTRIES
  ∧ kept = drop (length lines - MAX_LOG_ENTRIES) lines
  ∧ ∀ b e, emit b e `suffix_of` (b ++ [e]).
Proof.
  intros Hlen kept. unfold kept, emit.
  rewrite foldl_emit_overflow by done. split_and!.
  - rewrite length_drop. lia.
  - done.
  - intros b e. apply trim_suffix.
Qed.

Lemma log_buffer_keeps_most_recent_witness :
  let lines := (λ n : nat, pretty n) <$> seq 1 23 in
  let kept := foldl emit ["old"] lines in
  length kept = MAX_LOG_ENTRIES
  ∧ kept = drop (length lines - MAX_LOG_ENTRIES) lines
  ∧ ∀ b e, emit b e `suffix_of` (b ++ [e]).
Proof.
  apply (log_buffer_keeps_most_recent ["old"]
           ((λ n : nat, pretty n) <$> seq 1 23)).
  vm_compute. lia.
Defined.

(** ** The status API *)

(** No value of a status record is a class, so the test
    [isinstance(v, list.__class__)] never fires and the comprehension
    copies nothing: the log proxy goes to the encoder as it is. *)
Lemma copy_service_id (items : list (string * pyval)) :
  copy_service items = items.
Proof.
  unfold copy_service. induction items as [|[k v] items IH]; [done|].
  cbn [fmap list_fmap]. fold (copy_service items) in *.
  f_equal; [|exact IH]. by destruct v.
Qed.

Lemma do_GET_not_found (shared : shared_status) (path : string) :
  path ≠ "/status" →
  do_GET shared path
  = {| resp_code := 404; resp_headers := [];
       resp_body := WroteBytes "Not Found" |}.
Proof.
  intros Hne. unfold do_GET.
  destruct (String.eqb_spec path "/status"); [done|reflexivity].
Qed.

(** Whenever the store holds a service, the encoder meets the log proxy and
    the request ends in [TypeError]. *)
Lemma do_GET_status_nonempty_raises (shared : shared_status) :
  services shared ≠ ∅ →
  resp_body (do_GET shared "/status")
  = Raised (Py.TypeError "Object of type ListProxy is not JSON serializable").
Proof.
  intros Hne. unfold do_GET. cbn [String.eqb Ascii.eqb Bool.eqb resp_body].
  destruct (map_to_list (services shared)) as [|[k v] rest] eqn:Hl.
  { by apply map_to_list_empty_iff in Hl. }
  unfold build_status_copy. rewrite Hl. cbn [fmap list_fmap fst snd].
  rewrite copy_service_id. unfold service_items.
  by destruct (script_to_run v), (script_pid v).
Qed.

(** C6. With one service in the store, exactly as [manage_service]
    registers it, the status request sends its 200 header and then fails in
    [json.dumps]: no document is written. The log buffer was never turned
    into a list. *)
Theorem status_query_with_a_service_raises :
  let cfg := ServiceConfig "https://example.test/app.git" "release"
               "/srv/repos/deployapp" in
  let shared := {| manager_pid := 100;
                   services := {[ cfg_path cfg := initial_status cfg 101 ]} |} in
  resp_code (do_GET shared "/status") = 200%Z
  ∧ resp_body (do_GET shared "/status")
    = Raised (Py.TypeError "Object of type ListProxy is not JSON serializable")
  ∧ copy_service (service_items (initial_status cfg 101)) !! 7
    = Some ("logs", PyListProxy []).
Proof. vm_compute. done. Qed.

(** ** The Supervisor's polling loop *)

Lemma run_command_eq {S} (command : list string) (cwd : string)
    (res : subprocess_result) (s : S) :
  run_command command cwd res s
  = (Next (output_of res), s, EvRun command cwd :: error_log command res).
Proof. by destruct res. Qed.

Lemma error_log_only_logs command res e :
  e ∈ error_log command res → ∃ msg, e = EvRootLog ERROR msg.
Proof.
  destruct res; cbn; intros H.
  - by apply elem_of_nil in H.
  - apply list_elem_of_singleton in H. eauto.
  - apply list_elem_of_singleton in H. eauto.
Qed.

Lemma error_log_failure command res :
  output_of res = None → ∃ msg, error_log command res = [EvRootLog ERROR msg].
Proof. destruct res; cbn; intros; simplify_eq; eauto. Qed.


Lemma guarded_app P Q l t :
  (∀ e, e ∈ l → ¬ Q e) → guarded P Q t → guarded P Q (l ++ t).
Proof.
  induction l as [|x l IH]; intros Hl Ht; [done|].
  cbn [app]. apply guarded_skip.
  - apply Hl. left.
  - apply IH; [|done]. intros e He. apply Hl. by right.
Qed.

Lemma guarded_preceded_by P Q t : guarded P Q t → preceded_by P Q t.
Proof.
  induction 1 as [|e t HP HQ|e t HQ _ IH]; intros i x Hi Hx.
  - by rewrite lookup_nil in Hi.
  - destruct i as [|i]; simplify_eq/=; [done|].
    exists 0, e. split_and!; [lia|done..].
  - destruct i as [|i]; simplify_eq/=; [done|].
    destruct (IH i x Hi Hx) as (j & e' & Hj & He' & HP).
    exists (S j), e'. split_and!; [lia|done..].
Qed.

Lemma error_log_no_popen command res e :
  e ∈ error_log command res → ¬ is_popen e.
Proof.
  intros [msg ->]%error_log_only_logs (script & cwd & [=]).
Qed.

(** Symbolic execution of one pass of the loop. *)
Ltac sup_unfold :=
  cbv [loop_iteration loop_body launch on_exception manage_service_init
       git_dir_exists clone_result
       set_status set_script_pid set_script_to_run set_child service_log
       modify tell get sleep continue_ return_ raise on_status
       mbind mret M_mbind M_bind M_mret M_ret fst snd
       child_process service_status
       fetch_result local_result remote_result poll pull_result
       autoexec_exists autoexec_read script_exists popen negb
       update_available
       with_status with_script_pid with_script_to_run with_logs
       status url branch repo_path script_to_run service_manager_pid
       script_pid logs];
  cbn [app].

Ltac sup_case :=
  match goal with
  | |- context [run_command ?c ?d ?r ?s] => rewrite (run_command_eq c d r s)
  | H : has_updates ?a ?b = _ |- context [has_updates ?a ?b] => rewrite H
  | H : output_of ?r = _ |- context [match output_of ?r with _ => _ end] =>
      rewrite H
  | |- context [if has_updates ?a ?b then _ else _] =>
      destruct (has_updates a b) eqn:?
  | |- context [match output_of ?r with _ => _ end] =>
      destruct (output_of r) eqn:?
  | |- context [if String.eqb ?a ?b then _ else _] =>
      destruct (String.eqb a b) eqn:?
  | |- context [match ?x with _ => _ end] => is_var x; destruct x
  end.

Ltac sup_run :=
  repeat (sup_unfold; try sup_case);
  repeat (rewrite <- !app_assoc; cbn [app]).

Ltac in_list :=
  repeat first [apply list_elem_of_here | apply list_elem_of_further
               | (apply elem_of_app; right)].

Ltac not_in_list H :=
  repeat first
    [ apply elem_of_cons in H as [H|H]; [discriminate H|]
    | apply elem_of_app in H as [H|H];
      [apply error_log_only_logs in H as [? H]; discriminate H|] ];
  apply elem_of_nil in H; exact H.

Ltac sublist_solve :=
  repeat first [apply sublist_nil_l | apply sublist_skip | apply sublist_cons
               | apply sublist_inserts_l].

Lemma last_cons_app {A} (x y : A) (l1 l2 : list A) :
  last (x :: l1 ++ y :: l2) = last (y :: l2).
Proof. apply (last_app_cons (x :: l1)). Qed.

Ltac last_solve :=
  repeat first [rewrite last_cons_cons | rewrite last_cons_app
               | rewrite last_app_cons];
  reflexivity.

Ltac guarded_solve :=
  repeat first
    [ apply guarded_nil
    | apply guarded_hit; [reflexivity | intros (? & ? & [=])]
    | apply guarded_skip; [intros (? & ? & [=])|]
    | apply guarded_app; [apply error_log_no_popen|] ].

(** A pass of the loop ends in the sleep or in a [continue]; it never
    returns and lets no exception out. *)
Lemma loop_iteration_flow cfg env s :
  (loop_iteration cfg env s).1.1 = Next tt
  ∨ (loop_iteration cfg env s).1.1 = Continue.
Proof.
  destruct env as [fr lr rr po pu ae ar se pp], s as [[] ch].
  sup_run; auto.
Qed.

Lemma for_each_flow {S A} (xs : list A) (body : A → M S unit) (s : S) :
  (∀ x s, (body x s).1.1 = Next tt ∨ (body x s).1.1 = Continue) →
  (for_each xs body s).1.1 = Next tt.
Proof.
  intros Hbody. revert s. induction xs as [|x xs IH]; intros s; [done|].
  cbn [for_each]. specialize (Hbody x s).
  destruct (body x s) as [[r s1] t1]. cbn in Hbody.
  specialize (IH s1). destruct (for_each xs body s1) as [[r2 s2] t2].
  by destruct Hbody as [-> | ->].
Qed.




(** ** The Supervisor from start to exit *)

Lemma manage_service_init_eq cfg ienv s :
  ∃ s' t,
    manage_service_init cfg ienv s
    = (if negb (git_dir_exists ienv)
          && bool_decide (output_of (clone_result ienv) = None)
       then Return else Next tt, s', t)
    ∧ (git_dir_exists ienv = false → output_of (clone_result ienv) = None →
         status (service_status s') = failed
         ∧ last t = Some (EvStatus failed)
         ∧ ∀ i v, t !! i = Some (EvStatus v) → v = cloning ∨ v = failed).
Proof.
  destruct ienv as [gd cr], s as [[] ch].
  sup_run; cbn [negb andb]; rewrite ?Heqo; cbn [bool_decide decide_rel].
  - eexists _, _. split; [reflexivity|]. intros [=].
  - eexists _, _. split; [reflexivity|]. intros _ [=].
  - eexists _, _. split; [reflexivity|]. intros _ _.
    destruct (error_log_failure
                ["git"; "clone"; "--branch"; cfg_branch cfg; cfg_url cfg; "."]
                cr Heqo) as [msg ->].
    cbn [app]. split_and!; [done..|].
    intros i v Hi. do 7 (destruct i as [|i]; simplify_eq/=; auto).
Qed.

(** A pass raises only out of the launch step, where no worker is held. *)
Lemma loop_body_raises_without_worker cfg env s :
  match loop_body cfg env s with
  | (Raise _, s1, _) => child_process s1 = None
  | _ => True
  end.
Proof.
  destruct env as [fr lr rr po pu ae ar se pp], s as [[] ch].
  sup_run; done.
Qed.

(** The [except] clause, step by step. *)
Lemma on_exception_eq e s :
  on_exception e s
  = (Next tt,
     on_status
       (λ r, with_status failed
               (with_logs
                  (emit (logs r)
                     (format_record ERROR
                        ("Unexpected error in service manager: "
                         +:+ exn_str e))) r)) s,
     match child_process s with
     | Some child => [EvChildTerminate child]
     | None => []
     end ++ [EvStatus failed; EvSleep GIT_CHECK_INTERVAL]).
Proof. by destruct s as [[] [c|]]. Qed.

(** C3 (as the program has it). [manage_service] returns in one case only:
    the initial clone failed. Then [failed] is the last thing it writes, and
    no pass of the polling loop is run. An exception inside a pass of the
    loop is caught: the handler puts an error record naming the exception
    into the log buffer, sends [terminate()] to the worker if one is held
    and keeps its handle, writes [failed], sleeps one interval, and the
    Supervisor remains in its loop. A pass raises only where no worker is
    held, so in such a pass nothing is signalled. *)
Theorem failed_is_terminal_after_clone_failure_only cfg self_pid ienv envs :
  let '(r, s', t) := manage_service cfg self_pid ienv envs in
  (r = Return ↔
     git_dir_exists ienv = false ∧ output_of (clone_result ienv) = None)
  ∧ (r = Return →
       status (service_status s') = failed
       ∧ last t = Some (EvStatus failed)
       ∧ (∀ i v, t !! i = Some (EvStatus v) → v = cloning ∨ v = failed)
       ∧ manage_service cfg self_pid ienv [] = (r, s', t))
  ∧ (r ≠ Return → r = Next tt)
  ∧ (∀ env s e s1 t1,
       loop_body cfg env s = (Raise e, s1, t1) →
       child_process s1 = None
       ∧ ∃ s2,
           loop_iteration cfg env s
           = (Next tt, s2,
              t1 ++ [EvStatus failed; EvSleep GIT_CHECK_INTERVAL])
           ∧ logs (service_status s2)
             = emit (logs (service_status s1))
                 (format_record ERROR
                    ("Unexpected error in service manager: " +:+ exn_str e))
           ∧ status (service_status s2) = failed
           ∧ child_process s2 = None)
  ∧ (∀ e s c,
       child_process s = Some c →
       ∃ s2,
         on_exception e s
         = (Next tt, s2,
            [EvChildTerminate c; EvStatus failed;
             EvSleep GIT_CHECK_INTERVAL])
         ∧ logs (service_status s2)
           = emit (logs (service_status s))
               (format_record ERROR
                  ("Unexpected error in service manager: " +:+ exn_str e))
         ∧ status (service_status s2) = failed
         ∧ child_process s2 = Some c).
Proof.
  assert (Hexn : ∀ env s e s1 t1,
            loop_body cfg env s = (Raise e, s1, t1) →
            child_process s1 = None
            ∧ ∃ s2,
                loop_iteration cfg env s
                = (Next tt, s2,
                   t1 ++ [EvStatus failed; EvSleep GIT_CHECK_INTERVAL])
                ∧ logs (service_status s2)
                  = emit (logs (service_status s1))
                      (format_record ERROR
                         ("Unexpected error in service manager: "
                          +:+ exn_str e))
                ∧ status (service_status s2) = failed
                ∧ child_process s2 = None).
  { intros env s e s1 t1 Hbody.
    pose proof (loop_body_raises_without_worker cfg env s) as Hnone.
    rewrite Hbody in Hnone. split; [done|].
    unfold loop_iteration. rewrite Hbody, on_exception_eq, Hnone.
    eexists. split; [reflexivity|]. by destruct s1 as [[] ch]. }
  assert (Hhandler : ∀ e s c,
            child_process s = Some c →
            ∃ s2,
              on_exception e s
              = (Next tt, s2,
                 [EvChildTerminate c; EvStatus failed;
                  EvSleep GIT_CHECK_INTERVAL])
              ∧ logs (service_status s2)
                = emit (logs (service_status s))
                    (format_record ERROR
                       ("Unexpected error in service manager: "
                        +:+ exn_str e))
              ∧ status (service_status s2) = failed
              ∧ child_process s2 = Some c).
  { intros e s c Hc. rewrite on_exception_eq, Hc.
    eexists. split; [reflexivity|]. by destruct s as [[] ch]. }
  unfold manage_service.
  set (s0 := {| service_status := initial_status cfg self_pid;
                child_process := None |}).
  cbv [mbind M_mbind M_bind].
  destruct (manage_service_init_eq cfg ienv s0) as (s1 & t1 & -> & Hfail).
  destruct (negb (git_dir_exists ienv)
            && bool_decide (output_of (clone_result ienv) = None)) eqn:Hc.
  - apply andb_true_iff in Hc as [Hgd Hcl].
    apply negb_true_iff in Hgd. apply bool_decide_eq_true in Hcl.
    split_and!.
    + done.
    + intros _. destruct (Hfail Hgd Hcl) as (? & ? & ?). done.
    + done.
    + exact Hexn.
    + exact Hhandler.
  - pose proof (for_each_flow envs (loop_iteration cfg) s1
                  (loop_iteration_flow cfg)) as Hflow.
    destruct (for_each envs (loop_iteration cfg) s1) as [[r s2] t2].
    cbn in Hflow. subst r. split_and!.
    + split; [done|]. intros [Hgd Hcl]. rewrite Hgd in Hc.
      by rewrite bool_decide_eq_true_2 in Hc.
    + done.
    + done.
    + exact Hexn.
    + exact Hhandler.
Qed.

Lemma failed_is_terminal_after_clone_failure_only_witness :
  (git_dir_exists Sample.clone_fails = false
   ∧ output_of (clone_result Sample.clone_fails) = None)
  ∧ (manage_service Sample.cfg 101 Sample.clone_fails [Sample.quiet]).1.1
    = Return
  ∧ (∃ s1 t1,
       loop_body Sample.cfg Sample.popen_raises Sample.fresh_sup
       = (Raise (Py.OSError "Permission denied"), s1, t1)
       ∧ ∃ s2,
           loop_iteration Sample.cfg Sample.popen_raises Sample.fresh_sup
           = (Next tt, s2,
              t1 ++ [EvStatus failed; EvSleep GIT_CHECK_INTERVAL])
           ∧ status (service_status s2) = failed)
  ∧ child_process Sample.with_worker = Some 7
  ∧ (on_exception (Py.OSError "Broken pipe") Sample.with_worker).2
    = [EvChildTerminate 7; EvStatus failed; EvSleep GIT_CHECK_INTERVAL].
Proof.
  pose proof (failed_is_terminal_after_clone_failure_only
                Sample.cfg 101 Sample.clone_fails [Sample.quiet]) as H.
  destruct (manage_service Sample.cfg 101 Sample.clone_fails [Sample.quiet])
    as [[r s'] t].
  destruct H as (Hret & _ & _ & Hexn & Hhandler).
  split; [by split|]. split; [by apply Hret|]. split.
  - destruct (loop_body Sample.cfg Sample.popen_raises Sample.fresh_sup)
      as [[rb s1] t1] eqn:Hb.
    assert (rb = Raise (Py.OSError "Permission denied")) as ->.
    { revert Hb. vm_compute. by intros [= <- _ _]. }
    exists s1, t1. split; [done|].
    destruct (Hexn _ _ _ _ _ Hb) as (_ & s2 & H1 & _ & H2 & _).
    by exists s2.
  - split; [reflexivity|].
    destruct (Hhandler (Py.OSError "Broken pipe") Sample.with_worker 7
                eq_refl) as (s2 & -> & _).
    reflexivity.
Defined.

(** C3, counterexample: the checkout is there, the first pass fails to start
    the worker ([Popen] raises) and writes [failed]; the second pass starts
    it and writes [running]. The Supervisor never returned. *)
Lemma failed_is_not_terminal_in_the_loop :
  ¬ spec_failed_is_terminal Sample.cfg 101 Sample.checkout_present
      [Sample.popen_raises; Sample.quiet].
Proof.
  unfold spec_failed_is_terminal.
  destruct (manage_service _ _ _ _) as [[r s'] t] eqn:Hrun.
  vm_compute in Hrun. injection Hrun as <- _ <-.
  intros H. destruct (H 11 eq_refl) as [Hr _]. discriminate Hr.
Qed.

(** The trace of that run: [failed] in the first pass, [running] in the
    second, and the function has not returned. *)
Lemma failed_then_running :
  let '(r, _, t) :=
    manage_service Sample.cfg 101 Sample.checkout_present
      [Sample.popen_raises; Sample.quiet] in
  r = Next tt
  ∧ t !! 11 = Some (EvStatus failed)
  ∧ t !! 21 = Some (EvStatus running).
Proof. vm_compute. done. Qed.

(** ** Updates and crashes *)

(** C4. In a pass that detects an update: a worker that is running is
    terminated and waited on before the pull; the pull is always issued;
    every launch comes after the pull, and only if the pull succeeded; when
    the pull fails the pass ends in the sleep and a [continue], with no
    launch and no worker held. Whatever worker is held at the end of the
    pass was launched in this pass. *)
Theorem update_terminates_pulls_then_launches cfg env s :
  update_available env = true →
  let '(r, s', t) := loop_iteration cfg env s in
  (∀ c, child_process s = Some c → poll env = None →
     [EvChildTerminate c; EvChildWait c; EvRun (pull_cmd cfg) (cfg_path cfg)]
       `sublist_of` t)
  ∧ EvRun (pull_cmd cfg) (cfg_path cfg) ∈ t
  ∧ preceded_by (is_pull cfg) is_popen t
  ∧ (∀ script cwd, EvPopen script cwd ∈ t →
       output_of (pull_result env) ≠ None)
  ∧ (output_of (pull_result env) = None →
       r = Continue
       ∧ last t = Some (EvSleep GIT_CHECK_INTERVAL)
       ∧ (∀ script cwd, ¬ EvPopen script cwd ∈ t)
       ∧ ¬ launch_attempted cfg t
       ∧ child_process s' = None)
  ∧ (∀ c', child_process s' = Some c' →
       popen env = inl c' ∧ ∃ script, EvPopen script (cfg_path cfg) ∈ t).
Proof.
  intros Hu.
  destruct env as [fr lr rr po pu ae ar se pp], s as [[] ch].
  cbv [update_available local_result remote_result] in Hu.
  sup_run.
  all: split_and!;
    [ intros c Hc Hp; simplify_eq; unfold pull_cmd; sublist_solve
    | unfold pull_cmd; in_list
    | apply guarded_preceded_by; unfold is_pull, pull_cmd; guarded_solve
    | intros script cwd Hin Hn;
      first [congruence | exfalso; not_in_list Hin]
    | intros Hn;
      first [ congruence
            | split_and!;
              [ reflexivity | last_solve
              | intros ?? Hin; not_in_list Hin
              | unfold launch_attempted, autoexec_path; intros Hin;
                not_in_list Hin
              | reflexivity ] ]
    | intros c' Hc';
      first [ discriminate Hc'
            | simplify_eq; split; [reflexivity|eexists; in_list] ] ].
Qed.

Lemma update_terminates_pulls_then_launches_witness :
  update_available Sample.update_ok = true
  ∧ ([EvChildTerminate 7; EvChildWait 7;
      EvRun (pull_cmd Sample.cfg) (cfg_path Sample.cfg)]
       `sublist_of`
       (loop_iteration Sample.cfg Sample.update_ok Sample.with_worker).2)
  ∧ preceded_by (is_pull Sample.cfg) is_popen
      (loop_iteration Sample.cfg Sample.update_ok Sample.with_worker).2.
Proof.
  pose proof (update_terminates_pulls_then_launches
                Sample.cfg Sample.update_ok Sample.with_worker eq_refl) as H.
  destruct (loop_iteration Sample.cfg Sample.update_ok Sample.with_worker)
    as [[r s'] t].
  destruct H as (Hterm & _ & Hord & _).
  split; [reflexivity|]. split; [by apply Hterm|exact Hord].
Defined.

(** C5 (as the program has it). A worker that exited on its own is noticed
    in the next pass: the status becomes [crashed] and the recorded pid is
    cleared. The launch logic is entered in that same pass, and with
    everything in place the worker is running again at its end, unless the
    pass also detects an update and the pull fails: then the pass ends in
    the sleep and a [continue], with nothing launched and no worker held. *)
Theorem crash_is_noticed_and_worker_relaunched cfg env s c rc :
  child_process s = Some c → poll env = Some rc →
  let '(r, s', t) := loop_iteration cfg env s in
  let pull_failed :=
    update_available env = true ∧ output_of (pull_result env) = None in
  ([EvStatus crashed; EvScriptPid None] `sublist_of` t)
  ∧ (pull_failed →
       r = Continue
       ∧ ¬ launch_attempted cfg t
       ∧ child_process s' = None
       ∧ script_pid (service_status s') = None
       ∧ last t = Some (EvSleep GIT_CHECK_INTERVAL))
  ∧ (¬ pull_failed →
       [EvStatus crashed; EvScriptPid None; EvExists (autoexec_path cfg)]
         `sublist_of` t)
  ∧ (¬ pull_failed →
     ∀ content p,
       autoexec_exists env = true → autoexec_read env = inl content →
       Py.strip content ≠ EmptyString → script_exists env = true →
       popen env = inl p →
       child_process s' = Some p
       ∧ status (service_status s') = running
       ∧ script_pid (service_status s') = Some p
       ∧ EvPopen (Py.strip content) (cfg_path cfg) ∈ t).
Proof.
  intros Hc Hp.
  destruct env as [fr lr rr po pu ae ar se pp], s as [[] ch].
  cbn [child_process poll] in Hc, Hp. subst ch po.
  sup_run.
  all: split_and!;
    [ sublist_solve
    | intros [Hua Hpf];
      first [ congruence
            | split_and!;
              [ reflexivity
              | unfold launch_attempted, autoexec_path; intros Hin;
                not_in_list Hin
              | reflexivity | reflexivity | last_solve ] ]
    | intros Hn;
      first [ exfalso; apply Hn; by split
            | unfold autoexec_path; sublist_solve ]
    | intros Hn content q Hae Har Hne Hse Hpp;
      first [ exfalso; apply Hn; by split
            | discriminate
            | simplify_eq;
              first [ match goal with
                      | H : (Py.strip _ =? EmptyString) = true |- _ =>
                          by apply String.eqb_eq in H
                      end
                    | split_and!; [reflexivity..|in_list] ] ] ].
Qed.

Lemma crash_is_noticed_and_worker_relaunched_witness :
  child_process Sample.with_worker = Some 7
  ∧ poll Sample.crash_only = Some 1%Z
  ∧ ([EvStatus crashed; EvScriptPid None;
      EvExists (autoexec_path Sample.cfg)]
       `sublist_of`
       (loop_iteration Sample.cfg Sample.crash_only Sample.with_worker).2)
  ∧ child_process
      (loop_iteration Sample.cfg Sample.crash_only Sample.with_worker).1.2
    = Some 8.
Proof.
  pose proof (crash_is_noticed_and_worker_relaunched
                Sample.cfg Sample.crash_only Sample.with_worker 7 1%Z
                eq_refl eq_refl) as H.
  destruct (loop_iteration Sample.cfg Sample.crash_only Sample.with_worker)
    as [[r s'] t].
  destruct H as (_ & _ & Hlaunch & Hrun).
  assert (Hn : ¬ (update_available Sample.crash_only = true
                  ∧ output_of (pull_result Sample.crash_only) = None))
    by (intros [[=] _]).
  split; [reflexivity|]. split; [reflexivity|].
  split; [by apply Hlaunch|].
  by destruct (Hrun Hn "app.py" 8 eq_refl eq_refl) as (? & _).
Defined.

(** C5, counterexample: the worker has exited, upstream has moved and the
    pull fails. The pass reports the crash and stops at the failed pull; the
    launch logic is not entered. *)
Lemma crash_without_relaunch_attempt :
  ¬ spec_crash_recovery Sample.cfg Sample.crash_update_pull_fails
      Sample.with_worker.
Proof.
  intros H. destruct H as (_ & _ & Hlaunch); [by eexists..|].
  unfold launch_attempted in Hlaunch. vm_compute in Hlaunch.
  not_in_list Hlaunch.
Qed.

(** ** The reconciliation loop *)

Ltac main_unfold :=
  cbv [stop_removed start_new health_check start getitem terminate join
       modify tell get raise continue_ sleep
       mbind mret M_mbind M_bind M_mret M_ret fst snd
       on_services on_managed on_procs
       shared managed_processes procs services manager_pid];
  cbn [app].

Lemma parse_services_file_eq {S} lib file (s : S) :
  ∃ t, parse_services_file lib file s = (Next (desired_of lib file), s, t)
       ∧ ∀ e, e ∈ t → ∃ lv msg, e = EvRootLog lv msg.
Proof.
  destruct file as [lines|]; eexists; (split; [reflexivity|]); intros e He.
  - by apply elem_of_nil in He.
  - apply list_elem_of_singleton in He. eauto.
Qed.

(** One removal. *)
Lemma stop_removed_eq env path s :
  ∃ s' t,
    stop_removed env path s = (Next tt, s', t)
    ∧ services (shared s') = delete path (services (shared s))
    ∧ managed_processes s' = delete path (managed_processes s)
    ∧ procs s' =
        match managed_processes s !! path with
        | Some q =>
            if is_alive s q && join_exits env q
            then alter mark_dead q (procs s) else procs s
        | None => procs s
        end
    ∧ t = EvRootLog INFO
            ("Service for " +:+ path +:+ " removed from config. Stopping...")
          :: match managed_processes s !! path with
             | Some q =>
                 if is_alive s q then [EvTerminate q; EvJoin q 5] else []
             | None => []
             end
          ++ (if decide (path ∈ dom (services (shared s)))
              then [EvDelEntry path] else [])
          ++ [EvRootLog INFO ("Process for " +:+ path +:+ " stopped.")].
Proof.
  destruct s as [[mp sv] mg pr]. main_unfold.
  destruct (mg !! path) as [q|] eqn:Hq; main_unfold.
  - unfold is_alive; cbn [on_managed on_procs procs].
    destruct (pr !! q) as [P|] eqn:HP; [destruct (proc_alive P) eqn:Ha|];
      main_unfold; [destruct (join_exits env q); main_unfold|..].
    all: destruct (decide (path ∈ dom sv)) as [Hin|Hnin]; main_unfold.
    all: eexists _, _; split; [reflexivity|]; cbn [andb].
    all: split_and!; try reflexivity.
    all: symmetry; apply delete_id; by apply not_elem_of_dom.
  - destruct (decide (path ∈ dom sv)) as [Hin|Hnin]; main_unfold.
    all: eexists _, _; split; [reflexivity|].
    all: split_and!; try reflexivity.
    all: try (symmetry; apply delete_id; by apply not_elem_of_dom).
    all: symmetry; by apply delete_id.
Qed.

(** Invariants of a [for] loop. [I done s t] speaks of the elements handled
    so far, the state and the trace; it has to survive every run of the
    body, whatever its outcome. *)
Lemma for_each_inv_gen {S A} (I : list A → S → list event → Prop)
    (body : A → M S unit) (full : list A) :
  (∀ done x s t r s' t',
     (done ++ [x]) `prefix_of` full → I done s t →
     body x s = (r, s', t') → I (done ++ [x]) s' (t ++ t')) →
  ∀ xs pre s t,
    pre ++ xs = full → I pre s t →
    ∃ done,
      done `prefix_of` full
      ∧ I done (for_each xs body s).1.2 (t ++ (for_each xs body s).2)
      ∧ ((for_each xs body s).1.1 = Next tt → done = full)
      ∧ (for_each xs body s).1.1 ≠ Continue.
Proof.
  intros Hstep. induction xs as [|x xs IH]; intros pre s t Hfull HI.
  - exists pre. rewrite (right_id_L [] (++)) in Hfull. subst full.
    cbn [for_each mret M_mret M_ret fst snd].
    rewrite (right_id_L [] (++)). done.
  - cbn [for_each].
    destruct (body x s) as [[r s1] t1] eqn:Hbody.
    assert (Hpre : (pre ++ [x]) `prefix_of` full).
    { exists xs. by rewrite <- Hfull, <- (assoc_L (++)). }
    pose proof (Hstep pre x s t r s1 t1 Hpre HI Hbody) as HI1.
    assert (Hfull1 : (pre ++ [x]) ++ xs = full).
    { by rewrite <- (assoc_L (++)). }
    destruct (IH (pre ++ [x]) s1 (t ++ t1) Hfull1 HI1)
      as (done & Hdone & HI2 & Hnext & Hcont).
    destruct r as [[]| | |e].
    + destruct (for_each xs body s1) as [[r2 s2] t2]. cbn in *.
      exists done. rewrite (assoc_L (++)). done.
    + destruct (for_each xs body s1) as [[r2 s2] t2]. cbn in *.
      exists done. rewrite (assoc_L (++)). done.
    + exists (pre ++ [x]). cbn. done.
    + exists (pre ++ [x]). cbn. done.
Qed.

Lemma for_each_inv {S A} (I : list A → S → list event → Prop)
    (body : A → M S unit) (xs : list A) (s : S) :
  I [] s [] →
  (∀ done x s t r s' t',
     (done ++ [x]) `prefix_of` xs → I done s t →
     body x s = (r, s', t') → I (done ++ [x]) s' (t ++ t')) →
  ∃ done,
    done `prefix_of` xs
    ∧ I done (for_each xs body s).1.2 (for_each xs body s).2
    ∧ ((for_each xs body s).1.1 = Next tt → done = xs)
    ∧ (for_each xs body s).1.1 ≠ Continue.
Proof.
  intros H0 Hstep.
  by apply (for_each_inv_gen I body xs Hstep xs [] s []).
Qed.

(** What every step keeps, the whole keeps. *)
Lemma bind_preserves {S A B} (P : S → Prop) (m : M S A) (f : A → M S B)
    (s : S) :
  P (m s).1.2 →
  (∀ a s1, P s1 → P (f a s1).1.2) →
  P ((m ≫= f) s).1.2.
Proof.
  intros Hm Hf. cbv [mbind M_mbind M_bind].
  destruct (m s) as [[[a| | |e] s1] t1]; cbn in *; try done.
  specialize (Hf a s1 Hm). by destruct (f a s1) as [[r2 s2] t2].
Qed.

Lemma for_each_preserves {S A} (P : S → Prop) (body : A → M S unit)
    (xs : list A) (s : S) :
  (∀ x s1, P s1 → P (body x s1).1.2) →
  P s → P (for_each xs body s).1.2.
Proof.
  intros Hbody. revert s. induction xs as [|x xs IH]; intros s Hs; [done|].
  cbn [for_each]. specialize (Hbody x s Hs).
  destruct (body x s) as [[[[]| | |e] s1] t1]; cbn in *; try done.
  - specialize (IH s1 Hbody).
    by destruct (for_each xs body s1) as [[r2 s2] t2].
  - specialize (IH s1 Hbody).
    by destruct (for_each xs body s1) as [[r2 s2] t2].
Qed.

(** A loop whose body always runs to its end does so too. *)
Lemma for_each_next {S A} (body : A → M S unit) (xs : list A) (s : S) :
  (∀ x s, x ∈ xs → (body x s).1.1 = Next tt) →
  (for_each xs body s).1.1 = Next tt.
Proof.
  revert s. induction xs as [|x xs IH]; intros s Hbody; [done|].
  cbn [for_each]. pose proof (Hbody x s (list_elem_of_here _ _)) as Hx.
  destruct (body x s) as [[r s1] t1]. cbn in Hx. subst r.
  assert (Hrest : ∀ y s, y ∈ xs → (body y s).1.1 = Next tt).
  { intros y s' Hy. apply Hbody. by right. }
  specialize (IH s1 Hrest).
  by destruct (for_each xs body s1) as [[r2 s2] t2].
Qed.

Lemma is_alive_alter_dead s q q' :
  is_alive (on_procs (alter mark_dead q) s) q'
  = if decide (q = q') then false else is_alive s q'.
Proof.
  unfold is_alive, on_procs; cbn [procs]. rewrite lookup_alter.
  case_decide; [|done]. subst. by destruct (procs s !! q').
Qed.

(** One removal, in terms of what it changes. *)
Lemma stop_removed_facts env x s :
  ∃ s' t,
    stop_removed env x s = (Next tt, s', t)
    ∧ services (shared s') = delete x (services (shared s))
    ∧ managed_processes s' = delete x (managed_processes s)
    ∧ dom (procs s') = dom (procs s)
    ∧ (∀ q, is_alive s' q = true → is_alive s q = true)
    ∧ (∀ q, managed_processes s !! x ≠ Some q → procs s' !! q = procs s !! q)
    ∧ (∀ q, is_alive s q = true → is_alive s' q = false →
         managed_processes s !! x = Some q)
    ∧ (∀ q, managed_processes s !! x = Some q → is_alive s q = true →
         [EvTerminate q; EvJoin q 5] `sublist_of` t)
    ∧ (∀ q, EvTerminate q ∈ t → managed_processes s !! x = Some q)
    ∧ (∀ e, e ∈ t →
         (∃ lv msg, e = EvRootLog lv msg) ∨ (∃ q, e = EvTerminate q)
         ∨ (∃ q, e = EvJoin q 5) ∨ (∃ k, e = EvDelEntry k)).
Proof.
  destruct (stop_removed_eq env x s) as (s' & t & Heq & Hsv & Hmg & Hpr & Ht).
  exists s', t. split; [done|]. split; [done|]. split; [done|].
  assert (Hprocs : procs s' = procs s
                   ∨ ∃ q, managed_processes s !! x = Some q
                          ∧ is_alive s q = true
                          ∧ procs s' = alter mark_dead q (procs s)).
  { rewrite Hpr. destruct (managed_processes s !! x) as [q|]; [|by left].
    destruct (is_alive s q) eqn:Ha; [|by left].
    destruct (join_exits env q); [|by left]. right. by exists q. }
  assert (Halive : ∀ q, is_alive s' q
                        = match procs s' !! q with
                          | Some P => proc_alive P | None => false end)
    by done.
  split_and!.
  - destruct Hprocs as [->|(q & _ & _ & ->)]; [done|]. apply dom_alter_L.
  - intros q. rewrite Halive. unfold is_alive.
    destruct Hprocs as [->|(q0 & _ & _ & ->)]; [done|].
    rewrite lookup_alter. destruct (decide (q0 = q)) as [->|Hne]; [|tauto].
    by destruct (procs s !! q).
  - intros q Hne. destruct Hprocs as [->|(q0 & Hq0 & _ & ->)]; [done|].
    rewrite lookup_alter_ne; [done|]. intros ->. by apply Hne.
  - intros q Ha Hd. rewrite Halive in Hd.
    destruct Hprocs as [Hp|(q0 & Hq0 & _ & Hp)]; rewrite Hp in Hd.
    + unfold is_alive in Ha. by rewrite Ha in Hd.
    + destruct (decide (q0 = q)) as [->|Hne]; [done|].
      rewrite lookup_alter_ne in Hd by done.
      unfold is_alive in Ha. by rewrite Ha in Hd.
  - intros q Hq Ha. rewrite Ht, Hq, Ha. sublist_solve.
  - intros q Hin. rewrite Ht in Hin.
    destruct (managed_processes s !! x) as [q0|].
    + destruct (is_alive s q0), (decide (x ∈ dom (services (shared s))));
        cbn [app] in Hin;
        repeat (apply elem_of_cons in Hin as [Hin|Hin];
                [by simplify_eq|]);
        by apply elem_of_nil in Hin.
    + destruct (decide (x ∈ dom (services (shared s))));
        cbn [app] in Hin;
        repeat (apply elem_of_cons in Hin as [Hin|Hin];
                [by simplify_eq|]);
        by apply elem_of_nil in Hin.
  - intros e Hin. rewrite Ht in Hin.
    destruct (managed_processes s !! x) as [q0|];
      [destruct (is_alive s q0)|];
      destruct (decide (x ∈ dom (services (shared s))));
      cbn [app] in Hin;
      repeat (apply elem_of_cons in Hin as [Hin|Hin];
              [subst e; eauto 10|]);
      by apply elem_of_nil in Hin.
Qed.

Lemma removal_inv_nil env s : removal_inv env s [] s [].
Proof.
  split; try done.
  - intros q Ha. by left.
  - intros q Hin. by apply elem_of_nil in Hin.
  - intros k q Hin. by apply elem_of_nil in Hin.
  - intros e Hin. by apply elem_of_nil in Hin.
Qed.

Lemma removal_inv_step env s done x s1 t1 r s' t' :
  removal_inv env s done s1 t1 →
  stop_removed env x s1 = (r, s', t') →
  removal_inv env s (done ++ [x]) s' (t1 ++ t').
Proof.
  intros [Hsv Hmg Hdom Hmono Hsig Htrk Hsgn Hun Hev] Hstep.
  destruct (stop_removed_facts env x s1)
    as (s2 & t2 & Heq & Fsv & Fmg & Fdom & Fmono & Fsame & Fdead & Fsig
        & Fterm & Fev).
  rewrite Heq in Hstep. injection Hstep as <- <- <-.
  assert (Hx : managed_processes s1 !! x
               = if decide (x ∈ done) then None else managed_processes s !! x)
    by apply Hmg.
  split.
  - intros k. rewrite Fsv. destruct (decide (k = x)) as [->|Hne].
    + rewrite lookup_delete_eq. rewrite decide_True; [done|].
      apply elem_of_app. right. left.
    + rewrite lookup_delete_ne by done. rewrite Hsv.
      destruct (decide (k ∈ done)) as [Hin|Hnin].
      * rewrite decide_True; [done|]. apply elem_of_app. by left.
      * rewrite decide_False; [done|].
        intros [?|Hk%list_elem_of_singleton]%elem_of_app; done.
  - intros k. rewrite Fmg. destruct (decide (k = x)) as [->|Hne].
    + rewrite lookup_delete_eq. rewrite decide_True; [done|].
      apply elem_of_app. right. left.
    + rewrite lookup_delete_ne by done. rewrite Hmg.
      destruct (decide (k ∈ done)) as [Hin|Hnin].
      * rewrite decide_True; [done|]. apply elem_of_app. by left.
      * rewrite decide_False; [done|].
        intros [?|Hk%list_elem_of_singleton]%elem_of_app; done.
  - by rewrite Fdom.
  - intros q Ha. by apply Hmono, Fmono.
  - intros q Ha. destruct (Hsig q Ha) as [Ha1|Hsub].
    + destruct (is_alive s2 q) eqn:Ha2; [by left|]. right.
      apply sublist_inserts_l. apply Fsig; [|done]. by apply Fdead.
    + right. by apply sublist_inserts_r.
  - intros q [Hin|Hin]%elem_of_app.
    + destruct (Htrk q Hin) as (k & Hk & Hq). exists k. split; [|done].
      apply elem_of_app. by left.
    + apply Fterm in Hin. rewrite Hx in Hin.
      destruct (decide (x ∈ done)); [done|]. exists x. split; [|done].
      apply elem_of_app. right. left.
  - intros k q Hk Hq Ha.
    destruct (decide (k ∈ done)) as [Hin|Hnin].
    + apply sublist_inserts_r. by eapply Hsgn.
    + apply elem_of_app in Hk as [?|Hk%list_elem_of_singleton]; [done|].
      subst k. destruct (Hsig q Ha) as [Ha1|Hsub].
      * apply sublist_inserts_l. apply Fsig; [|done].
        rewrite Hx. by rewrite decide_False.
      * by apply sublist_inserts_r.
  - intros q Hq. rewrite Fsame.
    + apply Hun. intros k Hk. apply Hq. apply elem_of_app. by left.
    + rewrite Hx. destruct (decide (x ∈ done)); [done|].
      apply Hq. apply elem_of_app. right. left.
  - intros e [Hin|Hin]%elem_of_app; [by apply Hev|by apply Fev].
Qed.

(** The removal loop never raises, and this is what it leaves behind. *)
Lemma removal_loop env xs s :
  ∃ s1 t1,
    for_each xs (stop_removed env) s = (Next tt, s1, t1)
    ∧ removal_inv env s xs s1 t1.
Proof.
  destruct (for_each_inv (removal_inv env s) (stop_removed env) xs s)
    as (done & _ & HI & Hdone & _).
  - apply removal_inv_nil.
  - intros done x s1 t1 r s' t' _ HI Hstep.
    by eapply removal_inv_step.
  - assert (Hnext : (for_each xs (stop_removed env) s).1.1 = Next tt).
    { apply for_each_next. intros x s1 _.
      destruct (stop_removed_facts env x s1) as (s2 & t2 & -> & _). done. }
    destruct (for_each xs (stop_removed env) s) as [[r s1] t1].
    cbn in *. subst r. rewrite (Hdone eq_refl) in HI. by exists s1, t1.
Qed.

(** Starting a process. *)
Lemma start_eq key name cfg s :
  let p := fresh (dom (procs s)) in
  start key name cfg s
  = (Next p,
     on_procs (insert p {| proc_name := name;
                           proc_target := ManageService cfg;
                           proc_alive := true |}) s,
     [EvStart key p cfg])
  ∧ p ∉ dom (procs s).
Proof. split; [reflexivity|]. apply is_fresh. Qed.

Lemma start_new_eq desired x s :
  match desired !! x with
  | Some cfg =>
      let p := fresh (dom (procs s)) in
      ∃ msg,
        start_new desired x s
        = (Next tt,
           on_managed (insert x p)
             (on_procs (insert p {| proc_name := Py.basename x;
                                    proc_target := ManageService cfg;
                                    proc_alive := true |}) s),
           [EvRootLog INFO msg; EvStart x p cfg])
  | None =>
      ∃ msg, start_new desired x s
             = (Raise (Py.KeyError x), s, [EvRootLog INFO msg])
  end.
Proof.
  unfold start_new, getitem. main_unfold.
  destruct (desired !! x) as [cfg|]; main_unfold; by eexists.
Qed.

Lemma addition_inv_nil desired s : addition_inv desired s [] s [].
Proof.
  split; try done.
  - intros k cfg Hin. by apply elem_of_nil in Hin.
  - intros e Hin. by apply elem_of_nil in Hin.
Qed.

Lemma is_alive_dom s q : is_alive s q = true → q ∈ dom (procs s).
Proof.
  unfold is_alive. intros Ha. apply elem_of_dom.
  by destruct (procs s !! q).
Qed.

Lemma addition_inv_step desired s done x s1 t1 r s' t' :
  addition_inv desired s done s1 t1 →
  start_new desired x s1 = (r, s', t') →
  addition_inv desired s (done ++ [x]) s' (t1 ++ t').
Proof.
  intros [Hsh Hdom Hold Hmg Hst Hev] Hstep.
  pose proof (start_new_eq desired x s1) as Heq.
  destruct (desired !! x) as [cfg|] eqn:Hx.
  - cbn zeta in Heq. destruct Heq as [msg Heq].
    rewrite Heq in Hstep. injection Hstep as <- <- <-.
    set (p := fresh (dom (procs s1))) in *.
    assert (Hp : p ∉ dom (procs s1)) by apply is_fresh.
    assert (Hp0 : p ∉ dom (procs s)) by set_solver.
    split; cbn [on_managed on_procs shared procs managed_processes].
    + done.
    + rewrite dom_insert_L. set_solver.
    + intros q Hq. rewrite lookup_insert_ne; [by apply Hold|].
      intros ->. done.
    + intros k Hk. rewrite lookup_insert_ne; [apply Hmg|]; set_solver.
    + intros k cfg' Hk Hcfg. destruct (decide (k = x)) as [->|Hne].
      * exists p. simplify_eq. split_and!.
        -- apply elem_of_app. right. in_list.
        -- done.
        -- by rewrite lookup_insert_eq.
        -- unfold is_alive; cbn [on_managed on_procs procs]. by rewrite lookup_insert_eq.
      * assert (Hk' : k ∈ done)
        by (apply elem_of_app in Hk as [?|?%list_elem_of_singleton]; done).
        destruct (Hst k cfg' Hk' Hcfg) as (q & Hin & Hq & Hmq & Ha).
        exists q. split_and!.
        -- apply elem_of_app. by left.
        -- done.
        -- by rewrite lookup_insert_ne.
        -- unfold is_alive; cbn [on_managed on_procs procs]. rewrite lookup_insert_ne; [done|].
           intros ->. by apply Hp, is_alive_dom.
    + intros e [Hin|Hin]%elem_of_app.
      * destruct (Hev e Hin) as [?|(k & q & c & -> & Hk & Hc & Hq)];
          [by left|].
        right. exists k, q, c. split_and!; [done| |done..]. set_solver.
      * apply elem_of_cons in Hin as [->|Hin]; [left; by eexists _, _|].
        apply list_elem_of_singleton in Hin as ->. right.
        exists x, p, cfg. split_and!; [done| |done..]. set_solver.
  - destruct Heq as [msg Heq].
    rewrite Heq in Hstep. injection Hstep as <- <- <-.
    split.
    + done.
    + done.
    + done.
    + intros k Hk. apply Hmg. set_solver.
    + intros k cfg' Hk Hcfg. destruct (decide (k = x)) as [->|Hne].
      { congruence. }
      assert (Hk' : k ∈ done)
        by (apply elem_of_app in Hk as [?|?%list_elem_of_singleton]; done).
      destruct (Hst k cfg' Hk' Hcfg) as (q & Hin & Hq & Hmq & Ha).
      exists q. split_and!; [|done..]. apply elem_of_app. by left.
    + intros e [Hin|Hin]%elem_of_app.
      * destruct (Hev e Hin) as [?|(k & q & c & -> & Hk & Hc & Hq)];
          [by left|].
        right. exists k, q, c. split_and!; [done| |done..]. set_solver.
      * apply list_elem_of_singleton in Hin as ->. left. by eexists _, _.
Qed.

(** The start loop, over keys that all have a definition. *)
Lemma addition_loop desired xs s :
  (∀ x, x ∈ xs → is_Some (desired !! x)) →
  ∃ s2 t2,
    for_each xs (start_new desired) s = (Next tt, s2, t2)
    ∧ addition_inv desired s xs s2 t2.
Proof.
  intros Hxs.
  destruct (for_each_inv (addition_inv desired s) (start_new desired) xs s)
    as (done & _ & HI & Hdone & _).
  - apply addition_inv_nil.
  - intros done x s1 t1 r s' t' _ HI Hstep.
    by eapply addition_inv_step.
  - assert (Hnext : (for_each xs (start_new desired) s).1.1 = Next tt).
    { apply for_each_next. intros x s1 Hx.
      pose proof (start_new_eq desired x s1) as Heq.
      destruct (Hxs x Hx) as [cfg Hcfg]. rewrite Hcfg in Heq.
      destruct Heq as [msg ->]. done. }
    destruct (for_each xs (start_new desired) s) as [[r s2] t2].
    cbn in *. subst r. rewrite (Hdone eq_refl) in HI. by exists s2, t2.
Qed.

Lemma health_inv_nil desired s : health_inv desired s [] s [].
Proof.
  split; try done. intros e Hin. by apply elem_of_nil in Hin.
Qed.

Lemma health_check_eq desired k q s :
  if String.eqb k "_api_server" then
    health_check desired (k, q) s = (Continue, s, [])
  else if is_alive s q then
    health_check desired (k, q) s = (Next tt, s, [])
  else
    match desired !! k with
    | Some cfg =>
        let p := fresh (dom (procs s)) in
        ∃ msg name,
          health_check desired (k, q) s
          = (Next tt,
             on_managed (insert k p)
               (on_procs (insert p {| proc_name := name;
                                      proc_target := ManageService cfg;
                                      proc_alive := true |}) s),
             [EvRootLog WARNING msg; EvStart k p cfg])
    | None =>
        ∃ msg, health_check desired (k, q) s
               = (Raise (Py.KeyError k), s, [EvRootLog WARNING msg])
    end.
Proof.
  unfold health_check, getitem.
  destruct (String.eqb k "_api_server"); [done|].
  main_unfold. destruct (is_alive s q); cbn [negb]; main_unfold; [done|].
  destruct (desired !! k) as [cfg|]; main_unfold;
    [by eexists _, _|by eexists].
Qed.

Lemma health_inv_step desired s done k q s1 t1 r s' t' :
  health_inv desired s done s1 t1 →
  health_check desired (k, q) s1 = (r, s', t') →
  health_inv desired s (done ++ [(k, q)]) s' (t1 ++ t').
Proof.
  intros [Hsh Hdom Hold Hmg Hev] Hstep.
  assert (Hkeep : ∀ e, e ∈ t1 →
            log_event e
            ∨ ∃ k0 q' cfg q0, e = EvStart k0 q' cfg
                ∧ (k0, q0) ∈ done ++ [(k, q)]
                ∧ is_alive s q0 = false ∧ desired !! k0 = Some cfg
                ∧ q' ∉ dom (procs s)).
  { intros e Hin.
    destruct (Hev e Hin) as [?|(k0 & q' & c & q0 & -> & Hk & Ha & Hc & Hq)];
      [by left|].
    right. exists k0, q', c, q0. split_and!; [done| |done..]. set_solver. }
  assert (Hkeep_mg : ∀ k0, (∀ q0, (k0, q0) ∉ done ++ [(k, q)]) →
            managed_processes s1 !! k0 = managed_processes s !! k0).
  { intros k0 Hk0. apply Hmg. intros q0 Hin. apply (Hk0 q0). set_solver. }
  pose proof (health_check_eq desired k q s1) as Heq.
  destruct (String.eqb k "_api_server").
  { rewrite Heq in Hstep. injection Hstep as <- <- <-.
    rewrite (right_id_L [] (++)). by split. }
  destruct (is_alive s1 q) eqn:Ha.
  { rewrite Heq in Hstep. injection Hstep as <- <- <-.
    rewrite (right_id_L [] (++)). by split. }
  assert (Ha0 : is_alive s q = false).
  { destruct (decide (q ∈ dom (procs s))) as [Hq|Hq].
    - unfold is_alive in *. by rewrite <- (Hold q Hq).
    - unfold is_alive. apply not_elem_of_dom in Hq. by rewrite Hq. }
  destruct (desired !! k) as [cfg|] eqn:Hk.
  - cbn zeta in Heq. destruct Heq as (msg & name & Heq).
    rewrite Heq in Hstep. injection Hstep as <- <- <-.
    set (p := fresh (dom (procs s1))) in *.
    assert (Hp : p ∉ dom (procs s1)) by apply is_fresh.
    assert (Hp0 : p ∉ dom (procs s)) by set_solver.
    split; cbn [on_managed on_procs shared procs managed_processes].
    + done.
    + rewrite dom_insert_L. set_solver.
    + intros q0 Hq0. rewrite lookup_insert_ne; [by apply Hold|].
      intros ->. done.
    + intros k0 Hk0. rewrite lookup_insert_ne; [by apply Hkeep_mg|].
      intros ->. apply (Hk0 q). set_solver.
    + intros e [Hin|Hin]%elem_of_app; [by apply Hkeep|].
      apply elem_of_cons in Hin as [->|Hin]; [left; by eexists _, _|].
      apply list_elem_of_singleton in Hin as ->. right.
      exists k, p, cfg, q. split_and!; [done| |done..]. set_solver.
  - destruct Heq as [msg Heq].
    rewrite Heq in Hstep. injection Hstep as <- <- <-.
    split; [done..| |].
    + done.
    + intros e [Hin|Hin]%elem_of_app; [by apply Hkeep|].
      apply list_elem_of_singleton in Hin as ->. left. by eexists _, _.
Qed.

(** The health check ends normally or in a [KeyError]. *)
Lemma health_loop desired zs s :
  ∃ r s3 t3 done,
    for_each zs (health_check desired) s = (r, s3, t3)
    ∧ done `prefix_of` zs
    ∧ health_inv desired s done s3 t3
    ∧ (r = Next tt ∨ ∃ k, r = Raise (Py.KeyError k)).
Proof.
  destruct (for_each_inv
              (λ done s3 t3,
                 health_inv desired s done s3 t3) (health_check desired) zs s)
    as (done & Hpre & HI & _ & _).
  - apply health_inv_nil.
  - intros done [k q] s1 t1 r s' t' _ HI Hstep.
    by eapply health_inv_step.
  - assert (Hflow : (for_each zs (health_check desired) s).1.1 = Next tt
                    ∨ ∃ k, (for_each zs (health_check desired) s).1.1
                           = Raise (Py.KeyError k)).
    { clear. revert s. induction zs as [|[k q] zs IH]; intros s; [by left|].
      cbn [for_each]. pose proof (health_check_eq desired k q s) as Heq.
      destruct (String.eqb k "_api_server").
      { rewrite Heq. specialize (IH s).
        by destruct (for_each zs (health_check desired) s) as [[r2 s2] t2]. }
      destruct (is_alive s q).
      { rewrite Heq. specialize (IH s).
        by destruct (for_each zs (health_check desired) s) as [[r2 s2] t2]. }
      destruct (desired !! k) as [cfg|].
      - cbn zeta in Heq. destruct Heq as (msg & name & ->).
        match goal with
        | |- context [for_each zs _ ?s1] => specialize (IH s1);
            by destruct (for_each zs (health_check desired) s1)
              as [[r2 s2] t2]
        end.
      - destruct Heq as (msg & ->). right. by exists k. }
    destruct (for_each zs (health_check desired) s) as [[r s3] t3].
    cbn in *. by exists r, s3, t3, done.
Qed.

(** One reconciliation cycle is the three loops in a row. *)
Lemma main_cycle_eq lib env s :
  let desired := desired_of lib (services_file env) in
  ∃ tp s1 t1 s2 t2 r s3 t3 done tl,
    main_cycle lib env s = (r, s3, tp ++ t1 ++ t2 ++ t3 ++ tl)
    ∧ removal_inv env s (elements (current_paths s ∖ dom desired)) s1 t1
    ∧ addition_inv desired s1 (elements (dom desired ∖ current_paths s)) s2 t2
    ∧ done `prefix_of` map_to_list (managed_processes s2)
    ∧ health_inv desired s2 done s3 t3
    ∧ (∀ e, e ∈ tp → log_event e)
    ∧ (∀ e, e ∈ tl → e = EvSleep MAIN_LOOP_SLEEP)
    ∧ (r = Next tt ∨ ∃ k, r = Raise (Py.KeyError k)).
Proof.
  intros desired. unfold main_cycle, reconcile.
  cbv [mbind M_mbind M_bind get].
  destruct (parse_services_file_eq lib (services_file env) s)
    as (tp & -> & Htp).
  fold desired.
  destruct (removal_loop env (elements (current_paths s ∖ dom desired)) s)
    as (s1 & t1 & -> & Hrm).
  destruct (addition_loop desired (elements (dom desired ∖ current_paths s)) s1)
    as (s2 & t2 & -> & Had).
  { intros x Hx. apply elem_of_elements, elem_of_difference in Hx as [Hx _].
    by apply elem_of_dom. }
  destruct (health_loop desired (map_to_list (managed_processes s2)) s2)
    as (r3 & s3 & t3 & done & -> & Hpre & Hhc & Hr3).
  exists tp, s1, t1, s2, t2.
  destruct Hr3 as [->|[k ->]].
  - exists (Next tt), s3, t3, done, [EvSleep MAIN_LOOP_SLEEP].
    split_and!; try done.
    + intros e He. by apply list_elem_of_singleton in He.
    + by left.
  - exists (Raise (Py.KeyError k)), s3, t3, done, [].
    split_and!; try done.
    + by rewrite (right_id_L [] (++)).
    + intros e He. by apply elem_of_nil in He.
    + right. by exists k.
Qed.

(** Where the events of a cycle come from. *)
Lemma cycle_event_cases (e : event) (tp t1 t2 t3 tl : list event) :
  e ∈ tp ++ t1 ++ t2 ++ t3 ++ tl →
  e ∈ tp ∨ e ∈ t1 ∨ e ∈ t2 ∨ e ∈ t3 ∨ e ∈ tl.
Proof. rewrite !elem_of_app. tauto. Qed.

(** The cycle with its three loops laid open. *)
Lemma main_cycle_run lib env s :
  let desired := desired_of lib (services_file env) in
  ∃ tp s1 t1 s2 t2 r3 s3 t3,
    for_each (elements (current_paths s ∖ dom desired)) (stop_removed env) s
    = (Next tt, s1, t1)
    ∧ removal_inv env s (elements (current_paths s ∖ dom desired)) s1 t1
    ∧ for_each (elements (dom desired ∖ current_paths s))
        (start_new desired) s1
      = (Next tt, s2, t2)
    ∧ addition_inv desired s1 (elements (dom desired ∖ current_paths s)) s2 t2
    ∧ for_each (map_to_list (managed_processes s2)) (health_check desired) s2
      = (r3, s3, t3)
    ∧ (∀ e, e ∈ tp → log_event e)
    ∧ (r3 = Next tt ∨ ∃ k, r3 = Raise (Py.KeyError k))
    ∧ main_cycle lib env s
      = (r3, s3,
         tp ++ t1 ++ t2 ++ t3
         ++ match r3 with Next _ => [EvSleep MAIN_LOOP_SLEEP] | _ => [] end).
Proof.
  intros desired. unfold main_cycle, reconcile.
  cbv [mbind M_mbind M_bind get].
  destruct (parse_services_file_eq lib (services_file env) s)
    as (tp & -> & Htp).
  fold desired.
  destruct (removal_loop env (elements (current_paths s ∖ dom desired)) s)
    as (s1 & t1 & Hrm_eq & Hrm).
  destruct (addition_loop desired (elements (dom desired ∖ current_paths s)) s1)
    as (s2 & t2 & Had_eq & Had).
  { intros x Hx. apply elem_of_elements, elem_of_difference in Hx as [Hx _].
    by apply elem_of_dom. }
  destruct (health_loop desired (map_to_list (managed_processes s2)) s2)
    as (r3 & s3 & t3 & done & Hhc_eq & _ & _ & Hr3).
  exists tp, s1, t1, s2, t2, r3, s3, t3.
  rewrite Hrm_eq, Had_eq, Hhc_eq.
  split_and!; try done.
  destruct Hr3 as [-> | [k ->]].
  - done.
  - cbn. by rewrite (right_id_L [] (++)).
Qed.

(** The store after a cycle: the entries of the keys that lost their
    definition are gone, the others are as they were. *)
Lemma cycle_store lib env s p :
  services (shared (main_cycle lib env s).1.2) !! p
  = if decide (p ∈ dom (desired_of lib (services_file env)))
    then services (shared s) !! p else None.
Proof.
  destruct (main_cycle_eq lib env s)
    as (tp & s1 & t1 & s2 & t2 & r & s3 & t3 & done & tl
        & -> & Hrm & Had & _ & Hhc & _).
  cbn [fst snd]. rewrite (hc_shared _ _ _ _ _ Hhc), (ad_shared _ _ _ _ _ Had).
  rewrite (rm_services _ _ _ _ _ Hrm).
  set (desired := desired_of lib (services_file env)).
  destruct (decide (p ∈ dom desired)) as [Hd|Hd].
  - rewrite decide_False; [done|].
    intros [_ ?]%elem_of_elements%elem_of_difference. done.
  - destruct (decide (p ∈ elements (current_paths s ∖ dom desired)))
      as [Hin|Hnin]; [done|].
    apply not_elem_of_dom. intros Hp. apply Hnin.
    apply elem_of_elements, elem_of_difference. done.
Qed.

(** A key that is in the store and has no definition any more. *)
Lemma cycle_removed_key lib env s p :
  p ∈ dom (services (shared s)) →
  p ∉ dom (desired_of lib (services_file env)) →
  let '(_, s', t) := main_cycle lib env s in
  (p ∉ dom (services (shared s')))
  ∧ managed_processes s' !! p = None
  ∧ ∀ q, managed_processes s !! p = Some q → is_alive s q = true →
         [EvTerminate q; EvJoin q 5] `sublist_of` t.
Proof.
  intros Hp Hd. pose proof (cycle_store lib env s p) as Hstore.
  destruct (main_cycle_eq lib env s)
    as (tp & s1 & t1 & s2 & t2 & r & s3 & t3 & done & tl
        & Heq & Hrm & Had & Hpre & Hhc & _).
  rewrite Heq in Hstore |- *. cbn [fst snd] in Hstore.
  set (desired := desired_of lib (services_file env)) in *.
  assert (Hin : p ∈ elements (current_paths s ∖ dom desired)).
  { apply elem_of_elements, elem_of_difference. done. }
  assert (Hm1 : managed_processes s1 !! p = None).
  { rewrite (rm_managed _ _ _ _ _ Hrm). by rewrite decide_True. }
  assert (Hm2 : managed_processes s2 !! p = None).
  { rewrite (ad_managed_other _ _ _ _ _ Had); [done|].
    intros [? _]%elem_of_elements%elem_of_difference. done. }
  split_and!.
  - apply not_elem_of_dom. rewrite Hstore. by rewrite decide_False.
  - rewrite (hc_managed_other _ _ _ _ _ Hhc); [done|].
    intros q Hq. destruct Hpre as [rest Hrest].
    assert (Hz : (p, q) ∈ map_to_list (managed_processes s2)).
    { rewrite Hrest. apply elem_of_app. by left. }
    apply elem_of_map_to_list in Hz. congruence.
  - intros q Hq Ha. apply sublist_inserts_l, sublist_inserts_r.
    by eapply (rm_signalled _ _ _ _ _ Hrm).
Qed.

(** Only tracked [Process] objects are signalled, none is killed, and a
    process the table does not track is left as it was. *)
Lemma cycle_signals lib env s :
  let '(_, s', t) := main_cycle lib env s in
  (∀ q, ¬ EvKill q ∈ t)
  ∧ (∀ q, EvTerminate q ∈ t → ∃ k, managed_processes s !! k = Some q)
  ∧ (∀ w, (∀ k, managed_processes s !! k ≠ Some w) → w ∈ dom (procs s) →
          procs s' !! w = procs s !! w).
Proof.
  destruct (main_cycle_eq lib env s)
    as (tp & s1 & t1 & s2 & t2 & r & s3 & t3 & done & tl
        & -> & Hrm & Had & Hpre & Hhc & Htp & Htl & _).
  split_and!.
  - intros q Hin.
    destruct (cycle_event_cases _ _ _ _ _ _ Hin) as [H|[H|[H|[H|H]]]].
    + destruct (Htp _ H) as (? & ? & [=]).
    + destruct (rm_events _ _ _ _ _ Hrm _ H)
        as [(? & ? & [=])|[(? & [=])|[(? & [=])|(? & [=])]]].
    + destruct (ad_events _ _ _ _ _ Had _ H)
        as [(? & ? & [=])|(? & ? & ? & [=] & _)].
    + destruct (hc_events _ _ _ _ _ Hhc _ H)
        as [(? & ? & [=])|(? & ? & ? & ? & [=] & _)].
    + by specialize (Htl _ H).
  - intros q Hin.
    destruct (cycle_event_cases _ _ _ _ _ _ Hin) as [H|[H|[H|[H|H]]]].
    + destruct (Htp _ H) as (? & ? & [=]).
    + destruct (rm_terminated_tracked _ _ _ _ _ Hrm _ H) as (k & _ & Hk).
      by exists k.
    + destruct (ad_events _ _ _ _ _ Had _ H)
        as [(? & ? & [=])|(? & ? & ? & [=] & _)].
    + destruct (hc_events _ _ _ _ _ Hhc _ H)
        as [(? & ? & [=])|(? & ? & ? & ? & [=] & _)].
    + by specialize (Htl _ H).
  - intros w Hw Hdom.
    assert (Hd1 : w ∈ dom (procs s1))
      by (by rewrite (rm_dom_procs _ _ _ _ _ Hrm)).
    assert (Hd2 : w ∈ dom (procs s2))
      by (by apply (ad_dom _ _ _ _ _ Had)).
    rewrite (hc_procs_old _ _ _ _ _ Hhc) by done.
    rewrite (ad_procs_old _ _ _ _ _ Had) by done.
    apply (rm_untracked _ _ _ _ _ Hrm). intros k _. apply Hw.
Qed.

(** Why a Supervisor was started in a cycle: its key has a definition, and
    either the key is not in the store, or the process tracked under it is
    dead or has just been signalled under a key that lost its definition. *)
Lemma cycle_start_explained lib env s k q' cfg :
  EvStart k q' cfg ∈ (main_cycle lib env s).2 →
  desired_of lib (services_file env) !! k = Some cfg
  ∧ (q' ∉ dom (procs s))
  ∧ ((k ∉ dom (services (shared s)))
     ∨ ∃ q, managed_processes s !! k = Some q
            ∧ (is_alive s q = false
               ∨ ∃ k', k' ∈ dom (services (shared s))
                       ∧ (k' ∉ dom (desired_of lib (services_file env)))
                       ∧ managed_processes s !! k' = Some q)).
Proof.
  destruct (main_cycle_eq lib env s)
    as (tp & s1 & t1 & s2 & t2 & r & s3 & t3 & done & tl
        & -> & Hrm & Had & Hpre & Hhc & Htp & Htl & _).
  cbn [snd]. set (desired := desired_of lib (services_file env)) in *.
  intros Hin.
  assert (Hdom1 : dom (procs s1) = dom (procs s))
    by apply (rm_dom_procs _ _ _ _ _ Hrm).
  destruct (cycle_event_cases _ _ _ _ _ _ Hin) as [H|[H|[H|[H|H]]]].
  - destruct (Htp _ H) as (? & ? & [=]).
  - destruct (rm_events _ _ _ _ _ Hrm _ H)
      as [(? & ? & [=])|[(? & [=])|[(? & [=])|(? & [=])]]].
  - destruct (ad_events _ _ _ _ _ Had _ H)
      as [(? & ? & [=])|(k0 & q0 & c0 & [= <- <- <-] & Hk & Hc & Hq)].
    split_and!; [done|by rewrite <- Hdom1|]. left.
    apply elem_of_elements, elem_of_difference in Hk as [_ Hk]. done.
  - destruct (hc_events _ _ _ _ _ Hhc _ H)
      as [(? & ? & [=])
         |(k0 & q0 & c0 & q & [= <- <- <-] & Hk & Ha & Hc & Hq)].
    assert (Hq0 : q' ∉ dom (procs s)).
    { rewrite <- Hdom1. intros Hd. apply Hq.
      by apply (ad_dom _ _ _ _ _ Had). }
    split_and!; [done..|].
    destruct (decide (k ∈ dom (services (shared s)))) as [Hst|Hst];
      [right|by left].
    assert (Hz : managed_processes s2 !! k = Some q).
    { destruct Hpre as [rest Hrest]. apply elem_of_map_to_list.
      rewrite Hrest. apply elem_of_app. by left. }
    assert (Hnew : k ∉ elements (dom desired ∖ current_paths s)).
    { intros [_ Hk']%elem_of_elements%elem_of_difference. done. }
    rewrite (ad_managed_other _ _ _ _ _ Had) in Hz by done.
    rewrite (rm_managed _ _ _ _ _ Hrm) in Hz.
    destruct (decide (k ∈ elements (current_paths s ∖ dom desired)));
      [done|].
    exists q. split; [done|].
    destruct (is_alive s q) eqn:Has; [right|by left].
    assert (Ha1 : is_alive s1 q = false).
    { destruct (decide (q ∈ dom (procs s1))) as [Hd|Hd].
      - unfold is_alive in *.
        by rewrite <- (ad_procs_old _ _ _ _ _ Had q Hd).
      - unfold is_alive. apply not_elem_of_dom in Hd. by rewrite Hd. }
    destruct (rm_alive_or_signalled _ _ _ _ _ Hrm q Has) as [?|Hsub];
      [congruence|].
    assert (Hterm : EvTerminate q ∈ t1).
    { apply (sublist_subseteq _ _ Hsub). left. }
    destruct (rm_terminated_tracked _ _ _ _ _ Hrm q Hterm)
      as (k' & Hk' & Hmk').
    apply elem_of_elements, elem_of_difference in Hk' as [Hk1 Hk2].
    exists k'. done.
  - by specialize (Htl _ H).
Qed.

(** A key with a definition and no entry in the store gets a new
    Supervisor, whatever the table holds. *)
Lemma cycle_starts_unregistered lib env s p cfg :
  desired_of lib (services_file env) !! p = Some cfg →
  p ∉ dom (services (shared s)) →
  ∃ q, EvStart p q cfg ∈ (main_cycle lib env s).2 ∧ q ∉ dom (procs s).
Proof.
  intros Hcfg Hp.
  destruct (main_cycle_eq lib env s)
    as (tp & s1 & t1 & s2 & t2 & r & s3 & t3 & done & tl
        & -> & Hrm & Had & _).
  cbn [snd]. set (desired := desired_of lib (services_file env)) in *.
  assert (Hin : p ∈ elements (dom desired ∖ current_paths s)).
  { apply elem_of_elements, elem_of_difference. split; [|done].
    by apply elem_of_dom. }
  destruct (ad_started _ _ _ _ _ Had p cfg Hin Hcfg) as (q & Hq & Hfresh & _).
  exists q. split.
  - apply elem_of_app. right. apply elem_of_app. right.
    apply elem_of_app. by left.
  - by rewrite <- (rm_dom_procs _ _ _ _ _ Hrm).
Qed.

(** ** What a reconciliation cycle decides, and on what *)

Import SampleMain.

(** C1 (as the program has it). The desired set comes from the definitions
    file; the set it is compared with is the key set of the store. An entry
    of the store survives the cycle exactly when its key still has a
    definition; a key with a definition and no entry in the store gets a new
    Supervisor whether or not the table tracks one; a key with a definition
    and an entry in the store gets none when the table tracks nothing for
    it. *)
Theorem actual_set_is_the_store_keys lib env s :
  let desired := desired_of lib (services_file env) in
  let '(_, s', t) := main_cycle lib env s in
  (∀ p, p ∈ dom (services (shared s')) ↔
          p ∈ dom (services (shared s)) ∧ p ∈ dom desired)
  ∧ (∀ p cfg, desired !! p = Some cfg → p ∉ dom (services (shared s)) →
       ∃ q, EvStart p q cfg ∈ t ∧ q ∉ dom (procs s))
  ∧ (∀ p, p ∈ dom (services (shared s)) → p ∈ dom desired →
       managed_processes s !! p = None →
       ∀ q cfg, ¬ EvStart p q cfg ∈ t).
Proof.
  intros desired.
  pose proof (cycle_store lib env s) as Hstore.
  pose proof (cycle_starts_unregistered lib env s) as Hstart.
  pose proof (cycle_start_explained lib env s) as Hwhy.
  destruct (main_cycle lib env s) as [[r s'] t]. cbn [fst snd] in *.
  fold desired in Hstore, Hstart, Hwhy. split_and!.
  - intros p. rewrite !elem_of_dom, Hstore.
    destruct (decide (p ∈ dom desired)) as [Hd|Hd].
    + apply elem_of_dom in Hd. tauto.
    + rewrite <- (elem_of_dom desired). split; [by intros [? [=]]|tauto].
  - intros p cfg Hcfg Hp. by apply Hstart.
  - intros p Hp Hd Hm q cfg Hin.
    destruct (Hwhy p q cfg Hin) as (_ & _ & [Hno|(q0 & Hq0 & _)]); [done|].
    congruence.
Qed.

Lemma actual_set_is_the_store_keys_witness :
  desired_of lib (services_file one_service) !! key = Some Sample.cfg
  ∧ (key ∉ dom (services (shared boot)))
  ∧ (∃ q, EvStart key q Sample.cfg ∈ (main_cycle lib one_service boot).2)
  ∧ key ∈ dom (services (shared untracked))
  ∧ managed_processes untracked !! key = None
  ∧ ∀ q cfg, ¬ EvStart key q cfg ∈ (main_cycle lib one_service untracked).2.
Proof.
  assert (Hd : desired_of lib (services_file one_service) !! key
               = Some Sample.cfg) by (vm_compute; reflexivity).
  assert (Hb : key ∉ dom (services (shared boot)))
    by (apply not_elem_of_dom; vm_compute; reflexivity).
  assert (Hu : key ∈ dom (services (shared untracked)))
    by (apply elem_of_dom; eexists; vm_compute; reflexivity).
  assert (Hm : managed_processes untracked !! key = None)
    by (vm_compute; reflexivity).
  pose proof (actual_set_is_the_store_keys lib one_service boot) as H1.
  pose proof (actual_set_is_the_store_keys lib one_service untracked) as H2.
  destruct (main_cycle lib one_service boot) as [[r1 s1] t1].
  destruct (main_cycle lib one_service untracked) as [[r2 s2] t2].
  destruct H1 as (_ & Hstart & _). destruct H2 as (_ & _ & Hnone).
  split_and!; [done..| | done | done |].
  - destruct (Hstart key Sample.cfg Hd Hb) as (q & Hq & _). by exists q.
  - apply Hnone; [done| |done]. apply elem_of_dom. by rewrite Hd.
Defined.

(** C1, counterexample: after the first cycle the Supervisor of the service
    is in the table and has not registered yet. The set the program works
    with is empty, the table's key set is not; the program starts a second
    Supervisor for the key, a cycle working from the table would start
    none. *)
Lemma actual_set_is_not_the_table :
  let s1 := (main_cycle lib one_service boot).1.2 in
  current_paths s1 ≠ spec_current_paths s1
  ∧ managed_processes s1 !! key = Some 3
  ∧ EvStart key 4 Sample.cfg ∈ (main_cycle lib one_service s1).2
  ∧ ∀ q cfg, ¬ EvStart key q cfg ∈ (spec_main_cycle lib one_service s1).2.
Proof.
  intros s1.
  assert (Hm : managed_processes s1 !! key = Some 3)
    by (vm_compute; reflexivity).
  split_and!.
  - intros Heq.
    assert (Hin : key ∈ spec_current_paths s1).
    { apply elem_of_difference. split.
      - apply elem_of_dom. exists 3. exact Hm.
      - intros Hk%elem_of_singleton. discriminate Hk. }
    rewrite <- Heq in Hin. unfold current_paths in Hin.
    apply elem_of_dom in Hin as [x Hx].
    vm_compute in Hx. discriminate Hx.
  - done.
  - vm_compute. in_list.
  - intros q cfg Hin. vm_compute in Hin. not_in_list Hin.
Qed.

(** C2 (as the program has it). A Supervisor is started in a cycle only for
    a key that has a definition, and then only if the key is not in the
    store, or the process tracked under it is dead, or that process has
    just been signalled under another key. So for a key that is in the
    store and whose tracked Supervisor is alive and tracked under that key
    alone, no cycle starts a second one. *)
Theorem no_second_supervisor_for_a_registered_live_key lib env s p q :
  p ∈ dom (services (shared s)) →
  managed_processes s !! p = Some q →
  is_alive s q = true →
  (∀ k, managed_processes s !! k = Some q → k = p) →
  let t := (main_cycle lib env s).2 in
  (∀ q' cfg, ¬ EvStart p q' cfg ∈ t)
  ∧ (∀ k q' cfg, EvStart k q' cfg ∈ t →
       desired_of lib (services_file env) !! k = Some cfg
       ∧ (q' ∉ dom (procs s))
       ∧ ((k ∉ dom (services (shared s)))
          ∨ ∃ q0, managed_processes s !! k = Some q0
                  ∧ (is_alive s q0 = false ∨ EvTerminate q0 ∈ t))).
Proof.
  intros Hp Hq Ha Hinj t. split.
  - intros q' cfg Hin.
    destruct (cycle_start_explained lib env s p q' cfg Hin)
      as (Hcfg & _ & [Hno|(q0 & Hq0 & [Hd|(k' & Hk1 & Hk2 & Hk3)])]).
    + done.
    + congruence.
    + assert (q0 = q) as -> by congruence.
      rewrite (Hinj k' Hk3) in Hk2. apply Hk2. apply elem_of_dom. eauto.
  - intros k q' cfg Hin.
    destruct (cycle_start_explained lib env s k q' cfg Hin)
      as (Hcfg & Hfresh & Hwhy).
    split_and!; [done..|].
    destruct Hwhy as [Hno|(q0 & Hq0 & [Hd|(k' & Hk1 & Hk2 & Hk3)])];
      [by left|right; exists q0; split; [done|by left]|].
    right. exists q0. split; [done|].
    destruct (is_alive s q0) eqn:Ha0; [right|by left].
    pose proof (cycle_removed_key lib env s k' Hk1 Hk2) as Hrm.
    unfold t in *. destruct (main_cycle lib env s) as [[r s'] t'].
    destruct Hrm as (_ & _ & Hsig). cbn [snd].
    apply (sublist_subseteq _ _ (Hsig q0 Hk3 Ha0)). left.
Qed.

Lemma no_second_supervisor_for_a_registered_live_key_witness :
  key ∈ dom (services (shared serving))
  ∧ managed_processes serving !! key = Some 3
  ∧ is_alive serving 3 = true
  ∧ (∀ k, managed_processes serving !! k = Some 3 → k = key)
  ∧ ∀ q' cfg, ¬ EvStart key q' cfg ∈ (main_cycle lib one_service serving).2.
Proof.
  assert (H1 : key ∈ dom (services (shared serving)))
    by (apply elem_of_dom; eexists; vm_compute; reflexivity).
  assert (H2 : managed_processes serving !! key = Some 3)
    by (vm_compute; reflexivity).
  assert (H3 : is_alive serving 3 = true) by (vm_compute; reflexivity).
  assert (H4 : ∀ k, managed_processes serving !! k = Some 3 → k = key).
  { intros k Hk. cbn [serving managed_processes] in Hk.
    destruct (decide ("_api_server" = k)) as [<-|Hne].
    - rewrite lookup_insert_eq in Hk. discriminate Hk.
    - rewrite lookup_insert_ne in Hk by done.
      by apply lookup_singleton_Some in Hk as [-> _]. }
  split_and!; [done..|].
  apply (no_second_supervisor_for_a_registered_live_key
           lib one_service serving key 3 H1 H2 H3 H4).
Defined.

(** A cycle that ran to its end is a step of the system. *)
Lemma step_cycle_run lib env s :
  (main_cycle lib env s).1.1 = Next tt →
  sys_step lib s (main_cycle lib env s).1.2.
Proof.
  intros Hr. destruct (main_cycle lib env s) as [[r s'] t] eqn:Heq.
  cbn in *. subst r. by eapply step_cycle.
Qed.

(** C2, counterexample: two cycles in a row, the second one before the
    Supervisor started by the first has put its record into the store. The
    second cycle starts another Supervisor for the same key while the first
    is alive, and the state it leaves has two live Supervisors holding that
    key. *)
Lemma two_live_supervisors_for_one_key :
  let s1 := (main_cycle lib one_service boot).1.2 in
  let s2 := (main_cycle lib one_service s1).1.2 in
  reachable lib s1
  ∧ holds s1 3 key
  ∧ EvStart key 4 Sample.cfg ∈ (main_cycle lib one_service s1).2
  ∧ reachable lib s2
  ∧ ¬ spec_store_invariant s2.
Proof.
  intros s1 s2.
  assert (Hstep1 : sys_step lib boot s1)
    by (apply step_cycle_run; vm_compute; reflexivity).
  assert (Hstep2 : sys_step lib s1 s2)
    by (apply step_cycle_run; vm_compute; reflexivity).
  assert (Hholds : ∀ s p, procs s !! p = Some supervisor → holds s p key).
  { intros s p Hp. exists supervisor, Sample.cfg. done. }
  split_and!.
  - exists 1, 2. by apply rtc_once.
  - apply Hholds. vm_compute. reflexivity.
  - vm_compute. in_list.
  - exists 1, 2. eapply rtc_l; [exact Hstep1|]. by apply rtc_once.
  - intros [_ Huniq].
    assert (H3 : holds s2 3 key) by (apply Hholds; vm_compute; reflexivity).
    assert (H4 : holds s2 4 key) by (apply Hholds; vm_compute; reflexivity).
    specialize (Huniq key 3 4 H3 H4). discriminate Huniq.
Qed.

(** The other half of the invariant fails as well, with no race involved:
    a Supervisor that has registered and then exits (a failed clone) leaves
    its key in the store with no live Supervisor behind it until the next
    health check. *)
Lemma store_key_without_live_supervisor :
  ∃ s, reachable lib s
       ∧ key ∈ dom (services (shared s))
       ∧ ∀ p, ¬ holds s p key.
Proof.
  set (s1 := (main_cycle lib one_service boot).1.2).
  set (s2 := on_services
               (insert (cfg_path Sample.cfg) (initial_status Sample.cfg 3)) s1).
  set (s3 := on_procs (alter mark_dead 3) s2).
  assert (Hp : procs s1 !! 3 = Some supervisor) by (vm_compute; reflexivity).
  exists s3. split_and!.
  - exists 1, 2. eapply rtc_l.
    { apply step_cycle_run with (env := one_service).
      vm_compute. reflexivity. }
    eapply rtc_l.
    { by apply (step_register lib 3 supervisor Sample.cfg s1). }
    apply rtc_once. by apply (step_exit lib 3 supervisor s2).
  - apply elem_of_dom. eexists. vm_compute. reflexivity.
  - intros p (P & cfg & HP & Htgt & Hpath & Halive).
    assert (Hall : ∀ q Q, procs s3 !! q = Some Q →
                     proc_alive Q = false ∨ proc_target Q = RunApiServer).
    { intros q Q HQ.
      assert (Hl : procs s3
                   = <[3 := mark_dead supervisor]>
                       {[ 2 := {| proc_name := "APIServer";
                                  proc_target := RunApiServer;
                                  proc_alive := true |} ]})
        by (vm_compute; reflexivity).
      rewrite Hl in HQ. destruct (decide (3 = q)) as [<-|Hne].
      - rewrite lookup_insert_eq in HQ. injection HQ as <-. by left.
      - rewrite lookup_insert_ne in HQ by done.
        apply lookup_singleton_Some in HQ as [_ <-]. by right. }
    destruct (Hall p P HP) as [Hd|Ht]; congruence.
Qed.

(** ** Removal *)

(** C7 (as the program has it). A key that is in the store and has lost its
    definition: within the cycle its entry leaves the store and its slot
    leaves the table; if the process tracked under it is alive, it is sent
    the termination signal and then waited for, for at most five seconds.
    Nothing more is done: no process is ever killed, only processes of the
    table are signalled, and a process the table does not track (a worker)
    is left exactly as it was. *)
Theorem removed_service_is_signalled_and_forgotten lib env s p :
  p ∈ dom (services (shared s)) →
  p ∉ dom (desired_of lib (services_file env)) →
  let '(_, s', t) := main_cycle lib env s in
  (p ∉ dom (services (shared s')))
  ∧ managed_processes s' !! p = None
  ∧ (∀ q, managed_processes s !! p = Some q → is_alive s q = true →
       [EvTerminate q; EvJoin q 5] `sublist_of` t)
  ∧ (∀ q, ¬ EvKill q ∈ t)
  ∧ (∀ q, EvTerminate q ∈ t → ∃ k, managed_processes s !! k = Some q)
  ∧ (∀ w, (∀ k, managed_processes s !! k ≠ Some w) → w ∈ dom (procs s) →
       procs s' !! w = procs s !! w).
Proof.
  intros Hp Hd.
  pose proof (cycle_removed_key lib env s p Hp Hd) as Hrm.
  pose proof (cycle_signals lib env s) as Hsig.
  destruct (main_cycle lib env s) as [[r s'] t].
  destruct Hrm as (H1 & H2 & H3). destruct Hsig as (H4 & H5 & H6).
  done.
Qed.

Lemma removed_service_is_signalled_and_forgotten_witness :
  key ∈ dom (services (shared serving))
  ∧ (key ∉ dom (desired_of lib (services_file emptied_stubborn)))
  ∧ managed_processes (main_cycle lib emptied_stubborn serving).1.2 !! key
    = None
  ∧ ([EvTerminate 3; EvJoin 3 5]
       `sublist_of` (main_cycle lib emptied_stubborn serving).2).
Proof.
  assert (H1 : key ∈ dom (services (shared serving)))
    by (apply elem_of_dom; eexists; vm_compute; reflexivity).
  assert (H2 : key ∉ dom (desired_of lib (services_file emptied_stubborn)))
    by (apply not_elem_of_dom; vm_compute; reflexivity).
  pose proof (removed_service_is_signalled_and_forgotten
                lib emptied_stubborn serving key H1 H2) as H.
  destruct (main_cycle lib emptied_stubborn serving) as [[r s'] t].
  destruct H as (_ & Hm & Hs & _). cbn [fst snd].
  split_and!; [done..|].
  apply Hs; vm_compute; reflexivity.
Defined.

(** C7, counterexample: the line of the service is deleted while its
    Supervisor (3) runs a worker (4), and the Supervisor is still there
    when the five seconds are over. The cycle does not kill it, and the
    worker is alive after the cycle. *)
Lemma removal_neither_kills_nor_stops_the_worker :
  let '(_, s', t) := main_cycle lib emptied_stubborn serving in
  join_exits emptied_stubborn 3 = false
  ∧ (∀ q, ¬ EvKill q ∈ t)
  ∧ is_alive s' 3 = true
  ∧ is_alive s' 4 = true
  ∧ ¬ spec_removal emptied_stubborn key 3 4 s' t.
Proof.
  destruct (main_cycle lib emptied_stubborn serving) as [[r s'] t] eqn:Heq.
  vm_compute in Heq. injection Heq as <- <- <-.
  assert (Hk : ∀ q, ¬ EvKill q
                      ∈ [EvRootLog INFO
                           "Service for /srv/repos/deployapp removed from config. Stopping...";
                         EvTerminate 3; EvJoin 3 5;
                         EvDelEntry "/srv/repos/deployapp";
                         EvRootLog INFO
                           "Process for /srv/repos/deployapp stopped.";
                         EvSleep 5]).
  { intros q Hin. not_in_list Hin. }
  split_and!.
  - reflexivity.
  - exact Hk.
  - vm_compute. reflexivity.
  - vm_compute. reflexivity.
  - intros (_ & Hkill & _). by apply (Hk 3), Hkill.
Qed.

(** With no definition at all the health check changes nothing. *)
Lemma health_check_no_definitions zs s :
  (for_each zs (health_check ∅) s).1.2 = s.
Proof.
  apply (for_each_preserves (λ s1, s1 = s)); [|done].
  intros [k q] s1 ->. pose proof (health_check_eq ∅ k q s) as Heq.
  destruct (String.eqb k "_api_server"); [by rewrite Heq|].
  destruct (is_alive s q); [by rewrite Heq|].
  rewrite lookup_empty in Heq. by destruct Heq as [msg ->].
Qed.

(** C10 (as the program has it). Without a definitions file the parser
    returns the empty dictionary and raises nothing; in the cycle that
    follows every key of the store is treated as removed: the store ends
    up empty, no such key is left in the table, and each live process
    tracked under such a key is signalled and waited for. The table is not
    what decides: a key of the table that has no entry in the store keeps
    its slot, only processes tracked under a key of the store are
    signalled, and every other process is left as it was. *)
Theorem missing_file_removes_every_service lib env s :
  services_file env = None →
  (∀ S (st : S), ∃ t,
     parse_services_file lib (services_file env) st = (Next ∅, st, t))
  ∧ let '(_, s', t) := main_cycle lib env s in
    services (shared s') = ∅
    ∧ (∀ p, p ∈ dom (services (shared s)) →
         managed_processes s' !! p = None
         ∧ ∀ q, managed_processes s !! p = Some q → is_alive s q = true →
                [EvTerminate q; EvJoin q 5] `sublist_of` t)
    ∧ (∀ p, p ∉ dom (services (shared s)) →
         managed_processes s' !! p = managed_processes s !! p)
    ∧ (∀ q, EvTerminate q ∈ t →
         ∃ p, p ∈ dom (services (shared s))
              ∧ managed_processes s !! p = Some q)
    ∧ (∀ q, (∀ p, p ∈ dom (services (shared s)) →
                  managed_processes s !! p ≠ Some q) →
            procs s' !! q = procs s !! q).
Proof.
  intros Hfile. split.
  - intros S st. rewrite Hfile. by eexists.
  - assert (Hd : desired_of lib (services_file env) = ∅) by (by rewrite Hfile).
    pose proof (cycle_store lib env s) as Hstore.
    pose proof (cycle_removed_key lib env s) as Hrmk.
    destruct (main_cycle_run lib env s)
      as (tp & s1 & t1 & s2 & t2 & r3 & s3 & t3
          & Hrm_eq & Hrm & Had_eq & Had & Hhc_eq & Htp & _ & Heq).
    rewrite Hd in Hstore, Hrmk, Hrm_eq, Hrm, Had_eq, Hhc_eq.
    rewrite Heq in Hstore, Hrmk |- *. cbn [fst snd] in Hstore.
    rewrite dom_empty_L in Had_eq.
    assert (Hno : (∅ : gset string) ∖ current_paths s = ∅).
    { apply set_eq. intros x. rewrite elem_of_difference, elem_of_empty.
      tauto. }
    rewrite Hno, elements_empty in Had_eq. injection Had_eq as <- <-.
    pose proof (health_check_no_definitions
                  (map_to_list (managed_processes s1)) s1) as Hsame.
    rewrite Hhc_eq in Hsame. cbn [fst snd] in Hsame. subst s3.
    assert (Hdone : ∀ p,
              p ∈ elements (current_paths s
                            ∖ dom (∅ : gmap string service_config))
              ↔ p ∈ dom (services (shared s))).
    { intros p. rewrite elem_of_elements, dom_empty_L, elem_of_difference,
        elem_of_empty. unfold current_paths. tauto. }
    assert (Ht3 : ∀ q, ¬ EvTerminate q ∈ t3).
    { intros q Hin.
      destruct (health_loop ∅ (map_to_list (managed_processes s1)) s1)
        as (r & s3' & t3' & dn & Hl & _ & Hhc & _).
      rewrite Hhc_eq in Hl. injection Hl as <- <- <-.
      destruct (hc_events _ _ _ _ _ Hhc _ Hin)
        as [(? & ? & [=])|(? & ? & ? & ? & [=] & _)]. }
    split_and!.
    + apply map_eq. intros p. rewrite Hstore, lookup_empty.
      rewrite decide_False; [done|]. rewrite dom_empty_L. set_solver.
    + intros p Hp.
      assert (Hnot : p ∉ dom (∅ : gmap string service_config)).
      { rewrite dom_empty_L. apply not_elem_of_empty. }
      by destruct (Hrmk p Hp Hnot) as (_ & ? & ?).
    + intros p Hp. rewrite (rm_managed _ _ _ _ _ Hrm), decide_False; [done|].
      by rewrite Hdone.
    + intros q Hin. rewrite !elem_of_app in Hin.
      destruct Hin as [H|[H|[H|[H|H]]]].
      * destruct (Htp _ H) as (? & ? & [=]).
      * destruct (rm_terminated_tracked _ _ _ _ _ Hrm _ H) as (p & Hp & Hq).
        exists p. by rewrite <- Hdone.
      * by apply elem_of_nil in H.
      * by destruct (Ht3 q).
      * destruct r3; [|by apply elem_of_nil in H..].
        apply list_elem_of_singleton in H. discriminate H.
    + intros q Hq. apply (rm_untracked _ _ _ _ _ Hrm).
      intros p Hp. apply Hq. by rewrite <- Hdone.
Qed.

Lemma missing_file_removes_every_service_witness :
  services_file file_missing = None
  ∧ services (shared (main_cycle lib file_missing serving).1.2) = ∅
  ∧ ([EvTerminate 3; EvJoin 3 5]
       `sublist_of` (main_cycle lib file_missing serving).2).
Proof.
  pose proof (missing_file_removes_every_service
                lib file_missing serving eq_refl) as [_ H].
  destruct (main_cycle lib file_missing serving) as [[r s'] t].
  destruct H as (Hempty & Hall & _). cbn [fst snd].
  split_and!; [done..|].
  assert (Hk : key ∈ dom (services (shared serving)))
    by (apply elem_of_dom; eexists; vm_compute; reflexivity).
  destruct (Hall key Hk) as [_ Hsig].
  apply Hsig; vm_compute; reflexivity.
Defined.

(** C10, counterexample: the first cycle has started Supervisor 3, which
    has not yet put its record into the store, and the definitions file is
    deleted. The cycle that follows finds no key in the store: Supervisor 3
    is not signalled and keeps its slot in the table. *)
Lemma missing_file_spares_an_unregistered_supervisor :
  reachable lib (main_cycle lib one_service boot).1.2
  ∧ ¬ spec_missing_file_removal lib file_missing
        (main_cycle lib one_service boot).1.2.
Proof.
  split.
  - exists 1, 2. apply rtc_once. apply step_cycle_run.
    vm_compute. reflexivity.
  - unfold spec_missing_file_removal. intros H. specialize (H eq_refl).
    destruct (main_cycle lib file_missing (main_cycle lib one_service boot).1.2)
      as [[r s'] t] eqn:Hrun.
    vm_compute in Hrun. injection Hrun as _ <- _.
    destruct (H key 3) as [_ Hm].
    + intros Hk. vm_compute in Hk. discriminate Hk.
    + vm_compute. reflexivity.
    + vm_compute. reflexivity.
    + vm_compute in Hm. discriminate Hm.
Qed.

(** ** Reachable states have a well-formed table *)

Lemma table_wf_spawn s k p P :
  p ∉ dom (procs s) → table_wf s →
  table_wf (on_managed (insert k p) (on_procs (insert p P) s)).
Proof.
  intros Hp [Hdom Hinj]. split; cbn [on_managed on_procs managed_processes procs].
  - intros k0 q Hq. rewrite dom_insert_L.
    destruct (decide (k = k0)) as [<-|Hne].
    + rewrite lookup_insert_eq in Hq. injection Hq as <-.
      apply elem_of_union. left. by apply elem_of_singleton.
    + rewrite lookup_insert_ne in Hq by done.
      apply elem_of_union. right. by eapply Hdom.
  - intros k1 k2 q H1 H2.
    destruct (decide (k = k1)) as [<-|Hne1], (decide (k = k2)) as [<-|Hne2].
    + done.
    + rewrite lookup_insert_eq in H1. injection H1 as <-.
      rewrite lookup_insert_ne in H2 by done.
      destruct Hp. by eapply Hdom.
    + rewrite lookup_insert_eq in H2. injection H2 as <-.
      rewrite lookup_insert_ne in H1 by done.
      destruct Hp. by eapply Hdom.
    + rewrite lookup_insert_ne in H1, H2 by done. by eapply Hinj.
Qed.

Lemma stop_removed_wf env x s :
  table_wf s → table_wf (stop_removed env x s).1.2.
Proof.
  intros [Hdom Hinj].
  destruct (stop_removed_facts env x s)
    as (s' & t & -> & _ & Hmg & Hd & _).
  cbn [fst snd]. split.
  - intros k q. rewrite Hmg, Hd. intros Hq.
    apply lookup_delete_Some in Hq as [_ Hq]. by eapply Hdom.
  - intros k1 k2 q. rewrite Hmg. intros H1 H2.
    apply lookup_delete_Some in H1 as [_ H1].
    apply lookup_delete_Some in H2 as [_ H2]. by eapply Hinj.
Qed.

Lemma start_new_wf desired x s :
  table_wf s → table_wf (start_new desired x s).1.2.
Proof.
  intros Hwf. pose proof (start_new_eq desired x s) as Heq.
  destruct (desired !! x) as [cfg|].
  - cbn zeta in Heq. destruct Heq as [msg ->]. cbn [fst snd].
    apply table_wf_spawn; [apply is_fresh|done].
  - by destruct Heq as [msg ->].
Qed.

Lemma health_check_wf desired item s :
  table_wf s → table_wf (health_check desired item s).1.2.
Proof.
  intros Hwf. destruct item as [k q].
  pose proof (health_check_eq desired k q s) as Heq.
  destruct (String.eqb k "_api_server"); [by rewrite Heq|].
  destruct (is_alive s q); [by rewrite Heq|].
  destruct (desired !! k) as [cfg|].
  - cbn zeta in Heq. destruct Heq as (msg & name & ->). cbn [fst snd].
    apply table_wf_spawn; [apply is_fresh|done].
  - by destruct Heq as [msg ->].
Qed.

Lemma main_cycle_wf lib env s :
  table_wf s → table_wf (main_cycle lib env s).1.2.
Proof.
  intros Hwf. unfold main_cycle.
  apply (bind_preserves table_wf).
  { by destruct (parse_services_file_eq lib (services_file env) s)
      as (tp & -> & _). }
  intros desired s0 Hs0. apply (bind_preserves table_wf); [done|].
  intros s0' s1 Hs1. unfold reconcile.
  apply (bind_preserves table_wf).
  { apply for_each_preserves; [|done]. intros x s2. apply stop_removed_wf. }
  intros _ s2 Hs2. apply (bind_preserves table_wf).
  { apply for_each_preserves; [|done]. intros x s3. apply start_new_wf. }
  intros _ s3 Hs3. apply (bind_preserves table_wf); [done|].
  intros s3' s4 Hs4. apply (bind_preserves table_wf).
  { apply for_each_preserves; [|done]. intros x s5. apply health_check_wf. }
  intros _ s5 Hs5. done.
Qed.

Lemma initial_table_wf main_pid api_pid :
  table_wf (initial_main_state main_pid api_pid).
Proof.
  split; cbn [initial_main_state managed_processes procs].
  - intros k q [_ <-]%lookup_singleton_Some.
    rewrite dom_singleton_L. by apply elem_of_singleton.
  - intros k1 k2 q [<- _]%lookup_singleton_Some [<- _]%lookup_singleton_Some.
    done.
Qed.

Lemma sys_step_wf lib s s' : sys_step lib s s' → table_wf s → table_wf s'.
Proof.
  intros Hstep Hwf. destruct Hstep as [env s s' t Hrun|p P cfg s _ _ _|p P s _].
  - pose proof (main_cycle_wf lib env s Hwf) as H. by rewrite Hrun in H.
  - exact Hwf.
  - destruct Hwf as [Hdom Hinj]. split; cbn [on_procs managed_processes procs].
    + intros k q Hq. rewrite dom_alter_L. by eapply Hdom.
    + exact Hinj.
Qed.

(** In every reachable state the table is well-formed: the side condition
    of the theorem on second Supervisors always holds there. *)
Lemma reachable_table_wf lib s : reachable lib s → table_wf s.
Proof.
  intros (main_pid & api_pid & Hrtc).
  revert s Hrtc. apply rtc_ind_r.
  - apply initial_table_wf.
  - intros s1 s2 _ Hstep IH. by eapply sys_step_wf.
Qed.

(** C2 on reachable states: there the table is well-formed, so a key that
    is in the store and whose tracked Supervisor is alive never gets a
    second one. *)
Lemma reachable_no_second_supervisor lib env s p q :
  reachable lib s →
  p ∈ dom (services (shared s)) →
  managed_processes s !! p = Some q →
  is_alive s q = true →
  ∀ q' cfg, ¬ EvStart p q' cfg ∈ (main_cycle lib env s).2.
Proof.
  intros Hreach Hp Hq Ha q' cfg Hin.
  destruct (reachable_table_wf lib s Hreach) as [_ Hinj].
  destruct (cycle_start_explained lib env s p q' cfg Hin)
    as (Hcfg & _ & [Hno|(q0 & Hq0 & [Hd|(k' & Hk1 & Hk2 & Hk3)])]).
  - done.
  - congruence.
  - assert (q0 = q) as -> by congruence.
    rewrite (Hinj k' p q Hk3 Hq) in Hk2. apply Hk2. apply elem_of_dom. eauto.
Qed.

(** * Further properties *)

(** ** The log buffer, one record at a time *)

(** X1. After [emit] the buffer never holds more than [MAX_LOG_ENTRIES]
    records, whatever it held before; while there is room nothing is
    evicted; a full buffer loses exactly its oldest record. *)
Theorem emit_keeps_the_buffer_within_capacity (buf : list string)
    (e : string) :
  (length (emit buf e) ≤ MAX_LOG_ENTRIES)%nat
  ∧ (length buf < MAX_LOG_ENTRIES → emit buf e = buf ++ [e])
  ∧ (length buf = MAX_LOG_ENTRIES → emit buf e = drop 1 buf ++ [e]).
Proof.
  unfold emit, emit_cap. split_and!.
  - rewrite trim_length. lia.
  - intros Hlt. rewrite trim_drop, length_app. cbn [length].
    replace (length buf + 1 - MAX_LOG_ENTRIES) with 0 by lia. reflexivity.
  - intros Heq. rewrite trim_drop, length_app. cbn [length].
    replace (length buf + 1 - MAX_LOG_ENTRIES) with 1 by lia.
    rewrite drop_app_le; [done|]. rewrite Heq. unfold MAX_LOG_ENTRIES. lia.
Qed.

Lemma emit_keeps_the_buffer_within_capacity_witness :
  let full := (λ n : nat, pretty n) <$> seq 1 20 in
  (length ["a"; "b"] < MAX_LOG_ENTRIES ∧ emit ["a"; "b"] "c" = ["a"; "b"; "c"])
  ∧ (length full = MAX_LOG_ENTRIES ∧ emit full "new" = drop 1 full ++ ["new"]).
Proof.
  intros full.
  destruct (emit_keeps_the_buffer_within_capacity ["a"; "b"] "c")
    as (_ & Hroom & _).
  destruct (emit_keeps_the_buffer_within_capacity full "new")
    as (_ & _ & Hfull).
  split.
  - assert (Hlt : length ["a"; "b"] < MAX_LOG_ENTRIES)
      by (vm_compute; lia).
    split; [exact Hlt|exact (Hroom Hlt)].
  - assert (Heq : length full = MAX_LOG_ENTRIES) by reflexivity.
    split; [exact Heq|exact (Hfull Heq)].
Defined.

(** ** The definitions file *)

Lemma has_nonspace_rev_app (s acc : string) :
  has_nonspace (String.rev_app s acc) = has_nonspace s || has_nonspace acc.
Proof.
  revert acc. induction s as [|c s IH]; intros acc; [done|].
  cbn [String.rev_app has_nonspace]. rewrite IH. cbn [has_nonspace].
  destruct (Py.is_space c), (has_nonspace s), (has_nonspace acc); done.
Qed.

Lemma has_nonspace_rev (s : string) :
  has_nonspace (String.rev s) = has_nonspace s.
Proof.
  unfold String.rev. rewrite has_nonspace_rev_app. cbn [has_nonspace].
  by rewrite orb_false_r.
Qed.

Lemma lstrip_nonspace (s : string) :
  Py.lstrip s ≠ EmptyString → has_nonspace (Py.lstrip s) = true.
Proof.
  induction s as [|c s IH]; [done|]. cbn [Py.lstrip].
  destruct (Py.is_space c) eqn:Hc; [done|].
  intros _. cbn [has_nonspace]. by rewrite Hc.
Qed.

Lemma strip_nonspace (s : string) :
  Py.strip s ≠ EmptyString → has_nonspace (Py.strip s) = true.
Proof.
  unfold Py.strip, Py.rstrip. intros Hne. rewrite has_nonspace_rev.
  apply lstrip_nonspace. intros Heq. apply Hne. by rewrite Heq.
Qed.

Lemma split_go_nonempty (s cur : string) :
  cur ≠ EmptyString ∨ has_nonspace s = true → Py.split_go cur s ≠ [].
Proof.
  revert cur. induction s as [|c s IH]; intros cur Hc.
  - destruct Hc as [Hc|Hc]; [|done]. cbn. by destruct cur.
  - cbn [Py.split_go]. destruct (Py.is_space c) eqn:Hsp.
    + destruct cur as [|c0 cur]; [|done].
      apply IH. right. destruct Hc as [Hc|Hc]; [done|].
      cbn [has_nonspace] in Hc. by rewrite Hsp in Hc.
    + apply IH. by left.
Qed.

(** A line that is not skipped has a first word: [parts[0]] is there. *)
Lemma split_strip_first_word (line : string) :
  Py.strip line ≠ EmptyString →
  ∃ url rest, Py.split (Py.strip line) = url :: rest.
Proof.
  intros Hne. pose proof (split_go_nonempty (Py.strip line) EmptyString) as H.
  unfold Py.split. destruct (Py.split_go EmptyString (Py.strip line))
    as [|url rest]; [|by eauto].
  destruct H; [|done]. right. by apply strip_nonspace.
Qed.

Lemma parse_line_ignored lib m line :
  is_ignored line = true → parse_line lib m line = m.
Proof. unfold is_ignored, parse_line. by intros ->. Qed.

(** X2. A line that is neither blank nor a comment always has a first word,
    so reading [parts[0]] cannot fail, and the line sets one entry: the
    first word is the URL, the second the branch (["main"] when there is
    none), the third the directory name (derived from the URL when there is
    none); further words are ignored. The entry is stored under the
    absolute path of the directory inside [REPOS_DIR]. *)
Theorem parse_line_sets_one_entry lib m line :
  is_ignored line = false →
  ∃ url rest,
    Py.split (Py.strip line) = url :: rest
    ∧ let branch := default "main" (rest !! 0) in
      let dir_name := default (get_repo_name_from_url lib url) (rest !! 1) in
      let repo_path := abspath lib (Py.path_join REPOS_DIR dir_name) in
      parse_line lib m line
      = <[repo_path := ServiceConfig url branch repo_path]> m.
Proof.
  intros Hig. unfold is_ignored in Hig.
  apply orb_false_iff in Hig as [Hblank Hcomment].
  assert (Hne : Py.strip line ≠ EmptyString).
  { intros Heq. by rewrite Heq in Hblank. }
  destruct (split_strip_first_word line Hne) as (url & rest & Hsplit).
  exists url, rest. split; [done|].
  unfold parse_line. rewrite Hblank, Hcomment, Hsplit. cbn [orb].
  by destruct rest as [|b [|d rest]].
Qed.

Lemma parse_line_sets_one_entry_witness :
  is_ignored "https://example.test/app.git release deployapp extra" = false
  ∧ parse_line SampleMain.lib ∅
      "https://example.test/app.git release deployapp extra"
    = {[ "/srv/repos/deployapp" := Sample.cfg ]}
  ∧ is_ignored "  https://example.test/tool.git  " = false
  ∧ parse_line SampleMain.lib ∅ "  https://example.test/tool.git  "
    = {[ "/srv/repos/tool.git"
         := ServiceConfig "https://example.test/tool.git" "main"
              "/srv/repos/tool.git" ]}.
Proof.
  assert (H1 : is_ignored
                 "https://example.test/app.git release deployapp extra"
               = false) by reflexivity.
  assert (H2 : is_ignored "  https://example.test/tool.git  " = false)
    by reflexivity.
  destruct (parse_line_sets_one_entry SampleMain.lib ∅ _ H1)
    as (url1 & rest1 & Hs1 & Hp1).
  destruct (parse_line_sets_one_entry SampleMain.lib ∅ _ H2)
    as (url2 & rest2 & Hs2 & Hp2).
  vm_compute in Hs1. injection Hs1 as <- <-.
  vm_compute in Hs2. injection Hs2 as <- <-.
  split_and!; [done| |done|].
  - rewrite Hp1. vm_compute. reflexivity.
  - rewrite Hp2. vm_compute. reflexivity.
Defined.

Lemma parse_line_union lib m line :
  parse_line lib m line = parse_line lib ∅ line ∪ m.
Proof.
  destruct (is_ignored line) eqn:Hig.
  - rewrite !parse_line_ignored by done. by rewrite (left_id_L ∅ (∪)).
  - destruct (parse_line_sets_one_entry lib m line Hig)
      as (url & rest & Hs & ->).
    destruct (parse_line_sets_one_entry lib ∅ line Hig)
      as (url' & rest' & Hs' & ->).
    assert (url' = url ∧ rest' = rest) as [-> ->] by (split; congruence).
    cbn zeta. by rewrite insert_empty, insert_union_singleton_l.
Qed.

Lemma foldl_parse_line_union lib lines m :
  foldl (parse_line lib) m lines = foldl (parse_line lib) ∅ lines ∪ m.
Proof.
  revert m. induction lines as [|line lines IH]; intros m; cbn [foldl].
  - by rewrite (left_id_L ∅ (∪)).
  - rewrite (IH (parse_line lib m line)), (IH (parse_line lib ∅ line)).
    rewrite (parse_line_union lib m line). by rewrite (assoc_L (∪)).
Qed.

(** X3. Reading a file is reading its parts: the dictionary of a
    concatenation is the dictionary of the second part laid over that of
    the first, so a later line for the same directory replaces an earlier
    one. *)
Theorem later_definitions_override_earlier_ones lib (lines1 lines2 : list string) :
  desired_of lib (Some (lines1 ++ lines2))
  = desired_of lib (Some lines2) ∪ desired_of lib (Some lines1).
Proof.
  cbn [desired_of]. rewrite foldl_app. apply foldl_parse_line_union.
Qed.

(** X4. Blank lines and comment lines do not count: dropping them from the
    file gives the same dictionary, and the dictionary has at most as many
    entries as the file has other lines. *)
Theorem ignored_lines_do_not_count lib (lines : list string) :
  let kept := filter (λ line, is_ignored line = false) lines in
  desired_of lib (Some lines) = desired_of lib (Some kept)
  ∧ (size (desired_of lib (Some lines)) ≤ length kept)%nat.
Proof.
  cbn [desired_of].
  assert (Heq : ∀ m, foldl (parse_line lib) m lines
                = foldl (parse_line lib) m
                    (filter (λ line, is_ignored line = false) lines)).
  { induction lines as [|line lines IH]; intros m; [done|].
    rewrite filter_cons. cbn [foldl].
    destruct (decide (is_ignored line = false)) as [Hig|Hig].
    - cbn [foldl]. apply IH.
    - apply not_false_is_true in Hig. rewrite parse_line_ignored by done.
      apply IH. }
  split; [apply Heq|]. rewrite Heq.
  assert (Hsize : ∀ (l : list string) m,
            (size (foldl (parse_line lib) m l) ≤ size m + length l)%nat).
  { clear. induction l as [|line l IH]; intros m; cbn [foldl length]; [lia|].
    etrans; [apply IH|].
    assert ((size (parse_line lib m line) ≤ S (size m))%nat); [|lia].
    destruct (is_ignored line) eqn:Hig.
    - rewrite parse_line_ignored by done. lia.
    - destruct (parse_line_sets_one_entry lib m line Hig)
        as (url & rest & _ & ->). cbn zeta.
      rewrite map_size_insert. case_match; cbn [id]; lia. }
  etrans; [apply Hsize|]. by rewrite map_size_empty.
Qed.

(** X5. Every entry of the dictionary is stored under its own ["path"], and
    it is the entry some line of the file sets. *)
Theorem parsed_definitions_are_keyed_by_their_path lib file k cfg :
  desired_of lib file !! k = Some cfg →
  cfg_path cfg = k
  ∧ ∃ lines line,
      file = Some lines ∧ line ∈ lines
      ∧ parse_line lib ∅ line = {[ k := cfg ]}.
Proof.
  destruct file as [lines|]; cbn [desired_of]; [|by rewrite lookup_empty].
  induction lines as [|line lines IH] using rev_ind.
  { cbn. by rewrite lookup_empty. }
  rewrite foldl_app. cbn [foldl]. intros Hk.
  destruct (is_ignored line) eqn:Hig.
  - rewrite parse_line_ignored in Hk by done.
    destruct (IH Hk) as (Hpath & ls & l & [= <-] & Hl & Hp).
    split; [done|]. exists (lines ++ [line]), l. split_and!; [done| |done].
    apply elem_of_app. by left.
  - destruct (parse_line_sets_one_entry lib ∅ line Hig)
      as (url & rest & Hs & Hnew).
    rewrite parse_line_union, Hnew in Hk. cbn zeta in Hk, Hnew.
    rewrite insert_empty in Hk, Hnew.
    apply lookup_union_Some_raw in Hk as [Hk|[_ Hk]].
    + apply lookup_singleton_Some in Hk as [<- <-]. split; [done|].
      exists (lines ++ [line]), line. split_and!; [done| |done].
      apply elem_of_app. right. by apply list_elem_of_singleton.
    + destruct (IH Hk) as (Hpath & ls & l & [= <-] & Hl & Hp).
      split; [done|]. exists (lines ++ [line]), l.
      split_and!; [done| |done]. apply elem_of_app. by left.
Qed.

Lemma parsed_definitions_are_keyed_by_their_path_witness :
  desired_of SampleMain.lib (services_file SampleMain.one_service)
    !! SampleMain.key = Some Sample.cfg
  ∧ cfg_path Sample.cfg = SampleMain.key.
Proof.
  assert (H : desired_of SampleMain.lib
                (services_file SampleMain.one_service) !! SampleMain.key
              = Some Sample.cfg) by (vm_compute; reflexivity).
  split; [exact H|].
  exact (proj1 (parsed_definitions_are_keyed_by_their_path _ _ _ _ H)).
Defined.

(** ** The status request, case by case *)

(** X6. Any path other than [/status] gets 404 and the body [Not Found].
    On [/status] a JSON document is written exactly when the store holds no
    service; it is then the manager's pid, the address of the endpoint and
    an empty [services] object. *)
Theorem status_query_answers_only_for_an_empty_store
    (shared : shared_status) (path : string) :
  (path ≠ "/status" →
     do_GET shared path
     = {| resp_code := 404; resp_headers := [];
          resp_body := WroteBytes "Not Found" |})
  ∧ (services shared = ∅ →
       do_GET shared "/status"
       = {| resp_code := 200;
            resp_headers := [("Content-type", "application/json")];
            resp_body :=
              WroteJson
                (JObj [ ("manager_pid", JInt (Z.of_nat (manager_pid shared)));
                        ("api_url", JStr "http://localhost:8000/status");
                        ("services", JObj []) ]) |})
  ∧ ((∃ doc, resp_body (do_GET shared "/status") = WroteJson doc)
     ↔ services shared = ∅).
Proof.
  assert (Hempty : services shared = ∅ →
            do_GET shared "/status"
            = {| resp_code := 200;
                 resp_headers := [("Content-type", "application/json")];
                 resp_body :=
                   WroteJson
                     (JObj [ ("manager_pid",
                               JInt (Z.of_nat (manager_pid shared)));
                             ("api_url", JStr "http://localhost:8000/status");
                             ("services", JObj []) ]) |}).
  { intros He. unfold do_GET, build_status_copy.
    rewrite He, map_to_list_empty. reflexivity. }
  split_and!.
  - apply do_GET_not_found.
  - exact Hempty.
  - split.
    + intros [doc Hdoc].
      destruct (decide (services shared = ∅)) as [He|Hne]; [done|].
      rewrite (do_GET_status_nonempty_raises shared Hne) in Hdoc.
      discriminate Hdoc.
    + intros He. rewrite (Hempty He). by eexists.
Qed.

Lemma status_query_answers_only_for_an_empty_store_witness :
  "/health" ≠ "/status"
  ∧ resp_code (do_GET (shared SampleMain.boot) "/health") = 404%Z
  ∧ services (shared SampleMain.boot) = ∅
  ∧ resp_code (do_GET (shared SampleMain.boot) "/status") = 200%Z.
Proof.
  destruct (status_query_answers_only_for_an_empty_store
              (shared SampleMain.boot) "/health") as (H404 & H200 & _).
  assert (Hne : "/health" ≠ "/status") by discriminate.
  assert (He : services (shared SampleMain.boot) = ∅) by reflexivity.
  split_and!; [done| |done|].
  - by rewrite (H404 Hne).
  - by rewrite (H200 He).
Defined.

(** ** The Supervisor, pass by pass *)

Lemma statuses_cons (e : event) (t : list event) :
  statuses (e :: t)
  = match e with EvStatus v => v :: statuses t | _ => statuses t end.
Proof. by destruct e. Qed.

Lemma statuses_log_app command res (t : list event) :
  statuses (error_log command res ++ t) = statuses t.
Proof. by destruct res. Qed.

Ltac statuses_solve :=
  repeat first [rewrite statuses_log_app
               | rewrite statuses_cons; cbv beta iota];
  reflexivity.

(** X7. A first start with nothing in the way: the checkout is there or the
    clone works, the local and remote hashes agree, [autoexec.txt] names a
    script that exists and the worker can be started. Starting from
    [initializing], the Supervisor writes [cloning] and then [running] and
    nothing else, holds the worker and publishes its pid and the name of
    the script. *)
Theorem clean_start_goes_through_cloning_to_running
    cfg self_pid ienv env content p :
  git_dir_exists ienv = true ∨ output_of (clone_result ienv) ≠ None →
  update_available env = false →
  autoexec_exists env = true →
  autoexec_read env = inl content →
  Py.strip content ≠ EmptyString →
  script_exists env = true →
  popen env = inl p →
  let '(r, s', t) := manage_service cfg self_pid ienv [env] in
  r = Next tt
  ∧ status (initial_status cfg self_pid) = initializing
  ∧ statuses t = [cloning; running]
  ∧ status (service_status s') = running
  ∧ child_process s' = Some p
  ∧ script_pid (service_status s') = Some p
  ∧ script_to_run (service_status s') = Some (Py.strip content)
  ∧ [EvRegister (cfg_path cfg);
     EvPopen (Py.strip content) (cfg_path cfg)] `sublist_of` t.
Proof.
  intros Hco Hu Hae Har Hne Hse Hpp.
  destruct ienv as [gd cr], env as [fr lr rr po pu ae ar se pp].
  cbn [git_dir_exists clone_result autoexec_exists autoexec_read
       script_exists popen] in *.
  cbv [update_available local_result remote_result] in Hu.
  subst ae ar se pp.
  apply String.eqb_neq in Hne.
  cbv [manage_service for_each initial_status]. sup_run.
  all: try discriminate Hne.
  all: try (destruct Hco as [Hco|Hco]; [discriminate Hco|congruence]).
  all: split_and!; [reflexivity | reflexivity | statuses_solve
                   | reflexivity.. | sublist_solve].
Qed.

Lemma clean_start_goes_through_cloning_to_running_witness :
  let '(r, s', t) :=
    manage_service Sample.cfg 101 Sample.checkout_present [Sample.quiet] in
  r = Next tt ∧ statuses t = [cloning; running]
  ∧ child_process s' = Some 8.
Proof.
  pose proof (clean_start_goes_through_cloning_to_running
                Sample.cfg 101 Sample.checkout_present Sample.quiet
                "app.py" 8 (or_introl eq_refl) eq_refl eq_refl eq_refl) as H.
  destruct (manage_service Sample.cfg 101 Sample.checkout_present
              [Sample.quiet]) as [[r s'] t].
  destruct H as (Hr & _ & Hst & _ & Hch & _); [discriminate|done..|].
  done.
Defined.

(** X8. A healthy worker is left alone: when the Supervisor holds a worker
    that is still running and there is no update, the pass runs the three
    git commands and sleeps. The status record and the worker are exactly
    as before, nothing is signalled and nothing is launched. *)
Theorem quiet_pass_changes_nothing cfg env s c :
  child_process s = Some c →
  poll env = None →
  update_available env = false →
  loop_iteration cfg env s
  = (Next tt, s,
     EvRun fetch_cmd (cfg_path cfg) :: error_log fetch_cmd (fetch_result env)
     ++ EvRun head_cmd (cfg_path cfg) :: error_log head_cmd (local_result env)
     ++ EvRun (remote_cmd cfg) (cfg_path cfg)
        :: error_log (remote_cmd cfg) (remote_result env)
     ++ [EvSleep GIT_CHECK_INTERVAL]).
Proof.
  intros Hc Hp Hu.
  destruct env as [fr lr rr po pu ae ar se pp], s as [[] ch].
  cbn [child_process poll] in *.
  cbv [update_available local_result remote_result] in Hu.
  subst ch po. sup_run. reflexivity.
Qed.

Lemma quiet_pass_changes_nothing_witness :
  child_process Sample.with_worker = Some 7
  ∧ poll Sample.quiet = None
  ∧ update_available Sample.quiet = false
  ∧ (loop_iteration Sample.cfg Sample.quiet Sample.with_worker).1.2
    = Sample.with_worker.
Proof.
  split_and!; [reflexivity..|].
  by rewrite (quiet_pass_changes_nothing
                Sample.cfg Sample.quiet Sample.with_worker 7
                eq_refl eq_refl eq_refl).
Defined.

Ltac in_list_cases H :=
  repeat first
    [ apply elem_of_nil in H; destruct H
    | apply elem_of_cons in H as [H|H];
      [first [discriminate H | injection H as -> ->]|]
    | apply elem_of_app in H as [H|H];
      [apply error_log_only_logs in H as [? H]; discriminate H|] ].

(** X9. Without an entry point nothing is launched: when [autoexec.txt] is
    missing, or is empty once stripped, or names a script that is not
    there, the pass starts no worker and never writes [running]. If the
    launch logic was entered at all, the pass ends in the sleep and a
    [continue] with no worker held; the name read from the file is
    published even though the script is missing. *)
Theorem launch_needs_entry_point_and_script cfg env s :
  (autoexec_exists env = false
   ∨ ∃ content, autoexec_read env = inl content
                ∧ (Py.strip content = EmptyString
                   ∨ script_exists env = false)) →
  let '(r, s', t) := loop_iteration cfg env s in
  (∀ script cwd, ¬ EvPopen script cwd ∈ t)
  ∧ ¬ EvStatus running ∈ t
  ∧ (launch_attempted cfg t →
       r = Continue ∧ child_process s' = None
       ∧ last t = Some (EvSleep GIT_CHECK_INTERVAL))
  ∧ (launch_attempted cfg t → autoexec_exists env = true →
       ∀ content, autoexec_read env = inl content →
                  script_to_run (service_status s')
                  = Some (Py.strip content)).
Proof.
  intros Hcase.
  destruct env as [fr lr rr po pu ae ar se pp], s as [[] ch].
  cbn [autoexec_exists autoexec_read script_exists] in Hcase.
  destruct Hcase as [-> | (content & -> & [Hs | ->])]; sup_run.
  all: try match goal with
           | H : (Py.strip _ =? EmptyString) = false |- _ =>
               apply String.eqb_neq in H; congruence
           end.
  all: split_and!;
    [ intros ?? Hin; not_in_list Hin
    | intros Hin; not_in_list Hin
    | unfold launch_attempted, autoexec_path; intros Hin;
      first [ exfalso; not_in_list Hin
            | split_and!; [reflexivity|reflexivity|last_solve] ]
    | unfold launch_attempted, autoexec_path; intros Hin Hae c Hc;
      first [ discriminate Hae | exfalso; not_in_list Hin
            | by simplify_eq ] ].
Qed.

Lemma launch_needs_entry_point_and_script_witness :
  let env := {| fetch_result := Completed "done";
                local_result := Completed "abc";
                remote_result := Completed "abc";
                poll := None;
                pull_result := Completed "done";
                autoexec_exists := true;
                autoexec_read := inl "app.py";
                script_exists := false;
                popen := inl 8 |} in
  (∃ content, autoexec_read env = inl content ∧ script_exists env = false)
  ∧ (∀ script cwd,
       ¬ EvPopen script cwd ∈ (loop_iteration Sample.cfg env Sample.fresh_sup).2)
  ∧ script_to_run
      (service_status (loop_iteration Sample.cfg env Sample.fresh_sup).1.2)
    = Some "app.py".
Proof.
  intros env.
  assert (Hcase : autoexec_exists env = false
                  ∨ ∃ content, autoexec_read env = inl content
                               ∧ (Py.strip content = EmptyString
                                  ∨ script_exists env = false)).
  { right. exists "app.py". split; [reflexivity|]. by right. }
  pose proof (launch_needs_entry_point_and_script
                Sample.cfg env Sample.fresh_sup Hcase) as H.
  destruct (loop_iteration Sample.cfg env Sample.fresh_sup)
    as [[r s'] t] eqn:Hrun.
  destruct H as (Hno & _ & _ & Hname). cbn [fst snd].
  split; [by exists "app.py"|]. split; [exact Hno|].
  apply (Hname) with (content := "app.py"); [|reflexivity..].
  injection Hrun as _ _ <-. vm_compute. in_list.
Defined.

(** X10. A worker is launched only when none is held: in a pass that
    starts a worker, the Supervisor held none when the pass began, or the
    one it held had exited, or that one was terminated and waited for
    earlier in the pass. The worker is started in the checkout, and the
    Supervisor ends the pass holding what [Popen] gave it. *)
Theorem worker_is_launched_only_when_none_is_held cfg env s script cwd :
  EvPopen script cwd ∈ (loop_iteration cfg env s).2 →
  let '(_, s', t) := loop_iteration cfg env s in
  cwd = cfg_path cfg
  ∧ (child_process s = None
     ∨ (∃ c rc, child_process s = Some c ∧ poll env = Some rc)
     ∨ (∃ c, child_process s = Some c
             ∧ [EvChildTerminate c; EvChildWait c; EvPopen script cwd]
                 `sublist_of` t))
  ∧ (∀ p, popen env = inl p → child_process s' = Some p).
Proof.
  destruct env as [fr lr rr po pu ae ar se pp], s as [[] ch].
  sup_run; cbn [snd]; intros Hin.
  all: first [ exfalso; not_in_list Hin | in_list_cases Hin ].
  all: split_and!;
    [ reflexivity
    | first [ left; reflexivity
            | right; left; by eexists _, _
            | right; right; eexists; split; [reflexivity|sublist_solve] ]
    | intros q Hq; by simplify_eq ].
Qed.

Lemma worker_is_launched_only_when_none_is_held_witness :
  EvPopen "app.py" "/srv/repos/deployapp"
    ∈ (loop_iteration Sample.cfg Sample.update_ok Sample.with_worker).2
  ∧ [EvChildTerminate 7; EvChildWait 7;
     EvPopen "app.py" "/srv/repos/deployapp"]
      `sublist_of`
      (loop_iteration Sample.cfg Sample.update_ok Sample.with_worker).2.
Proof.
  assert (Hin : EvPopen "app.py" "/srv/repos/deployapp"
                  ∈ (loop_iteration Sample.cfg Sample.update_ok
                       Sample.with_worker).2)
    by (vm_compute; in_list).
  split; [exact Hin|].
  pose proof (worker_is_launched_only_when_none_is_held
                Sample.cfg Sample.update_ok Sample.with_worker _ _ Hin) as H.
  destruct (loop_iteration Sample.cfg Sample.update_ok Sample.with_worker)
    as [[r s'] t].
  destruct H as (_ & [Hnone|[(c & rc & _ & Hpoll)|(c & Hc & Hsub)]] & _).
  - discriminate Hnone.
  - discriminate Hpoll.
  - injection Hc as <-. exact Hsub.
Defined.

Lemma emit_length_le (buf : list string) (e : string) :
  (length (emit buf e) ≤ MAX_LOG_ENTRIES)%nat.
Proof. unfold emit, emit_cap. rewrite trim_length. lia. Qed.

Lemma loop_iteration_inv cfg self_pid env s :
  sup_inv cfg self_pid s →
  sup_inv cfg self_pid (loop_iteration cfg env s).1.2.
Proof.
  unfold sup_inv.
  destruct env as [fr lr rr po pu ae ar se pp], s as [[] ch].
  cbn [service_status child_process url branch repo_path service_manager_pid
       script_pid status logs].
  intros (Hurl & Hbr & Hrp & Hpid & Hsp & Hrun & Hlen).
  sup_run; cbn [fst snd].
  all: split_and!; try done; try apply emit_length_le.
  all: try (intros _; by eexists).
Qed.

Lemma manage_service_init_inv cfg self_pid ienv s :
  sup_inv cfg self_pid s →
  sup_inv cfg self_pid (manage_service_init cfg ienv s).1.2.
Proof.
  unfold sup_inv.
  destruct ienv as [gd cr], s as [[] ch].
  cbn [service_status child_process url branch repo_path service_manager_pid
       script_pid status logs].
  intros (Hurl & Hbr & Hrp & Hpid & Hsp & Hrun & Hlen).
  sup_run; cbn [fst snd].
  all: split_and!; try done; try apply emit_length_le.
Qed.

(** X11. However long a Supervisor runs and whatever the outside world
    answers, its status record keeps the URL, branch and path of its
    definition and its own pid; the worker pid it publishes is the worker
    it holds; [running] is shown only while a worker is held; and the log
    buffer stays within [MAX_LOG_ENTRIES]. *)
Theorem supervisor_state_stays_consistent cfg self_pid ienv envs :
  sup_inv cfg self_pid (manage_service cfg self_pid ienv envs).1.2.
Proof.
  unfold manage_service. apply (bind_preserves (sup_inv cfg self_pid)).
  - apply manage_service_init_inv. unfold sup_inv. cbn.
    split_and!; try done. unfold MAX_LOG_ENTRIES. lia.
  - intros _ s1 Hs1. apply for_each_preserves; [|done].
    intros env s2. apply loop_iteration_inv.
Qed.

(** ** The reconciliation cycle, loop by loop *)

Lemma for_each_idle {S A} (body : A → M S unit) (xs : list A) (s : S) :
  (∀ x, x ∈ xs →
        body x s = (Next tt, s, []) ∨ body x s = (Continue, s, [])) →
  for_each xs body s = (Next tt, s, []).
Proof.
  induction xs as [|x xs IH]; intros Hbody; [done|].
  cbn [for_each].
  assert (Hrest : for_each xs body s = (Next tt, s, [])).
  { apply IH. intros y Hy. apply Hbody. by right. }
  destruct (Hbody x (list_elem_of_here _ _)) as [-> | ->];
    by rewrite Hrest.
Qed.

(** X12. A cycle with nothing to do does nothing: when the keys of the
    store are the keys of the definitions file and every tracked Supervisor
    is alive, the cycle leaves the whole state as it was, whatever the
    state of the API server; it logs what the parser logs and sleeps. *)
Theorem settled_cycle_changes_nothing lib env s :
  dom (services (shared s)) = dom (desired_of lib (services_file env)) →
  (∀ k q, managed_processes s !! k = Some q →
          k = "_api_server" ∨ is_alive s q = true) →
  ∃ tp,
    main_cycle lib env s = (Next tt, s, tp ++ [EvSleep MAIN_LOOP_SLEEP])
    ∧ ∀ e, e ∈ tp → log_event e.
Proof.
  intros Hdom Halive. unfold main_cycle, reconcile.
  cbv [mbind M_mbind M_bind get].
  destruct (parse_services_file_eq lib (services_file env) s)
    as (tp & -> & Htp).
  unfold current_paths. rewrite Hdom, difference_diag_L, elements_empty.
  cbn [for_each mret M_mret M_ret].
  rewrite (for_each_idle (health_check _)).
  - cbn [sleep tell app]. exists tp. done.
  - intros [k q] Hin. apply elem_of_map_to_list in Hin.
    pose proof (health_check_eq
                  (desired_of lib (services_file env)) k q s) as Heq.
    destruct (String.eqb_spec k "_api_server") as [->|Hne]; [by right|].
    destruct (Halive k q Hin) as [?|Ha]; [done|].
    rewrite Ha in Heq. by left.
Qed.

Lemma settled_cycle_changes_nothing_witness :
  dom (services (shared SampleMain.serving))
  = dom (desired_of SampleMain.lib (services_file SampleMain.one_service))
  ∧ (main_cycle SampleMain.lib SampleMain.one_service SampleMain.serving).1.2
    = SampleMain.serving.
Proof.
  assert (Hd : dom (services (shared SampleMain.serving))
               = dom (desired_of SampleMain.lib
                        (services_file SampleMain.one_service)))
    by (vm_compute; reflexivity).
  split; [exact Hd|].
  destruct (settled_cycle_changes_nothing
              SampleMain.lib SampleMain.one_service SampleMain.serving Hd)
    as (tp & -> & _); [|reflexivity].
  intros k q Hk. cbn [SampleMain.serving managed_processes] in Hk.
  destruct (decide ("_api_server" = k)) as [<-|Hne]; [by left|].
  rewrite lookup_insert_ne in Hk by done.
  apply lookup_singleton_Some in Hk as [_ <-]. right.
  vm_compute. reflexivity.
Defined.

(** ** The health check *)

(** A process that has exited is left as it is by the removal loop. *)
Lemma removal_keeps_dead env xs s q P :
  procs s !! q = Some P → proc_alive P = false →
  procs (for_each xs (stop_removed env) s).1.2 !! q = Some P.
Proof.
  intros HP Hd.
  apply (for_each_preserves (λ s1, procs s1 !! q = Some P)); [|done].
  intros x s1 H1.
  destruct (stop_removed_eq env x s1) as (s' & t & -> & _ & _ & Hpr & _).
  cbn [fst snd]. rewrite Hpr.
  destruct (managed_processes s1 !! x) as [q0|]; [|done].
  destruct (is_alive s1 q0 && join_exits env q0) eqn:E; [|done].
  destruct (decide (q0 = q)) as [->|Hne].
  - unfold is_alive in E. by rewrite H1, Hd in E.
  - by rewrite lookup_alter_ne.
Qed.

(** The health check on a dead process, with the name it passes on. *)
Lemma health_check_dead_eq desired k q s :
  String.eqb k "_api_server" = false → is_alive s q = false →
  match desired !! k with
  | Some cfg =>
      let p := fresh (dom (procs s)) in
      ∃ msg,
        health_check desired (k, q) s
        = (Next tt,
           on_managed (insert k p)
             (on_procs
                (insert p
                   {| proc_name :=
                        from_option proc_name EmptyString (procs s !! q);
                      proc_target := ManageService cfg;
                      proc_alive := true |}) s),
           [EvRootLog WARNING msg; EvStart k p cfg])
  | None =>
      ∃ msg, health_check desired (k, q) s
             = (Raise (Py.KeyError k), s, [EvRootLog WARNING msg])
  end.
Proof.
  intros Hk Ha. unfold health_check, getitem. rewrite Hk.
  main_unfold. rewrite Ha. cbn [negb]. main_unfold.
  destruct (desired !! k) as [cfg|]; main_unfold; by eexists.
Qed.

Lemma restart_inv_nil desired s : restart_inv desired s [] s [].
Proof.
  split; try done. intros k q P cfg Hin. by apply elem_of_nil in Hin.
Qed.

Lemma restart_inv_step desired s done k q s1 t1 r s' t' :
  NoDup (done ++ [(k, q)]).*1 →
  restart_inv desired s done s1 t1 →
  health_check desired (k, q) s1 = (r, s', t') →
  restart_inv desired s (done ++ [(k, q)]) s' (t1 ++ t').
Proof.
  intros Hnd [Hdom Hold Hapi Hpend Hrs] Hstep.
  rewrite fmap_app in Hnd. apply NoDup_app in Hnd as (_ & Hfresh_k & _).
  assert (Hk_new : k ∉ done.*1).
  { intros Hin. apply (Hfresh_k k Hin). cbn. left. }
  assert (Hpend' : ∀ k0, k0 ∉ (done ++ [(k, q)]).*1 →
            managed_processes s1 !! k0 = managed_processes s !! k0).
  { intros k0 Hk0. apply Hpend. intros Hin. apply Hk0.
    rewrite fmap_app. apply elem_of_app. by left. }
  assert (Hne_pend : ∀ k0, k0 ∉ (done ++ [(k, q)]).*1 → k ≠ k0).
  { intros k0 Hk0 <-. apply Hk0. rewrite fmap_app. apply elem_of_app.
    right. cbn. left. }
  assert (Hold_done : ∀ k0 q0 P cfg,
            (k0, q0) ∈ done → k0 ≠ "_api_server" →
            procs s !! q0 = Some P → proc_alive P = false →
            desired !! k0 = Some cfg →
            k ≠ k0
            ∧ ∃ q', EvStart k0 q' cfg ∈ t1 ++ t' ∧ (q' ∉ dom (procs s))
                    ∧ managed_processes s1 !! k0 = Some q'
                    ∧ procs s1 !! q'
                      = Some {| proc_name := proc_name P;
                                proc_target := ManageService cfg;
                                proc_alive := true |}).
  { intros k0 q0 P cfg Hin Hk0 HP Hd Hc. split.
    - intros <-. apply Hk_new. apply list_elem_of_fmap.
      by exists (k, q0).
    - destruct (Hrs k0 q0 P cfg Hin Hk0 HP Hd Hc)
        as (q' & Hev & Hq' & Hm & Hp).
      exists q'. split_and!; try done. apply elem_of_app. by left. }
  assert (Hdead : ∀ P, procs s !! q = Some P → proc_alive P = false →
            procs s1 !! q = Some P ∧ is_alive s1 q = false).
  { intros P HP Hd.
    assert (H1 : procs s1 !! q = Some P).
    { rewrite Hold; [done|]. by apply elem_of_dom. }
    split; [done|]. unfold is_alive. by rewrite H1. }
  pose proof (health_check_eq desired k q s1) as Heq.
  destruct (String.eqb k "_api_server") eqn:Hk.
  { rewrite Heq in Hstep. injection Hstep as <- <- <-.
    apply String.eqb_eq in Hk. split; try done.
    intros k0 q0 P cfg [Hin|Hin]%elem_of_app Hk0 HP Hd Hc.
    - by destruct (Hold_done k0 q0 P cfg Hin Hk0 HP Hd Hc) as [_ ?].
    - apply list_elem_of_singleton in Hin. congruence. }
  destruct (is_alive s1 q) eqn:Ha.
  { rewrite Heq in Hstep. injection Hstep as <- <- <-.
    split; try done.
    intros k0 q0 P cfg [Hin|Hin]%elem_of_app Hk0 HP Hd Hc.
    - by destruct (Hold_done k0 q0 P cfg Hin Hk0 HP Hd Hc) as [_ ?].
    - apply list_elem_of_singleton in Hin. injection Hin as -> ->.
      destruct (Hdead P HP Hd) as [_ ?]. congruence. }
  clear Heq. pose proof (health_check_dead_eq desired k q s1 Hk Ha) as Heq.
  apply String.eqb_neq in Hk.
  destruct (desired !! k) as [cfg|] eqn:Hcfg.
  - cbn zeta in Heq. destruct Heq as (msg & Heq).
    rewrite Heq in Hstep. injection Hstep as <- <- <-.
    set (p := fresh (dom (procs s1))) in *.
    assert (Hp : p ∉ dom (procs s1)) by apply is_fresh.
    assert (Hp0 : p ∉ dom (procs s)) by (intros ?; by apply Hp, Hdom).
    split; cbn [on_managed on_procs shared procs managed_processes].
    + rewrite dom_insert_L. intros x Hx. apply elem_of_union. right.
      by apply Hdom.
    + intros q0 Hq0. rewrite lookup_insert_ne; [by apply Hold|].
      by intros ->.
    + by rewrite lookup_insert_ne.
    + intros k0 Hk0. rewrite lookup_insert_ne; [by apply Hpend'|].
      by apply Hne_pend.
    + intros k0 q0 P cfg0 [Hin|Hin]%elem_of_app Hk0 HP Hd Hc.
      * destruct (Hold_done k0 q0 P cfg0 Hin Hk0 HP Hd Hc)
          as (Hne & q' & Hev & Hq' & Hm & Hpr).
        exists q'. split_and!; try done.
        -- by rewrite lookup_insert_ne.
        -- rewrite lookup_insert_ne; [done|]. intros ->. apply Hp.
           by apply elem_of_dom.
      * apply list_elem_of_singleton in Hin. injection Hin as -> ->.
        destruct (Hdead P HP Hd) as [HP1 _]. rewrite HP1. cbn [from_option].
        assert (cfg0 = cfg) as -> by congruence.
        exists p. split_and!; try done.
        -- apply elem_of_app. right. right. left.
        -- by rewrite lookup_insert_eq.
        -- by rewrite lookup_insert_eq.
  - destruct Heq as [msg Heq].
    rewrite Heq in Hstep. injection Hstep as <- <- <-.
    split; try done.
    intros k0 q0 P cfg [Hin|Hin]%elem_of_app Hk0 HP Hd Hc.
    + by destruct (Hold_done k0 q0 P cfg Hin Hk0 HP Hd Hc) as [_ ?].
    + apply list_elem_of_singleton in Hin. injection Hin as -> ->.
      congruence.
Qed.

(** The health check over the table it was given. *)
Lemma health_restarts desired s :
  ∃ done,
    done `prefix_of` map_to_list (managed_processes s)
    ∧ restart_inv desired s done
        (for_each (map_to_list (managed_processes s))
           (health_check desired) s).1.2
        (for_each (map_to_list (managed_processes s))
           (health_check desired) s).2
    ∧ ((for_each (map_to_list (managed_processes s))
          (health_check desired) s).1.1 = Next tt →
       done = map_to_list (managed_processes s)).
Proof.
  destruct (for_each_inv (restart_inv desired s) (health_check desired)
              (map_to_list (managed_processes s)) s)
    as (done & Hpre & HI & Hnext & _).
  - apply restart_inv_nil.
  - intros done [k q] s1 t1 r s' t' Hpre HI Hstep.
    eapply restart_inv_step; [|done..].
    destruct Hpre as [rest Hrest].
    pose proof (NoDup_fst_map_to_list (managed_processes s)) as Hnd.
    rewrite Hrest, fmap_app in Hnd. by apply NoDup_app in Hnd as [? _].
  - by exists done.
Qed.

(** The removal loop signals live processes only. *)
Lemma removal_signals_live env xs s q :
  EvTerminate q ∈ (for_each xs (stop_removed env) s).2 →
  is_alive s q = true.
Proof.
  destruct (for_each_inv
              (λ (_ : list string) s1 t1,
                 (∀ q, is_alive s1 q = true → is_alive s q = true)
                 ∧ (∀ q, EvTerminate q ∈ t1 → is_alive s q = true))
              (stop_removed env) xs s)
    as (done & _ & [_ HI] & _).
  - split; [done|]. intros q0 Hin. by apply elem_of_nil in Hin.
  - intros _ x s1 t1 r s' t' _ [Hmono Hterm] Hstep.
    destruct (stop_removed_eq env x s1)
      as (s'' & t'' & Heq & _ & _ & Hpr & Ht).
    rewrite Heq in Hstep. injection Hstep as <- <- <-. split.
    + intros q0 Hq0. apply Hmono. unfold is_alive in Hq0 |- *.
      rewrite Hpr in Hq0.
      destruct (managed_processes s1 !! x) as [q1|]; [|done].
      destruct (is_alive s1 q1 && join_exits env q1); [|done].
      destruct (decide (q1 = q0)) as [->|Hne].
      * rewrite lookup_alter_eq in Hq0.
        by destruct (procs s1 !! q0) as [P0|].
      * by rewrite lookup_alter_ne in Hq0.
    + intros q0 [Hin|Hin]%elem_of_app; [by apply Hterm|].
      rewrite Ht in Hin. apply elem_of_cons in Hin as [[=]|Hin].
      rewrite !elem_of_app in Hin. destruct Hin as [Hin|[Hin|Hin]].
      * destruct (managed_processes s1 !! x) as [q1|];
          [|by apply elem_of_nil in Hin].
        destruct (is_alive s1 q1) eqn:Ha; [|by apply elem_of_nil in Hin].
        apply elem_of_cons in Hin as [[= ->]|Hin]; [by apply Hmono|].
        apply list_elem_of_singleton in Hin. discriminate Hin.
      * destruct (decide (x ∈ dom (services (shared s1))));
          [|by apply elem_of_nil in Hin].
        apply list_elem_of_singleton in Hin. discriminate Hin.
      * apply list_elem_of_singleton in Hin. discriminate Hin.
  - apply HI.
Qed.

(** X13. A Supervisor that has exited is replaced by the health check: for
    a key of the store that still has a definition and whose tracked process
    is dead, a cycle that runs to its end starts one new process, under the
    dead one's name and with the key's definition, and tracks it under the
    key; the dead process is neither signalled nor touched. *)
Theorem dead_supervisor_is_replaced lib env s k q P cfg :
  k ≠ "_api_server" →
  k ∈ dom (services (shared s)) →
  desired_of lib (services_file env) !! k = Some cfg →
  managed_processes s !! k = Some q →
  procs s !! q = Some P → proc_alive P = false →
  (main_cycle lib env s).1.1 = Next tt →
  ∃ q',
    EvStart k q' cfg ∈ (main_cycle lib env s).2
    ∧ (q' ∉ dom (procs s))
    ∧ managed_processes (main_cycle lib env s).1.2 !! k = Some q'
    ∧ procs (main_cycle lib env s).1.2 !! q'
      = Some {| proc_name := proc_name P;
                proc_target := ManageService cfg;
                proc_alive := true |}
    ∧ procs (main_cycle lib env s).1.2 !! q = Some P
    ∧ ¬ EvTerminate q ∈ (main_cycle lib env s).2.
Proof.
  intros Hk Hst Hcfg Hm HP Hd.
  pose proof (cycle_signals lib env s) as Hsig.
  destruct (main_cycle_run lib env s)
    as (tp & s1 & t1 & s2 & t2 & r3 & s3 & t3
        & Hrm_eq & Hrm & Had_eq & Had & Hhc_eq & Htp & _ & Heq).
  set (desired := desired_of lib (services_file env)) in *.
  rewrite Heq in Hsig |- *. cbn [fst snd]. intros ->.
  assert (HP1 : procs s1 !! q = Some P).
  { pose proof (removal_keeps_dead env
                  (elements (current_paths s ∖ dom desired)) s q P HP Hd)
      as H1. by rewrite Hrm_eq in H1. }
  assert (HP2 : procs s2 !! q = Some P).
  { rewrite (ad_procs_old _ _ _ _ _ Had); [done|]. by apply elem_of_dom. }
  assert (Hm2 : managed_processes s2 !! k = Some q).
  { rewrite (ad_managed_other _ _ _ _ _ Had).
    - rewrite (rm_managed _ _ _ _ _ Hrm), decide_False; [done|].
      intros [_ Hno]%elem_of_elements%elem_of_difference. apply Hno.
      by apply elem_of_dom.
    - intros [_ Hno]%elem_of_elements%elem_of_difference. done. }
  assert (hc_events_of : ∀ e, e ∈ t3 →
            log_event e ∨ ∃ k0 q0 c0, e = EvStart k0 q0 c0).
  { destruct (health_loop desired (map_to_list (managed_processes s2)) s2)
      as (r & s3' & t3' & dn & Hl & _ & Hhc & _).
    rewrite Hhc_eq in Hl. injection Hl as <- <- <-. intros e He.
    destruct (hc_events _ _ _ _ _ Hhc _ He)
      as [?|(k0 & q0 & c0 & _ & -> & _)]; [by left|right; eauto]. }
  destruct (health_restarts desired s2) as (done & _ & HI & Hfull).
  rewrite Hhc_eq in HI, Hfull. cbn [fst snd] in HI, Hfull.
  specialize (Hfull eq_refl). subst done.
  destruct (rs_restarted _ _ _ _ _ HI k q P cfg)
    as (q' & Hev & Hq' & Hmq' & Hpq'); try done.
  { by apply elem_of_map_to_list. }
  exists q'. split_and!; try done.
  - rewrite !elem_of_app. tauto.
  - intros Hin. apply Hq'. apply (ad_dom _ _ _ _ _ Had).
    by rewrite (rm_dom_procs _ _ _ _ _ Hrm).
  - rewrite (rs_procs_old _ _ _ _ _ HI); [done|]. by apply elem_of_dom.
  - intros Hin. rewrite !elem_of_app in Hin.
    destruct Hin as [H|[H|[H|[H|H]]]].
    + destruct (Htp _ H) as (? & ? & [=]).
    + pose proof (removal_signals_live env
                    (elements (current_paths s ∖ dom desired)) s q) as Hl.
      rewrite Hrm_eq in Hl. specialize (Hl H).
      unfold is_alive in Hl. rewrite HP in Hl. congruence.
    + destruct (ad_events _ _ _ _ _ Had _ H)
        as [(? & ? & [=])|(? & ? & ? & [=] & _)].
    + destruct (hc_events_of _ H) as [(? & ? & [=])|(? & ? & ? & [=])].
    + apply list_elem_of_singleton in H. discriminate H.
Qed.

Lemma dead_supervisor_is_replaced_witness :
  ∃ q',
    managed_processes
      (main_cycle SampleMain.lib SampleMain.one_service
         SampleRestart.crashed).1.2 !! SampleMain.key = Some q'
    ∧ q' ∉ dom (procs SampleRestart.crashed).
Proof.
  destruct (dead_supervisor_is_replaced
              SampleMain.lib SampleMain.one_service SampleRestart.crashed
              SampleMain.key 3 (mark_dead SampleMain.supervisor) Sample.cfg)
    as (q' & _ & Hq' & Hm & _).
  - intros H. vm_compute in H. discriminate H.
  - apply elem_of_dom. eexists. vm_compute. reflexivity.
  - vm_compute. reflexivity.
  - vm_compute. reflexivity.
  - vm_compute. reflexivity.
  - reflexivity.
  - vm_compute. reflexivity.
  - exists q'. split; assumption.
Defined.

(** X14. The API server is out of the health check's reach: when its key
    is neither in the store nor in the definitions file, a cycle leaves its
    table entry as it is and starts nothing under that key, and an API
    server that has exited stays as it is: it is not restarted. *)
Theorem api_server_is_never_restarted lib env s :
  "_api_server" ∉ dom (services (shared s)) →
  "_api_server" ∉ dom (desired_of lib (services_file env)) →
  managed_processes (main_cycle lib env s).1.2 !! "_api_server"
  = managed_processes s !! "_api_server"
  ∧ (∀ q cfg, ¬ EvStart "_api_server" q cfg ∈ (main_cycle lib env s).2)
  ∧ (∀ q P, managed_processes s !! "_api_server" = Some q →
            procs s !! q = Some P → proc_alive P = false →
            procs (main_cycle lib env s).1.2 !! q = Some P).
Proof.
  intros Hst Hdes.
  pose proof (cycle_start_explained lib env s) as Hwhy.
  destruct (main_cycle_run lib env s)
    as (tp & s1 & t1 & s2 & t2 & r3 & s3 & t3
        & Hrm_eq & Hrm & Had_eq & Had & Hhc_eq & Htp & _ & Heq).
  set (desired := desired_of lib (services_file env)) in *.
  rewrite Heq in Hwhy |- *. cbn [fst snd] in Hwhy |- *.
  destruct (health_restarts desired s2) as (done & _ & HI & _).
  rewrite Hhc_eq in HI. cbn [fst snd] in HI.
  split_and!.
  - rewrite (rs_api _ _ _ _ _ HI).
    rewrite (ad_managed_other _ _ _ _ _ Had).
    + rewrite (rm_managed _ _ _ _ _ Hrm), decide_False; [done|].
      intros [? _]%elem_of_elements%elem_of_difference. done.
    + intros [? _]%elem_of_elements%elem_of_difference. done.
  - intros q cfg Hin. destruct (Hwhy _ _ _ Hin) as [Hc _].
    apply Hdes. apply elem_of_dom. by eexists.
  - intros q P Hq HP Hd.
    assert (HP1 : procs s1 !! q = Some P).
    { pose proof (removal_keeps_dead env
                    (elements (current_paths s ∖ dom desired)) s q P HP Hd)
        as H1. by rewrite Hrm_eq in H1. }
    assert (HP2 : procs s2 !! q = Some P).
    { rewrite (ad_procs_old _ _ _ _ _ Had); [done|]. by apply elem_of_dom. }
    rewrite (rs_procs_old _ _ _ _ _ HI); [done|]. by apply elem_of_dom.
Qed.

Lemma api_server_is_never_restarted_witness :
  managed_processes
    (main_cycle SampleMain.lib SampleMain.one_service
       SampleRestart.api_down).1.2 !! "_api_server"
  = managed_processes SampleRestart.api_down !! "_api_server"
  ∧ procs
      (main_cycle SampleMain.lib SampleMain.one_service
         SampleRestart.api_down).1.2 !! 2
    = Some {| proc_name := "APIServer"; proc_target := RunApiServer;
              proc_alive := false |}.
Proof.
  destruct (api_server_is_never_restarted
              SampleMain.lib SampleMain.one_service SampleRestart.api_down)
    as (Hm & _ & Hd).
  - apply not_elem_of_dom. vm_compute. reflexivity.
  - apply not_elem_of_dom. vm_compute. reflexivity.
  - split; [exact Hm|].
    apply Hd; vm_compute; reflexivity.
Defined.

(** The health check meets a dead process whose key has no definition. *)
Lemma health_loop_raises desired zs s k q :
  (k, q) ∈ zs → k ≠ "_api_server" → desired !! k = None →
  q ∈ dom (procs s) → is_alive s q = false →
  ∃ k', (for_each zs (health_check desired) s).1.1 = Raise (Py.KeyError k')
        ∧ desired !! k' = None.
Proof.
  intros Hin Hk Hnone. revert s.
  induction zs as [|[k0 q0] zs IH]; intros s Hq Ha.
  { by apply elem_of_nil in Hin. }
  cbn [for_each].
  pose proof (health_check_eq desired k0 q0 s) as Heq.
  destruct (String.eqb k0 "_api_server") eqn:Hk0.
  { rewrite Heq. apply elem_of_cons in Hin as [[= -> ->]|Hin].
    - by apply String.eqb_eq in Hk0.
    - destruct (IH Hin s Hq Ha) as (k' & Hr & Hk'). exists k'.
      by destruct (for_each zs (health_check desired) s) as [[r2 s2] t2]. }
  destruct (is_alive s q0) eqn:Ha0.
  { rewrite Heq. apply elem_of_cons in Hin as [[= -> ->]|Hin];
      [congruence|].
    destruct (IH Hin s Hq Ha) as (k' & Hr & Hk'). exists k'.
    by destruct (for_each zs (health_check desired) s) as [[r2 s2] t2]. }
  destruct (desired !! k0) as [cfg|] eqn:Hc.
  - cbn zeta in Heq. destruct Heq as (msg & name & ->).
    apply elem_of_cons in Hin as [[= -> ->]|Hin]; [congruence|].
    match goal with
    | |- context [for_each zs _ ?s1] =>
        destruct (IH Hin s1) as (k' & Hr & Hk')
    end.
    + cbn [on_managed on_procs procs]. rewrite dom_insert_L.
      apply elem_of_union. by right.
    + unfold is_alive. cbn [on_managed on_procs procs].
      rewrite lookup_insert_ne; [exact Ha|].
      intros Hf. pose proof (is_fresh (dom (procs s))) as Hfr.
      rewrite Hf in Hfr. done.
    + exists k'.
      match goal with
      | |- context [for_each zs _ ?s1] =>
          by destruct (for_each zs (health_check desired) s1)
            as [[r2 s2] t2]
      end.
  - destruct Heq as (msg & ->). by exists k0.
Qed.

(** X15. A tracked Supervisor that has exited, whose key is neither in the
    store nor in the definitions file, ends the main loop: the look-up of
    its definition raises [KeyError] in the health check, the exception
    leaves the cycle, and the cycle does not reach its sleep. *)
Theorem dead_supervisor_without_definition_raises lib env s k q P :
  k ≠ "_api_server" →
  managed_processes s !! k = Some q →
  procs s !! q = Some P → proc_alive P = false →
  k ∉ dom (services (shared s)) →
  k ∉ dom (desired_of lib (services_file env)) →
  ∃ k',
    (main_cycle lib env s).1.1 = Raise (Py.KeyError k')
    ∧ (k' ∉ dom (desired_of lib (services_file env)))
    ∧ ∀ n, ¬ EvSleep n ∈ (main_cycle lib env s).2.
Proof.
  intros Hk Hm HP Hd Hst Hdes.
  destruct (main_cycle_run lib env s)
    as (tp & s1 & t1 & s2 & t2 & r3 & s3 & t3
        & Hrm_eq & Hrm & Had_eq & Had & Hhc_eq & Htp & _ & Heq).
  set (desired := desired_of lib (services_file env)) in *.
  rewrite Heq. cbn [fst snd].
  assert (HP1 : procs s1 !! q = Some P).
  { pose proof (removal_keeps_dead env
                  (elements (current_paths s ∖ dom desired)) s q P HP Hd)
      as H1. by rewrite Hrm_eq in H1. }
  assert (HP2 : procs s2 !! q = Some P).
  { rewrite (ad_procs_old _ _ _ _ _ Had); [done|]. by apply elem_of_dom. }
  assert (Hm2 : managed_processes s2 !! k = Some q).
  { rewrite (ad_managed_other _ _ _ _ _ Had).
    - rewrite (rm_managed _ _ _ _ _ Hrm), decide_False; [done|].
      intros [? _]%elem_of_elements%elem_of_difference. done.
    - intros [? _]%elem_of_elements%elem_of_difference. done. }
  destruct (health_loop_raises desired (map_to_list (managed_processes s2))
              s2 k q) as (k' & Hr & Hk'); try done.
  { by apply elem_of_map_to_list. }
  { by apply not_elem_of_dom. }
  { by apply elem_of_dom. }
  { unfold is_alive. by rewrite HP2. }
  destruct (health_loop desired (map_to_list (managed_processes s2)) s2)
    as (r & s3' & t3' & dn & Hl & _ & Hhc & _).
  rewrite Hhc_eq in Hl, Hr. injection Hl as <- <- <-.
  cbn [fst snd] in Hr. subst r3. exists k'. split_and!.
  - done.
  - by apply not_elem_of_dom.
  - intros n Hin. rewrite !elem_of_app in Hin.
    destruct Hin as [H|[H|[H|[H|H]]]].
    + destruct (Htp _ H) as (? & ? & [=]).
    + destruct (rm_events _ _ _ _ _ Hrm _ H)
        as [(? & ? & [=])|[(? & [=])|[(? & [=])|(? & [=])]]].
    + destruct (ad_events _ _ _ _ _ Had _ H)
        as [(? & ? & [=])|(? & ? & ? & [=] & _)].
    + destruct (hc_events _ _ _ _ _ Hhc _ H)
        as [(? & ? & [=])|(? & ? & ? & ? & [=] & _)].
    + by apply elem_of_nil in H.
Qed.

Lemma dead_supervisor_without_definition_raises_witness :
  (main_cycle SampleMain.lib SampleMain.emptied_stubborn
     SampleRestart.orphaned).1.1
  = Raise (Py.KeyError SampleMain.key).
Proof.
  destruct (dead_supervisor_without_definition_raises
              SampleMain.lib SampleMain.emptied_stubborn
              SampleRestart.orphaned SampleMain.key 3
              (mark_dead SampleMain.supervisor))
    as (k' & Hr & _).
  - intros H. vm_compute in H. discriminate H.
  - vm_compute. reflexivity.
  - vm_compute. reflexivity.
  - reflexivity.
  - apply not_elem_of_dom. vm_compute. reflexivity.
  - apply not_elem_of_dom. vm_compute. reflexivity.
  - vm_compute. reflexivity.
Defined.

(** ** The [finally] clause *)

(** One pass of the shutdown loop. *)
Lemma stop_process_eq env k q s :
  stop_process env (k, q) s
  = if is_alive s q then
      (Next tt,
       if join_exits env q then on_procs (alter mark_dead q) s else s,
       [EvRootLog INFO ("Stopping process for " +:+ k +:+ "...");
        EvTerminate q; EvJoin q 5])
    else (Next tt, s, []).
Proof.
  unfold stop_process. main_unfold.
  destruct (is_alive s q); main_unfold; [|done].
  by destruct (join_exits env q).
Qed.

Lemma shutdown_inv_nil s : shutdown_inv s [] s [].
Proof.
  split; try done.
  - intros q Ha. by left.
  - intros k q Hin. by apply elem_of_nil in Hin.
  - intros q Hin. by apply elem_of_nil in Hin.
  - intros e Hin. by apply elem_of_nil in Hin.
Qed.

Lemma shutdown_inv_step env s done k q s1 t1 r s' t' :
  shutdown_inv s done s1 t1 →
  stop_process env (k, q) s1 = (r, s', t') →
  shutdown_inv s (done ++ [(k, q)]) s' (t1 ++ t').
Proof.
  intros [Hsh Hmg Hmono Hsig Hsgn Hterm Hun Hev] Hstep.
  rewrite stop_process_eq in Hstep.
  destruct (is_alive s1 q) eqn:Ha.
  - injection Hstep as <- <- <-.
    assert (Hshape : ∀ q0,
              is_alive (if join_exits env q
                        then on_procs (alter mark_dead q) s1 else s1) q0
              = true → is_alive s1 q0 = true ∧ (join_exits env q = true
                                                 → q ≠ q0)).
    { intros q0. destruct (join_exits env q); [|done].
      rewrite is_alive_alter_dead. by case_decide. }
    assert (Hsame : ∀ q0, q ≠ q0 →
              procs (if join_exits env q
                     then on_procs (alter mark_dead q) s1 else s1) !! q0
              = procs s1 !! q0).
    { intros q0 Hne. destruct (join_exits env q); [|done].
      cbn [on_procs procs]. by rewrite lookup_alter_ne. }
    split.
    + by destruct (join_exits env q).
    + by destruct (join_exits env q).
    + intros q0 Hq0. apply Hmono. by apply Hshape.
    + intros q0 Hq0. destruct (Hsig q0 Hq0) as [Ha1|Hsub].
      * destruct (decide (q = q0)) as [<-|Hne].
        -- right. apply sublist_inserts_l. sublist_solve.
        -- left. unfold is_alive in Ha1 |- *. by rewrite Hsame.
      * right. by apply sublist_inserts_r.
    + intros k0 q0 [Hin|Hin]%elem_of_app Hq0.
      * apply sublist_inserts_r. by eapply Hsgn.
      * apply list_elem_of_singleton in Hin. injection Hin as -> ->.
        apply sublist_inserts_l. sublist_solve.
    + intros q0 [Hin|Hin]%elem_of_app.
      * destruct (Hterm q0 Hin) as (Hq0 & k0 & Hk0). split; [done|].
        exists k0. apply elem_of_app. by left.
      * apply elem_of_cons in Hin as [[=]|Hin].
        apply elem_of_cons in Hin as [[= ->]|Hin].
        -- split; [by apply Hmono|]. exists k. apply elem_of_app. right.
           left.
        -- apply list_elem_of_singleton in Hin. discriminate Hin.
    + intros q0 Hq0. rewrite Hsame.
      * apply Hun. intros k0 Hk0. apply (Hq0 k0). apply elem_of_app.
        by left.
      * intros <-. apply (Hq0 k). apply elem_of_app. right. left.
    + intros e [Hin|Hin]%elem_of_app; [by apply Hev|].
      apply elem_of_cons in Hin as [->|Hin]; [left; by eexists _, _|].
      apply elem_of_cons in Hin as [->|Hin]; [right; left; by eexists|].
      apply list_elem_of_singleton in Hin as ->. right. right. by eexists.
  - injection Hstep as <- <- <-. rewrite (right_id_L [] (++)).
    split; try done.
    + intros k0 q0 [Hin|Hin]%elem_of_app Hq0; [by eapply Hsgn|].
      apply list_elem_of_singleton in Hin. injection Hin as -> ->.
      destruct (Hsig q Hq0) as [?|?]; [congruence|done].
    + intros q0 Hin. destruct (Hterm q0 Hin) as (Hq0 & k0 & Hk0).
      split; [done|]. exists k0. apply elem_of_app. by left.
    + intros q0 Hq0. apply Hun. intros k0 Hk0. apply (Hq0 k0).
      apply elem_of_app. by left.
Qed.

(** X16. Shutting down never raises and ends with the shut-down record. It
    leaves the store and the table as they are. Every tracked process that
    is alive, the API server included, is sent [terminate()] and then
    joined for at most 5 seconds; nothing else is signalled (no dead
    process, no process outside the table, so no worker), nothing is
    killed and nothing is started, and a process outside the table is left
    as it was. *)
Theorem shutdown_signals_every_live_tracked_process env s :
  let '(r, s', t) := shutdown env s in
  r = Next tt
  ∧ shared s' = shared s
  ∧ managed_processes s' = managed_processes s
  ∧ (∀ k q, managed_processes s !! k = Some q → is_alive s q = true →
            [EvTerminate q; EvJoin q 5] `sublist_of` t)
  ∧ (∀ q, EvTerminate q ∈ t →
          is_alive s q = true ∧ ∃ k, managed_processes s !! k = Some q)
  ∧ (∀ e, e ∈ t →
          log_event e ∨ (∃ q, e = EvTerminate q) ∨ (∃ q, e = EvJoin q 5))
  ∧ (∀ q, (∀ k, managed_processes s !! k ≠ Some q) →
          procs s' !! q = procs s !! q)
  ∧ (∀ q, is_alive s' q = true → is_alive s q = true)
  ∧ last t = Some (EvRootLog INFO "--- AutoExec.py Manager Shut Down ---").
Proof.
  unfold shutdown. cbv [mbind M_mbind M_bind get].
  destruct (for_each_inv (shutdown_inv s) (stop_process env)
              (map_to_list (managed_processes s)) s)
    as (done & _ & HI & Hfull & _).
  - apply shutdown_inv_nil.
  - intros done [k q] s1 t1 r s' t' _ HI Hstep.
    by eapply shutdown_inv_step.
  - assert (Hnext : (for_each (map_to_list (managed_processes s))
                       (stop_process env) s).1.1 = Next tt).
    { apply for_each_next. intros [k q] s1 _. rewrite stop_process_eq.
      by destruct (is_alive s1 q). }
    destruct (for_each (map_to_list (managed_processes s))
                (stop_process env) s) as [[r s'] t].
    cbn [fst snd] in *. subst r. rewrite (Hfull eq_refl) in HI.
    cbn [tell app]. destruct HI as [Hsh Hmg Hmono Hsig Hsgn Hterm Hun Hev].
    split_and!; try done.
    + intros k q Hk Hq. apply sublist_inserts_r.
      apply (Hsgn k q); [|done]. by apply elem_of_map_to_list.
    + intros q [Hin|Hin]%elem_of_app.
      * destruct (Hterm q Hin) as (Hq & k & Hk). split; [done|].
        exists k. by apply elem_of_map_to_list.
      * apply list_elem_of_singleton in Hin. discriminate Hin.
    + intros e [Hin|Hin]%elem_of_app; [by apply Hev|].
      apply list_elem_of_singleton in Hin as ->. left. by eexists _, _.
    + intros q Hq. apply Hun. intros k Hk.
      apply elem_of_map_to_list in Hk. by apply (Hq k).
    + by rewrite last_snoc.
Qed.

(** ** Starts of one cycle *)







(** ** The store in a cycle *)

Lemma stop_removed_manager_pid env x s :
  manager_pid (shared (stop_removed env x s).1.2) = manager_pid (shared s).
Proof.
  destruct s as [[mp sv] mg pr]. main_unfold.
  destruct (mg !! x) as [q|]; main_unfold.
  - unfold is_alive; cbn [on_managed on_procs procs].
    destruct (pr !! q) as [P|]; [destruct (proc_alive P)|];
      main_unfold; [destruct (join_exits env q); main_unfold|..].
    all: by destruct (decide (x ∈ dom sv)).
  - by destruct (decide (x ∈ dom sv)).
Qed.

(** X18. The Reconciler never writes a status record: after a cycle every
    record of the store is the record that was there under the same key
    before, and the manager's pid is the one that was there. *)
Theorem cycle_never_rewrites_a_status_record lib env s :
  services (shared (main_cycle lib env s).1.2) ⊆ services (shared s)
  ∧ manager_pid (shared (main_cycle lib env s).1.2) = manager_pid (shared s).
Proof.
  split.
  - apply map_subseteq_spec. intros k r Hk.
    rewrite cycle_store in Hk. by case_decide.
  - destruct (main_cycle_run lib env s)
      as (tp & s1 & t1 & s2 & t2 & r3 & s3 & t3
          & Hrm_eq & Hrm & Had_eq & Had & Hhc_eq & Htp & _ & Heq).
    rewrite Heq. cbn [fst snd].
    destruct (health_loop (desired_of lib (services_file env))
                (map_to_list (managed_processes s2)) s2)
      as (r & s3' & t3' & dn & Hloop & _ & Hhc & _).
    rewrite Hhc_eq in Hloop. injection Hloop as <- <- <-.
    rewrite (hc_shared _ _ _ _ _ Hhc), (ad_shared _ _ _ _ _ Had).
    pose proof (for_each_preserves
                  (λ s1, manager_pid (shared s1) = manager_pid (shared s))
                  (stop_removed env)
                  (elements (current_paths s
                             ∖ dom (desired_of lib (services_file env)))) s)
      as Hpid.
    rewrite Hrm_eq in Hpid. apply Hpid; [|done].
    intros x s0 H0. by rewrite stop_removed_manager_pid.
Qed.
